(** * warnet: remote execution and pod-lifecycle synchronisation (k8s.py)

    A shallow embedding of the functions of [src/warnet/k8s.py] and
    [src/warnet/process.py] that wait for pods and move data in and out of
    them, together with the theorems that settle what the specification
    says about them.

    The Python code talks to three collaborators: a local shell
    ([subprocess]), the Kubernetes API (pod lookup, pod listing, watch
    subscriptions, exec sessions) and the Python standard library
    ([str], [posixpath]).  The first two are answered by a [World]; every
    call the code makes is recorded, in order, in a trace of [action]s, and
    a call that fails raises as it does in Python. *)

From Stdlib Require Import String Ascii List ZArith Bool Lia.
Import ListNotations.
Open Scope string_scope.
Open Scope list_scope.

(** Python's [+] on [str]; [++] stays list concatenation. *)
Infix "+++" := String.append (right associativity, at level 60).

(** ** Python [str] operations used by the code *)

Module PyStr.

Definition startswith (s p : string) : bool := String.prefix p s.

Fixpoint endswith (s p : string) : bool :=
  (s =? p) ||
  match s with
  | EmptyString => false
  | String _ s' => endswith s' p
  end.

(** [sub in s] *)
Fixpoint contains (s sub : string) : bool :=
  String.prefix sub s ||
  match s with
  | EmptyString => false
  | String _ s' => contains s' sub
  end.

(** [s.find(sub)]: the lowest index where [sub] occurs, [-1] if none. *)
Fixpoint find (s sub : string) : Z :=
  if String.prefix sub s then 0%Z
  else match s with
       | EmptyString => (-1)%Z
       | String _ s' =>
           let i := find s' sub in
           if (i <? 0)%Z then (-1)%Z else (i + 1)%Z
       end.

(** [str.isspace] on the ASCII range: TAB, LF, VT, FF, CR, the four
    separators 0x1c-0x1f, and the space. *)
Definition isspace (c : ascii) : bool :=
  let n := nat_of_ascii c in
  ((9 <=? n)%nat && (n <=? 13)%nat) || ((28 <=? n)%nat && (n <=? 32)%nat).

Fixpoint lstrip (s : string) : string :=
  match s with
  | EmptyString => EmptyString
  | String c s' => if isspace c then lstrip s' else s
  end.

Fixpoint rstrip (s : string) : string :=
  match s with
  | EmptyString => EmptyString
  | String c s' =>
      let r := rstrip s' in
      if isspace c && (r =? "") then EmptyString else String c r
  end.

Definition strip (s : string) : string := rstrip (lstrip s).

(** [s.split(sep)] for a one-character separator; [''.split(sep)] is
    [['']]. *)
Fixpoint split (s : string) (sep : ascii) : list string :=
  match s with
  | EmptyString => [EmptyString]
  | String c s' =>
      if Ascii.eqb c sep then EmptyString :: split s' sep
      else match split s' sep with
           | [] => [String c EmptyString]
           | w :: ws => String c w :: ws
           end
  end.

(** [sep.join(l)] *)
Definition join (sep : string) (l : list string) : string :=
  String.concat sep l.

(** truthiness of a [str] *)
Definition truthy (s : string) : bool := negb (s =? "").

Fixpoint repeat (s : string) (n : nat) : string :=
  match n with
  | O => EmptyString
  | S n' => s +++ repeat s n'
  end.

End PyStr.

(** ** [posixpath], as far as [os.path.relpath] needs it

    [os.path] is not code of the repository; these definitions follow
    CPython's [posixpath.py] line by line.  [cwd] stands for
    [os.getcwd()]. *)

Module posixpath.

Definition sep : ascii := "/"%char.
Definition curdir : string := ".".
Definition pardir : string := "..".

Definition isabs (s : string) : bool := PyStr.startswith s "/".

(** one step of [join(a, *p)]'s loop *)
Definition join_step (path b : string) : string :=
  if PyStr.startswith b "/" then b
  else if (path =? "") || PyStr.endswith path "/" then path +++ b
  else path +++ "/" +++ b.

Definition join (a : string) (p : list string) : string :=
  fold_left join_step p a.

Definition is_nil {A} (l : list A) : bool :=
  match l with [] => true | _ => false end.

Definition normpath_step (initial_slashes : nat)
    (new_comps : list string) (comp : string) : list string :=
  if (comp =? "") || (comp =? ".") then new_comps
  else if negb (comp =? pardir)
          || ((initial_slashes =? 0)%nat && is_nil new_comps)
          || (negb (is_nil new_comps) && (last new_comps "" =? pardir))
       then new_comps ++ [comp]
       else if negb (is_nil new_comps) then removelast new_comps
            else new_comps.

Definition normpath (path : string) : string :=
  if path =? "" then curdir
  else
    let initial_slashes : nat :=
      if PyStr.startswith path "/" then
        if PyStr.startswith path "//" && negb (PyStr.startswith path "///")
        then 2 else 1
      else 0 in
    let comps := PyStr.split path sep in
    let new_comps := fold_left (normpath_step initial_slashes) comps [] in
    let path' := PyStr.repeat "/" initial_slashes +++ PyStr.join "/" new_comps in
    if path' =? "" then curdir else path'.

Definition abspath (cwd path : string) : string :=
  normpath (if isabs path then path else join cwd [path]).

(** [genericpath.commonprefix] on two lists of components *)
Fixpoint commonprefix (l1 l2 : list string) : list string :=
  match l1, l2 with
  | a :: l1', b :: l2' => if a =? b then a :: commonprefix l1' l2' else []
  | _, _ => []
  end.

Definition nonempty_comps (s : string) : list string :=
  filter PyStr.truthy (PyStr.split s sep).

(** [relpath(path, start)]; [None] is the [ValueError] raised on an empty
    [path]. *)
Definition relpath (cwd path start : string) : option string :=
  if path =? "" then None
  else
    let start_list := nonempty_comps (abspath cwd start) in
    let path_list := nonempty_comps (abspath cwd path) in
    let i := length (commonprefix start_list path_list) in
    let rel_list := List.repeat pardir (length start_list - i) ++ skipn i path_list in
    match rel_list with
    | [] => Some curdir
    | a :: p => Some (join a p)
    end.

End posixpath.

(** ** Kubernetes objects: the fields the code reads *)

Record V1ObjectMeta := { meta_name : string }.

Record V1PodCondition := {
  condition_type : string;
  condition_status : string
}.

Record V1ContainerStateRunning := { started_at : option string }.

Record V1ContainerState := { state_running : option V1ContainerStateRunning }.

Record V1ContainerStatus := { container_state : V1ContainerState }.

Record V1PodStatus := {
  status_phase : option string;
  status_conditions : option (list V1PodCondition);
  status_init_container_statuses : option (list V1ContainerStatus)
}.

Record V1Pod := { pod_metadata : V1ObjectMeta; pod_status : V1PodStatus }.

(** ** The collaborators *)

(** [subprocess.run(..., capture_output=True)] *)
Record CompletedProcess := {
  cp_returncode : Z;
  cp_stdout : string;
  cp_stderr : string
}.

(** [subprocess.Popen] with stderr merged into stdout: the lines read from
    the pipe and the exit status given by [wait()]. *)
Record PopenResult := {
  popen_lines : list string;
  popen_return_code : Z
}.

(** The keyword arguments of
    [stream(sclient.connect_get_namespaced_pod_exec, name, namespace, ...)]. *)
Record ExecRequest := {
  exec_name : string;
  exec_namespace : string;
  command : list string;
  container : option string;
  stderr : bool;
  stdin : bool;
  stdout : bool;
  tty : bool;
  preload_content : bool
}.

(** What one [update(timeout=1)] of an open exec session brings: the text
    then buffered on stdout and on stderr (empty when nothing arrived), or a
    transport error. *)
Inductive poll :=
| Chunk (out err : string)
| ConnectionError (msg : string).

(** An exec session opened with [_preload_content=False]: it stays open for
    as many updates as [polls] has entries. *)
Record WSClient := {
  polls : list poll;
  write_stdin_error : option string;
  close_error : option string
}.

(** A watch subscription opened with [timeout_seconds]: the pods of the
    events delivered within the time budget, then either the end of the
    budget ([None]) or a failure of the stream. *)
Record WatchStream := {
  watch_events : list V1Pod;
  watch_failure : option string
}.

Inductive api_result (A : Type) :=
| ApiOk (a : A)
| ApiException (msg : string).
Arguments ApiOk {A} a.
Arguments ApiException {A} msg.

(** The environment of one operation.  An answer depends on the request
    only. *)
Record World := {
  getcwd : string;
  subprocess_run : string -> CompletedProcess;
  subprocess_popen : string -> PopenResult;
  load_kube_config : option string;
  read_namespaced_pod : string -> string -> api_result V1Pod;
  list_namespaced_pod : string -> api_result (list V1Pod);
  watch_namespaced_pod : string -> Z -> WatchStream;
  exec_session : ExecRequest -> api_result WSClient;
  exec_output : ExecRequest -> api_result string
}.

(** ** Effects: a trace of actions, and exceptions *)

(** What the code does to the outside, one constructor per call.
    [WatchOpen] opens the subscription, [WatchEvent] is one event handed to
    the loop, [WatchStop] is [w.stop()], and [WatchExhausted] marks the end
    of the stream because [timeout_seconds] has elapsed.  [Update],
    [WriteStdin] and [Close] act on the exec session opened last. *)
Inductive action :=
| SubprocessRun (cmd : string)
| SubprocessPopen (cmd : string)
| LoadKubeConfig
| ReadNamespacedPod (name namespace : string)
| ListNamespacedPod (namespace : string)
| WatchOpen (namespace : string) (timeout_seconds : Z)
| WatchEvent (pod : V1Pod)
| WatchStop
| WatchExhausted
| Exec (req : ExecRequest)
| Update
| WriteStdin (data : string)
| Close
| Print (text : string)
| PrintNoNewline (text : string).

Inductive exn :=
| Exception (msg : string)
| SystemExit (code : Z).

Inductive outcome (A : Type) :=
| Return (a : A)
| Raise (e : exn).
Arguments Return {A} a.
Arguments Raise {A} e.

(** A computation: the actions it performed and how it ended. *)
Definition M (A : Type) : Type := (list action * outcome A)%type.

Definition ret {A} (a : A) : M A := ([], Return a).

Definition raise {A} (e : exn) : M A := ([], Raise e).

Definition bind {A B} (m : M A) (k : A -> M B) : M B :=
  match m with
  | (t, Return a) => let (t', r) := k a in (t ++ t', r)
  | (t, Raise e) => (t, Raise e)
  end.

Definition perform (a : action) : M unit := ([a], Return tt).

(** [try: body  except Exception as e: handler(str(e))]; a [SystemExit] is
    not an [Exception] and passes through. *)
Definition try_except {A} (body : M A) (handler : string -> M A) : M A :=
  match body with
  | (t, Raise (Exception msg)) => let (t', r) := handler msg in (t ++ t', r)
  | _ => body
  end.

Notation "x <- m ;; k" := (bind m (fun x => k))
  (at level 61, m at next level, right associativity).
Notation "m ;; k" := (bind m (fun _ => k))
  (at level 61, right associativity).

Definition print (text : string) : M unit := perform (Print text).

Definition trace {A} (m : M A) : list action := fst m.
Definition result {A} (m : M A) : outcome A := snd m.

Definition of_api {A} (r : api_result A) : M A :=
  match r with
  | ApiOk a => ret a
  | ApiException msg => raise (Exception msg)
  end.

Definition when (b : bool) (m : M unit) : M unit := if b then m else ret tt.

(** ** process.py *)

Module process.
Section WithWorld.
Variable W : World.

Definition run_command (command : string) : M string :=
  perform (SubprocessRun command) ;;
  let result := subprocess_run W command in
  if negb (cp_returncode result =? 0)%Z
  then raise (Exception (cp_stderr result))
  else ret (cp_stdout result).

(** [for line in iter(process.stdout.readline, ""): message += line;
    print(line, end="")] *)
Fixpoint read_lines (lines : list string) (message : string) : M string :=
  match lines with
  | [] => ret message
  | line :: rest =>
      perform (PrintNoNewline line) ;;
      read_lines rest (message +++ line)
  end.

Definition stream_command (command : string) : M bool :=
  perform (SubprocessPopen command) ;;
  let process := subprocess_popen W command in
  message <- read_lines (popen_lines process) "" ;;
  if negb (popen_return_code process =? 0)%Z
  then raise (Exception message)
  else ret true.

End WithWorld.
End process.

(** ** k8s.py *)

Module k8s.
Section WithWorld.
Variable W : World.

(** [constants.py] is not among the sources: its two constants are
    parameters. *)
Variable DEFAULT_NAMESPACE : string.
Variable INGRESS_NAMESPACE : string.

(** [str(Path(a) / b)] of [pathlib], a parameter as well. *)
Variable Path_div : string -> string -> string.

(** [config.load_kube_config(config_file=KUBECONFIG)]; the client itself
    carries no data the code inspects. *)
Definition get_static_client : M unit :=
  perform LoadKubeConfig ;;
  match load_kube_config W with
  | Some msg => raise (Exception msg)
  | None => ret tt
  end.

Definition kubectl_missing_hint : string :=
  "It looks like kubectl is not installed. Please install it to continue: "
  +++ "https://kubernetes.io/docs/tasks/tools/".

Definition get_default_namespace : M string :=
  let command := "kubectl config view --minify -o jsonpath='{..namespace}'" in
  kubectl_namespace <-
    try_except (process.run_command W command)
      (fun e =>
         print e ;;
         when (negb (PyStr.find e "command not found" =? 0)%Z)
              (print kubectl_missing_hint) ;;
         raise (SystemExit 1)) ;;
  ret (if PyStr.truthy kubectl_namespace then kubectl_namespace
       else DEFAULT_NAMESPACE).

Definition get_default_namespace_or (namespace : option string) : M string :=
  match namespace with
  | Some ns => if PyStr.truthy ns then ret ns else get_default_namespace
  | None => get_default_namespace
  end.

(** [stream(sclient.connect_get_namespaced_pod_exec, ...,
    _preload_content=False)] *)
Definition stream_session (req : ExecRequest) : M WSClient :=
  perform (Exec req) ;; of_api (exec_session W req).

(** the same call with [_preload_content] left at its default: the
    command runs to its end and its output is returned. *)
Definition stream_preloaded (req : ExecRequest) : M string :=
  perform (Exec req) ;; of_api (exec_output W req).

Definition close (resp : WSClient) : M unit :=
  perform Close ;;
  match close_error resp with
  | Some msg => raise (Exception msg)
  | None => ret tt
  end.

Definition write_stdin (resp : WSClient) (data : string) : M unit :=
  perform (WriteStdin data) ;;
  match write_stdin_error resp with
  | Some msg => raise (Exception msg)
  | None => ret tt
  end.

(** *** snapshot_bitcoin_datadir *)

Definition datadir (chain : string) : string := "/root/.bitcoin/" +++ chain.

Definition find_command (chain : string) (filters : option (list string))
  : list string :=
  match filters with
  | Some (f0 :: rest) =>
      let find_command :=
        ["find"; datadir chain;
         "("; "-type"; "f"; "-o"; "-type"; "d"; ")";
         "("; "-name"; f0] in
      let find_command :=
        fold_left (fun cmd f => cmd ++ ["-o"; "-name"; f]) rest find_command in
      find_command ++ [")"]
  | _ => ["find"; datadir chain]
  end.

Definition LF : ascii := "010"%char.

(** the first [while resp.is_open()] loop *)
Fixpoint drain_find (ps : list poll) (file_list : list string)
  : M (list string) :=
  match ps with
  | [] => ret file_list
  | p :: rest =>
      perform Update ;;
      match p with
      | ConnectionError msg => raise (Exception msg)
      | Chunk out err =>
          let file_list :=
            if PyStr.truthy out
            then file_list ++ PyStr.split (PyStr.strip out) LF
            else file_list in
          when (PyStr.truthy err) (print ("Error: " +++ err)) ;;
          drain_find rest file_list
      end
  end.

(** the second [while resp.is_open()] loop *)
Fixpoint drain_tar (ps : list poll) : M unit :=
  match ps with
  | [] => ret tt
  | p :: rest =>
      perform Update ;;
      match p with
      | ConnectionError msg => raise (Exception msg)
      | Chunk out err =>
          when (PyStr.truthy out) (print ("Tar output: " +++ out)) ;;
          when (PyStr.truthy err) (print ("Error: " +++ err)) ;;
          drain_tar rest
      end
  end.

(** [[os.path.relpath(f, base) for f in file_list if f.strip()]] *)
Fixpoint relpaths (base : string) (file_list : list string)
  : M (list string) :=
  match file_list with
  | [] => ret []
  | f :: rest =>
      if PyStr.truthy (PyStr.strip f) then
        match posixpath.relpath (getcwd W) f base with
        | None => raise (Exception "no path specified")
        | Some r => rs <- relpaths base rest ;; ret (r :: rs)
        end
      else relpaths base rest
  end.

Definition exec_request (pod_name namespace : string)
    (cmd : list string) (ctr : option string) (use_stdin preload : bool)
  : ExecRequest :=
  {| exec_name := pod_name; exec_namespace := namespace;
     command := cmd; container := ctr;
     stderr := true; stdin := use_stdin; stdout := true; tty := false;
     preload_content := preload |}.

Definition archive_path : string := "/tmp/bitcoin_data.tar.gz".

Definition cleanup_command : list string := ["rm"; archive_path].

Definition snapshot_bitcoin_datadir (pod_name chain local_path : string)
    (filters : option (list string)) (namespace : option string) : M unit :=
  namespace <- get_default_namespace_or namespace ;;
  get_static_client ;;
  try_except
    (perform (ReadNamespacedPod pod_name namespace) ;;
     of_api (read_namespaced_pod W pod_name namespace) ;;
     resp <- stream_session
               (exec_request pod_name namespace (find_command chain filters)
                             None false false) ;;
     file_list <- drain_find (polls resp) [] ;;
     close resp ;;
     if posixpath.is_nil file_list then
       print "No matching files or directories found."
     else
       rel <- relpaths (datadir chain) file_list ;;
       let tar_command :=
         ["tar"; "-czf"; archive_path; "-C"; datadir chain] ++ rel in
       resp <- stream_session
                 (exec_request pod_name namespace tar_command None false false) ;;
       drain_tar (polls resp) ;;
       close resp ;;
       let local_file_path :=
         Path_div local_path (pod_name +++ "_bitcoin_data.tar.gz") in
       let copy_command :=
         "kubectl cp " +++ namespace +++ "/" +++ pod_name +++ ":"
         +++ archive_path +++ " " +++ local_file_path in
       copied <- process.stream_command W copy_command ;;
       (if negb copied
        then raise (Exception "Failed to copy tar file from pod to local machine")
        else ret tt) ;;
       print ("Bitcoin data exported successfully to " +++ local_file_path) ;;
       stream_preloaded
         (exec_request pod_name namespace cleanup_command None false true) ;;
       print "To untar and repopulate the directory, use the following command:" ;;
       print ("tar -xzf " +++ local_file_path
              +++ " -C /path/to/destination/.bitcoin/" +++ chain))
    (fun e => print ("An error occurred: " +++ e)).

(** *** Readiness waits *)

(** [next((c for c in conditions if c.type == "Ready"), None)] *)
Definition ready_condition (conditions : list V1PodCondition)
  : option V1PodCondition :=
  List.find (fun c => condition_type c =? "Ready") conditions.

(** the test made on each event of [wait_for_pod_ready] *)
Definition pod_is_ready (name : string) (pod : V1Pod) : bool :=
  if (meta_name (pod_metadata pod) =? name)
     && match status_phase (pod_status pod) with
        | Some phase => phase =? "Running"
        | None => false
        end
  then
    let conditions :=
      match status_conditions (pod_status pod) with
      | Some cs => cs
      | None => []
      end in
    match ready_condition conditions with
    | Some c => condition_status c =? "True"
    | None => false
    end
  else false.

(** the [for event in w.stream(...)] loop of [wait_for_pod_ready] and the
    two statements after it *)
Fixpoint pod_ready_loop (name : string) (events : list V1Pod)
    (failure : option string) : M bool :=
  match events with
  | pod :: rest =>
      perform (WatchEvent pod) ;;
      if pod_is_ready name pod
      then perform WatchStop ;; ret true
      else pod_ready_loop name rest failure
  | [] =>
      match failure with
      | Some msg => raise (Exception msg)
      | None =>
          perform WatchExhausted ;;
          print ("Timeout waiting for pod " +++ name +++ " to be ready.") ;;
          ret false
      end
  end.

Definition wait_for_pod_ready (name namespace : string) (timeout : Z)
  : M bool :=
  get_static_client ;;
  perform (WatchOpen namespace timeout) ;;
  let w := watch_namespaced_pod W namespace timeout in
  pod_ready_loop name (watch_events w) (watch_failure w).

(** [for init_container_status in pod.status.init_container_statuses] *)
Definition any_init_running (statuses : list V1ContainerStatus) : bool :=
  existsb (fun s =>
             match state_running (container_state s) with
             | Some _ => true
             | None => false
             end) statuses.

Definition init_statuses_populated (pod : V1Pod) : bool :=
  match status_init_container_statuses (pod_status pod) with
  | Some (_ :: _) => true
  | _ => false
  end.

Fixpoint init_loop (pod_name namespace : string) (quiet : bool)
    (events : list V1Pod) (failure : option string) : M bool :=
  match events with
  | pod :: rest =>
      perform (WatchEvent pod) ;;
      if meta_name (pod_metadata pod) =? pod_name then
        match status_init_container_statuses (pod_status pod) with
        | None | Some [] => init_loop pod_name namespace quiet rest failure
        | Some statuses =>
            if any_init_running statuses then
              when (negb quiet)
                   (print ("initContainer in pod " +++ pod_name +++ " ("
                           +++ namespace +++ ") is ready")) ;;
              perform WatchStop ;;
              ret true
            else init_loop pod_name namespace quiet rest failure
        end
      else init_loop pod_name namespace quiet rest failure
  | [] =>
      match failure with
      | Some msg => raise (Exception msg)
      | None =>
          perform WatchExhausted ;;
          when (negb quiet)
               (print ("Timeout waiting for initContainer in " +++ pod_name
                       +++ " (" +++ namespace +++ ") to be ready.")) ;;
          ret false
      end
  end.

Definition wait_for_init (pod_name : string) (timeout : Z)
    (namespace : option string) (quiet : bool) : M bool :=
  namespace <- get_default_namespace_or namespace ;;
  get_static_client ;;
  perform (WatchOpen namespace timeout) ;;
  let w := watch_namespaced_pod W namespace timeout in
  init_loop pod_name namespace quiet (watch_events w) (watch_failure w).

Definition is_ingress_controller (pod : V1Pod) : bool :=
  PyStr.contains (meta_name (pod_metadata pod)) "ingress-nginx-controller".

Definition wait_for_ingress_controller (timeout : Z) : M bool :=
  get_static_client ;;
  perform (ListNamespacedPod INGRESS_NAMESPACE) ;;
  pods <- of_api (list_namespaced_pod W INGRESS_NAMESPACE) ;;
  match List.find is_ingress_controller pods with
  | Some pod =>
      wait_for_pod_ready (meta_name (pod_metadata pod)) INGRESS_NAMESPACE timeout
  | None => ret false
  end.

(** *** write_file_to_container *)

Definition receive_command (dst_path : string) : list string :=
  ["sh"; "-c"; "cat > " +++ dst_path +++ ".tmp && sync"].

Definition rename_command (dst_path : string) : list string :=
  ["sh"; "-c"; "mv " +++ dst_path +++ ".tmp " +++ dst_path].

(** [Some true] is [True]; [None] is Python's [None], the value of a call
    that ends without a [return]. *)
Definition write_file_to_container (pod_name container_name dst_path data : string)
    (namespace : option string) (quiet : bool) : M (option bool) :=
  namespace <- get_default_namespace_or namespace ;;
  get_static_client ;;
  let exec_command := receive_command dst_path in
  try_except
    (res <- stream_session
              (exec_request pod_name namespace exec_command
                            (Some container_name) true false) ;;
     write_stdin res data ;;
     close res ;;
     stream_preloaded
       (exec_request pod_name namespace (rename_command dst_path)
                     (Some container_name) false true) ;;
     when (negb quiet)
          (print ("Successfully copied data to " +++ pod_name +++ "("
                  +++ container_name +++ "):" +++ dst_path)) ;;
     ret (Some true))
    (fun e =>
       print ("Failed to copy data to " +++ pod_name +++ "("
              +++ container_name +++ "):" +++ dst_path +++ ":"
              +++ String LF e) ;;
       ret None).

End WithWorld.
End k8s.


(** ** What a [find] command selects

    [find] runs inside the pod and is not code of the repository.  The
    definitions below give the meaning find(1) documents for the part of
    its language that [find_command] uses: parentheses, [-type], [-name],
    [-o], and juxtaposition (or [-a]) for conjunction, which binds tighter
    than [-o].  [fnmatch pattern name] is the shell-pattern match of a base
    name. *)

Module findutils.

Inductive file_type :=
| RegularFile | Directory | SymbolicLink
| BlockDevice | CharacterDevice | NamedPipe | Socket.

Definition type_letter (t : file_type) : string :=
  match t with
  | RegularFile => "f" | Directory => "d" | SymbolicLink => "l"
  | BlockDevice => "b" | CharacterDevice => "c" | NamedPipe => "p"
  | Socket => "s"
  end.

(** an entry met while walking the start directory *)
Record entry := { entry_name : string; entry_type : file_type }.

Inductive expr :=
| EType (c : string)
| EName (pattern : string)
| EOr (a b : expr)
| EAnd (a b : expr)
| EParen (e : expr).

Fixpoint eval (fnmatch : string -> string -> bool) (e : expr) (x : entry)
  : bool :=
  match e with
  | EType c => type_letter (entry_type x) =? c
  | EName pattern => fnmatch pattern (entry_name x)
  | EOr a b => eval fnmatch a x || eval fnmatch b x
  | EAnd a b => eval fnmatch a x && eval fnmatch b x
  | EParen e' => eval fnmatch e' x
  end.

(** Recursive descent over the argument vector; [fuel] bounds the depth.
    [parse_or] reads [and ( -o and )*], [parse_and] reads a run of
    primaries, [parse_primary] a parenthesis or a test with its
    argument. *)
Fixpoint parse_or (fuel : nat) (ts : list string)
  : option (expr * list string) :=
  match fuel with
  | O => None
  | S fuel' =>
      match parse_and fuel' ts with
      | Some (a, t :: ts') =>
          if t =? "-o" then
            match parse_or fuel' ts' with
            | Some (b, ts'') => Some (EOr a b, ts'')
            | None => None
            end
          else Some (a, t :: ts')
      | r => r
      end
  end
with parse_and (fuel : nat) (ts : list string)
  : option (expr * list string) :=
  match fuel with
  | O => None
  | S fuel' =>
      match parse_primary fuel' ts with
      | Some (a, t :: ts') =>
          if (t =? ")") || (t =? "-o") then Some (a, t :: ts')
          else
            match parse_and fuel' (if t =? "-a" then ts' else t :: ts') with
            | Some (b, ts'') => Some (EAnd a b, ts'')
            | None => None
            end
      | r => r
      end
  end
with parse_primary (fuel : nat) (ts : list string)
  : option (expr * list string) :=
  match fuel with
  | O => None
  | S fuel' =>
      match ts with
      | t :: ts' =>
          if t =? "(" then
            match parse_or fuel' ts' with
            | Some (e, t' :: ts'') =>
                if t' =? ")" then Some (EParen e, ts'') else None
            | _ => None
            end
          else
            match ts' with
            | arg :: ts'' =>
                if t =? "-type" then Some (EType arg, ts'')
                else if t =? "-name" then Some (EName arg, ts'')
                else None
            | [] => None
            end
      | [] => None
      end
  end.

(** Whether [find start expression...] prints the entry [x] met under the
    start directory: with no expression every entry is printed; [None]
    when the vector is not a [find] command of this fragment. *)
Definition selects (fnmatch : string -> string -> bool)
    (argv : list string) (x : entry) : option bool :=
  match argv with
  | prog :: _start :: expression =>
      if prog =? "find" then
        match expression with
        | [] => Some true
        | _ =>
            match parse_or (3 * length expression) expression with
            | Some (e, []) => Some (eval fnmatch e x)
            | _ => None
            end
        end
      else None
  | _ => None
  end.

End findutils.

(** ** How [sh -c] reads a command line

    [write_file_to_container] hands two command lines to [sh -c] inside
    the pod; [sh] is not code of the repository.  The definitions below
    follow the shell command language (POSIX.1, XCU 2.3 token recognition
    and 2.9 commands) for the part the two lines use: words separated by
    blanks, a [#] where a word would start opening a comment that runs to
    the end of the line, the output redirection [>] and the AND list
    [&&].  A line that holds any other character special to the shell
    (quotes, expansions, other operators, a newline) or a reserved word as
    a command name is left unread ([None]). *)

Module sh.

Inductive token :=
| Word (w : string)
| Great
| AndIf.

Definition blank (c : ascii) : bool :=
  (c =? " ")%char || (c =? "009")%char.

Definition digit (c : ascii) : bool :=
  let n := nat_of_ascii c in (48 <=? n)%nat && (n <=? 57)%nat.

Definition letter (c : ascii) : bool :=
  let n := nat_of_ascii c in
  ((65 <=? n)%nat && (n <=? 90)%nat) || ((97 <=? n)%nat && (n <=? 122)%nat).

(** characters that stand for themselves inside a word *)
Definition plain (c : ascii) : bool :=
  letter c || digit c
  || existsb (Ascii.eqb c) ["/"; "."; "_"; "-"; "+"; ","; ":"; "@"; "%"]%char.

Fixpoint all_digits (w : string) : bool :=
  match w with
  | EmptyString => true
  | String c w' => digit c && all_digits w'
  end.

(** the word read so far, if any, becomes a token *)
Definition flush (word : string) (ts : list token) : list token :=
  if word =? "" then ts else Word word :: ts.

(** [word] holds the characters of the word being read.  A word of
    digits right before [>] would be a file descriptor number; such lines
    are left unread. *)
Fixpoint tokens (line word : string) : option (list token) :=
  match line with
  | EmptyString => Some (flush word [])
  | String c rest =>
      if blank c then option_map (flush word) (tokens rest "")
      else if (c =? "#")%char then
        if word =? "" then Some [] else tokens rest (word +++ "#")
      else if (c =? ">")%char then
        if negb (word =? "") && all_digits word then None
        else
          match rest with
          | String c' _ =>
              if (c' =? ">")%char || (c' =? "&")%char || (c' =? "|")%char
              then None
              else option_map (fun ts => flush word (Great :: ts)) (tokens rest "")
          | EmptyString => Some (flush word [Great])
          end
      else if (c =? "&")%char then
        match rest with
        | String c' rest' =>
            if (c' =? "&")%char
            then option_map (fun ts => flush word (AndIf :: ts)) (tokens rest' "")
            else None
        | EmptyString => None
        end
      else if plain c then tokens rest (word +++ String c "")
      else None
  end.

(** a simple command: its words, and the files its output is redirected
    to, in the order written *)
Record simple_command := {
  argv : list string;
  redirects : list string
}.

Definition reserved : list string :=
  ["if"; "then"; "else"; "elif"; "fi"; "do"; "done"; "case"; "esac";
   "while"; "until"; "for"; "in"].

Definition well_formed (c : simple_command) : bool :=
  match argv c with
  | [] => match redirects c with [] => false | _ => true end
  | name :: _ => negb (existsb (String.eqb name) reserved)
  end.

(** an AND list of simple commands; [cur] is the command being read *)
Fixpoint commands (ts : list token) (cur : simple_command)
  : option (list simple_command) :=
  match ts with
  | [] => if well_formed cur then Some [cur] else None
  | Word w :: ts' =>
      commands ts' {| argv := argv cur ++ [w]; redirects := redirects cur |}
  | Great :: Word target :: ts' =>
      commands ts' {| argv := argv cur; redirects := redirects cur ++ [target] |}
  | Great :: _ => None
  | AndIf :: ts' =>
      if well_formed cur then
        match ts' with
        | [] => None
        | _ => option_map (cons cur)
                 (commands ts' {| argv := []; redirects := [] |})
        end
      else None
  end.

(** The commands of a line.  They run from left to right, each one only
    if the one before it succeeded; an empty list is a line that holds a
    comment at most. *)
Definition read (line : string) : option (list simple_command) :=
  match tokens line "" with
  | Some [] => Some []
  | Some ts => commands ts {| argv := []; redirects := [] |}
  | None => None
  end.

End sh.

(** * Vocabulary of the statements *)

(** ** write_file_to_container *)

(** The four remote steps inside the [try] of [write_file_to_container] all
    go through in [W]. *)
Definition write_steps_succeed (W : World)
    (pod_name container_name dst_path namespace : string) : bool :=
  match exec_session W (k8s.exec_request pod_name namespace
                          (k8s.receive_command dst_path)
                          (Some container_name) true false) with
  | ApiOk res =>
      match write_stdin_error res, close_error res,
            exec_output W (k8s.exec_request pod_name namespace
                             (k8s.rename_command dst_path)
                             (Some container_name) false true) with
      | None, None, ApiOk _ => true
      | _, _, _ => false
      end
  | ApiException _ => false
  end.

Definition write_success_message (pod_name container_name dst_path : string)
  : string :=
  "Successfully copied data to " +++ pod_name +++ "(" +++ container_name
  +++ "):" +++ dst_path.

Definition write_failure_message (pod_name container_name dst_path e : string)
  : string :=
  "Failed to copy data to " +++ pod_name +++ "(" +++ container_name
  +++ "):" +++ dst_path +++ ":" +++ String k8s.LF e.

(** ** Example environments *)

Definition running_pod (name : string) : V1Pod :=
  {| pod_metadata := {| meta_name := name |};
     pod_status :=
       {| status_phase := Some "Running";
          status_conditions :=
            Some [ {| condition_type := "Initialized"; condition_status := "True" |};
                   {| condition_type := "Ready"; condition_status := "True" |} ];
          status_init_container_statuses := None |} |}.

Definition find_output : string :=
  "/root/.bitcoin/regtest/blocks" +++ String k8s.LF
    ("/root/.bitcoin/regtest/chainstate" +++ String k8s.LF "").

(** Every collaborator answers and succeeds; [find] reports two
    directories. *)
Definition calm : World :=
  {| getcwd := "/home/op";
     subprocess_run := fun _ =>
       {| cp_returncode := 0; cp_stdout := "warnet"; cp_stderr := "" |};
     subprocess_popen := fun _ =>
       {| popen_lines := []; popen_return_code := 0 |};
     load_kube_config := None;
     read_namespaced_pod := fun name _ => ApiOk (running_pod name);
     list_namespaced_pod := fun _ => ApiOk [];
     watch_namespaced_pod := fun _ _ =>
       {| watch_events := []; watch_failure := None |};
     exec_session := fun req =>
       ApiOk {| polls := if hd "" (command req) =? "find"
                         then [Chunk find_output ""] else [];
                write_stdin_error := None;
                close_error := None |};
     exec_output := fun _ => ApiOk "" |}.

(** The pod cannot be reached: opening an exec session fails. *)
Definition unreachable_pod : World :=
  {| getcwd := getcwd calm;
     subprocess_run := subprocess_run calm;
     subprocess_popen := subprocess_popen calm;
     load_kube_config := None;
     read_namespaced_pod := read_namespaced_pod calm;
     list_namespaced_pod := list_namespaced_pod calm;
     watch_namespaced_pod := watch_namespaced_pod calm;
     exec_session := fun _ => ApiException "pod not found";
     exec_output := fun _ => ApiException "pod not found" |}.

(** [kubectl] is not installed: the shell reports it and exits with 127. *)
Definition no_kubectl : World :=
  {| getcwd := getcwd calm;
     subprocess_run := fun _ =>
       {| cp_returncode := 127; cp_stdout := "";
          cp_stderr := "bash: kubectl: command not found" |};
     subprocess_popen := subprocess_popen calm;
     load_kube_config := None;
     read_namespaced_pod := read_namespaced_pod calm;
     list_namespaced_pod := list_namespaced_pod calm;
     watch_namespaced_pod := watch_namespaced_pod calm;
     exec_session := exec_session calm;
     exec_output := exec_output calm |}.

(** The kubeconfig file cannot be loaded. *)
Definition no_kubeconfig : World :=
  {| getcwd := getcwd calm;
     subprocess_run := subprocess_run calm;
     subprocess_popen := subprocess_popen calm;
     load_kube_config := Some "Invalid kube-config file. No configuration found.";
     read_namespaced_pod := read_namespaced_pod calm;
     list_namespaced_pod := list_namespaced_pod calm;
     watch_namespaced_pod := watch_namespaced_pod calm;
     exec_session := exec_session calm;
     exec_output := exec_output calm |}.

(** [kubectl cp] fails. *)
Definition copy_fails : World :=
  {| getcwd := getcwd calm;
     subprocess_run := subprocess_run calm;
     subprocess_popen := fun _ =>
       {| popen_lines := ["error: unable to copy"]; popen_return_code := 1 |};
     load_kube_config := None;
     read_namespaced_pod := read_namespaced_pod calm;
     list_namespaced_pod := list_namespaced_pod calm;
     watch_namespaced_pod := watch_namespaced_pod calm;
     exec_session := exec_session calm;
     exec_output := exec_output calm |}.


(** The second exec call answers with what [mv] writes when it is given
    one operand; the call itself does not fail. *)
Definition mv_complains : World :=
  {| getcwd := getcwd calm;
     subprocess_run := subprocess_run calm;
     subprocess_popen := subprocess_popen calm;
     load_kube_config := None;
     read_namespaced_pod := read_namespaced_pod calm;
     list_namespaced_pod := list_namespaced_pod calm;
     watch_namespaced_pod := watch_namespaced_pod calm;
     exec_session := exec_session calm;
     exec_output := fun _ =>
       ApiOk "mv: missing destination file operand after 'data/f'" |}.

(** a word of characters that stand for themselves in the shell *)
Fixpoint all_plain (w : string) : bool :=
  match w with
  | EmptyString => true
  | String c w' => sh.plain c && all_plain w'
  end.

(** [str(Path(a) / b)] for the relative, already normal paths of the
    examples. *)
Definition example_path_div (a b : string) : string := a +++ "/" +++ b.

(** ** Readiness *)

(** [pod.status.conditions or []] *)
Definition conditions_of (pod : V1Pod) : list V1PodCondition :=
  match status_conditions (pod_status pod) with
  | Some cs => cs
  | None => []
  end.

Definition named (name : string) (pod : V1Pod) : Prop :=
  meta_name (pod_metadata pod) = name.

Definition running_phase (pod : V1Pod) : Prop :=
  status_phase (pod_status pod) = Some "Running".

(** The pod carries some condition of type Ready with status "True". *)
Definition carries_ready_true (pod : V1Pod) : Prop :=
  exists c, In c (conditions_of pod)
            /\ condition_type c = "Ready" /\ condition_status c = "True".

(** The first condition of type Ready that the pod lists has status
    "True". *)
Definition first_ready_is_true (pod : V1Pod) : Prop :=
  exists before c after,
    conditions_of pod = before ++ c :: after
    /\ (forall c', In c' before -> condition_type c' <> "Ready")
    /\ condition_type c = "Ready" /\ condition_status c = "True".

(** Some init container of the pod is reported in the running sub-state. *)
Definition init_container_running (pod : V1Pod) : Prop :=
  exists statuses s,
    status_init_container_statuses (pod_status pod) = Some statuses
    /\ In s statuses
    /\ state_running (container_state s) <> None.

Definition pod_timeout_message (name : string) : string :=
  "Timeout waiting for pod " +++ name +++ " to be ready.".

Definition init_timeout_message (pod_name namespace : string) : string :=
  "Timeout waiting for initContainer in " +++ pod_name +++ " (" +++ namespace
  +++ ") to be ready.".

(** A running pod whose Ready condition is still "False". *)
Definition unready_pod (name : string) : V1Pod :=
  {| pod_metadata := {| meta_name := name |};
     pod_status :=
       {| status_phase := Some "Running";
          status_conditions :=
            Some [ {| condition_type := "Initialized"; condition_status := "True" |};
                   {| condition_type := "Ready"; condition_status := "False" |} ];
          status_init_container_statuses := None |} |}.

(** A pod observed before its init container statuses exist. *)
Definition pending_pod (name : string) : V1Pod :=
  {| pod_metadata := {| meta_name := name |};
     pod_status :=
       {| status_phase := Some "Pending";
          status_conditions := None;
          status_init_container_statuses := None |} |}.

(** [calm], with [pods] listed in every namespace and a watch that
    delivers [events] and then runs out of time. *)
Definition cluster (pods events : list V1Pod) : World :=
  {| getcwd := getcwd calm;
     subprocess_run := subprocess_run calm;
     subprocess_popen := subprocess_popen calm;
     load_kube_config := None;
     read_namespaced_pod := read_namespaced_pod calm;
     list_namespaced_pod := fun _ => ApiOk pods;
     watch_namespaced_pod := fun _ _ =>
       {| watch_events := events; watch_failure := None |};
     exec_session := exec_session calm;
     exec_output := exec_output calm |}.

(** ** snapshot_bitcoin_datadir *)

Definition file_or_directory (x : findutils.entry) : bool :=
  match findutils.entry_type x with
  | findutils.RegularFile | findutils.Directory => true
  | _ => false
  end.

(** the disjunction [-name f0 -o -name f1 -o ...] *)
Fixpoint name_disjunction (f0 : string) (rest : list string) : findutils.expr :=
  match rest with
  | [] => findutils.EName f0
  | f1 :: rest' => findutils.EOr (findutils.EName f0) (name_disjunction f1 rest')
  end.

(** [f.strip()] is truthy *)
Definition not_blank (f : string) : bool := PyStr.truthy (PyStr.strip f).

Definition copy_command (namespace pod_name local_file_path : string) : string :=
  "kubectl cp " +++ namespace +++ "/" +++ pod_name
  +++ ":/tmp/bitcoin_data.tar.gz " +++ local_file_path.

Definition handler_message (e : string) : string := "An error occurred: " +++ e.

(** [calm], except that [find] prints nothing. *)
Definition nothing_found : World :=
  {| getcwd := getcwd calm;
     subprocess_run := subprocess_run calm;
     subprocess_popen := subprocess_popen calm;
     load_kube_config := None;
     read_namespaced_pod := read_namespaced_pod calm;
     list_namespaced_pod := list_namespaced_pod calm;
     watch_namespaced_pod := watch_namespaced_pod calm;
     exec_session := fun _ =>
       ApiOk {| polls := [Chunk "" ""]; write_stdin_error := None;
                close_error := None |};
     exec_output := exec_output calm |}.

(** the argument vectors of the exec calls of a trace, in order *)
Definition exec_commands (t : list action) : list (list string) :=
  flat_map (fun a => match a with Exec req => [command req] | _ => [] end) t.

(** the texts printed (with a newline) in a trace, in order *)
Definition printed (t : list action) : list string :=
  flat_map (fun a => match a with Print text => [text] | _ => [] end) t.

(** ** Auxiliary notions of the proofs *)

(** Which exceptions a computation can end with. *)
Definition raises_only_exceptions {A} (m : M A) : Prop :=
  forall c, result m <> Raise (SystemExit c).

(** a non-empty string that does not start with a slash *)
Definition starts_without_slash (s : string) : Prop :=
  exists c s', s = String c s' /\ c <> posixpath.sep.

(** the tokens [-name f0 -o -name f1 ...] *)
Definition name_tokens (f0 : string) (rest : list string) : list string :=
  "-name" :: f0 :: flat_map (fun f => ["-o"; "-name"; f]) rest.

(** * Further code of the repository *)

(** [try: body  finally: final]: [final] runs whatever [body] did, and an
    exception of [final] replaces the outcome of [body]. *)
Definition try_finally {A} (body : M A) (final : M unit) : M A :=
  let (t, r) := body in
  let (t', r') := final in
  (t ++ t', match r' with
            | Return _ => r
            | Raise e => Raise e
            end).

(** the commands handed to [subprocess.run], in order *)
Definition shell_commands (t : list action) : list string :=
  flat_map (fun a => match a with SubprocessRun cmd => [cmd] | _ => [] end) t.

(** ** image_build.py *)

Module image_build.
Section WithShell.

(** What [subprocess.run(command, shell=True, check=True)] does for each
    command: the command exits with a status, or the call itself fails
    with an exception that is not [CalledProcessError]. *)
Inductive shell_result :=
| Exited (status : Z)
| Failed (msg : string).

Variable shell : string -> shell_result.

(** [repr] of a [str], and [str(dockerfile_path)] and
    [str(dockerfile_path.parent)] of the packaged Dockerfile: values of the
    Python runtime, taken as parameters. *)
Variable repr : string -> string.
Variable dockerfile_path : string.
Variable dockerfile_parent : string.

Definition ARCHES : list string := ["amd64"; "arm64"; "armhf"].

Definition run_command (command : string) : M bool :=
  perform (SubprocessRun command) ;;
  match shell command with
  | Exited status => ret (status =? 0)%Z
  | Failed msg => raise (Exception msg)
  end.

Definition DQ : string := String "034"%char EmptyString.

Definition default_build_args : string :=
  DQ +++ "--disable-tests --without-gui --disable-bench --disable-fuzz-binary "
     +++ "--enable-suppress-external-warnings --disable-dependency-tracking "
     +++ DQ.

(** truthiness of an optional [str] argument *)
Definition given (s : option string) : option string :=
  match s with
  | Some v => if PyStr.truthy v then Some v else None
  | None => None
  end.

(** [x in l] on lists of [str] *)
Definition member (x : string) (l : list string) : bool :=
  existsb (String.eqb x) l.

(** [str] of a list of [str] *)
Definition str_list (l : list string) : string :=
  "[" +++ PyStr.join ", " (map repr l) +++ "]".

(** the [for arch in build_arches] loop: the first unsupported entry *)
Definition unsupported (build_arches : list string) : option string :=
  List.find (fun arch => negb (member arch ARCHES)) build_arches.

Definition builder_name : string := "bitcoind-builder".
Definition create_builder_cmd : string :=
  "docker buildx create --name " +++ builder_name +++ " --use".
Definition use_builder_cmd : string :=
  "docker buildx use --builder " +++ builder_name.
Definition cleanup_builder_cmd : string :=
  "docker buildx rm " +++ builder_name.

Definition build_arches_of (arches : option string) : list string :=
  match given arches with
  | None => ["amd64"]
  | Some a => PyStr.split a ","
  end.

Definition tag_args_of (tags : string) : string :=
  let tag_list := PyStr.split tags "," in
  PyStr.join " " (map (fun tag => "--tag " +++ PyStr.strip tag) tag_list).

Definition platforms_of (build_arches : list string) : string :=
  PyStr.join "," (map (fun arch => "linux/" +++ arch) build_arches).

Definition build_command_of (repo commit_sha build_args tag_args platforms action : string)
  : string :=
  "docker buildx build"
  +++ " --platform " +++ platforms
  +++ " --build-arg REPO=" +++ repo
  +++ " --build-arg COMMIT_SHA=" +++ commit_sha
  +++ " --build-arg BUILD_ARGS=" +++ build_args
  +++ " " +++ tag_args
  +++ " --file " +++ dockerfile_path
  +++ " " +++ dockerfile_parent
  +++ " --" +++ action.

Definition build_image (repo commit_sha docker_registry tags : string)
    (build_args arches : option string) (action : string) : M bool :=
  let build_args :=
    match given build_args with
    | None => default_build_args
    | Some b => DQ +++ b +++ DQ
    end in
  let build_arches := build_arches_of arches in
  match unsupported build_arches with
  | Some arch =>
      print ("Error: " +++ arch +++ " is not a supported architecture") ;;
      ret false
  | None =>
      print ("repo=" +++ repo) ;;
      print ("commit_sha=" +++ commit_sha) ;;
      print ("docker_registry=" +++ docker_registry) ;;
      print ("tags=" +++ tags) ;;
      print ("build_args=" +++ build_args) ;;
      print ("build_arches=" +++ str_list build_arches) ;;
      created <- run_command create_builder_cmd ;;
      usable <- (if created then ret true else run_command use_builder_cmd) ;;
      if negb usable then
        print ("Could not create or use builder " +++ builder_name
               +++ " and create new builder") ;;
        ret false
      else
        let tag_args := tag_args_of tags in
        print ("tag_args=" +++ repr tag_args) ;;
        let platforms := platforms_of build_arches in
        let build_command :=
          build_command_of repo commit_sha build_args tag_args platforms action in
        print ("Using build_command=" +++ repr build_command) ;;
        res <- try_finally
                 (try_except (run_command build_command)
                    (fun e => print ("Error:" +++ String "010"%char e) ;; ret false))
                 (removed <- run_command cleanup_builder_cmd ;;
                  if negb removed
                  then print "Warning: Failed to remove the buildx builder."
                  else print "Buildx builder removed successfully.") ;;
        ret res
  end.

End WithShell.
End image_build.

(** the command line of the build, as [build_image] composes it from its
    arguments *)
Definition build_command_for (dockerfile_path dockerfile_parent : string)
    (repo commit_sha tags : string)
    (build_args arches : option string) (action : string) : string :=
  image_build.build_command_of dockerfile_path dockerfile_parent
    repo commit_sha
    match image_build.given build_args with
    | None => image_build.default_build_args
    | Some b => image_build.DQ +++ b +++ image_build.DQ
    end
    (image_build.tag_args_of tags)
    (image_build.platforms_of (image_build.build_arches_of arches))
    action.

(** ** k8s.py: the thin wrappers around [kubectl] *)

Module kubectl.
Section WithWorld.
Variable W : World.
Variable DEFAULT_NAMESPACE : string.

Definition set_kubectl_context (namespace : string) : M bool :=
  let command := "kubectl config set-context --current --namespace=" +++ namespace in
  result <- process.stream_command W command ;;
  (if result
   then print ("Kubectl context set to namespace: " +++ namespace)
   else print ("Failed to set kubectl context to namespace: " +++ namespace)) ;;
  ret result.

Definition apply_kubernetes_yaml (yaml_file : string) : M bool :=
  let command := "kubectl apply -f " +++ yaml_file in
  result <- process.stream_command W command ;;
  (if result
   then print ("Kubernetes object applied successfully from " +++ yaml_file)
   else print ("Failed to apply Kubernetes object from " +++ yaml_file)) ;;
  ret result.

Definition delete_namespace (namespace : string) : M bool :=
  let command := "kubectl delete namespace " +++ namespace +++ " --ignore-not-found" in
  result <- process.stream_command W command ;;
  (if result
   then print ("Kubernetes namespace " +++ namespace +++ " deleted successfully")
   else print ("Failed to delete Kubernetes namespace " +++ namespace)) ;;
  ret result.

Definition delete_pod (pod_name : string) (namespace : option string) : M bool :=
  namespace <- k8s.get_default_namespace_or W DEFAULT_NAMESPACE namespace ;;
  let command := "kubectl -n " +++ namespace +++ " delete pod " +++ pod_name in
  process.stream_command W command.

End WithWorld.
End kubectl.

(** ** k8s.py: get_cluster_of_current_context

    [kubeconfig_data] is the dictionary that [yaml.safe_load] makes of a
    kubeconfig file.  The records below hold the keys the function reads.
    A key read with a subscript or with [.get(key, default)] is absent,
    holds [null], or holds a value of the type a kubeconfig has there (a
    list of entries, a mapping, a string): the three behave differently.
    For [current-context] and [cluster], read with [.get(key)] and only
    tested for truth, [None] stands for an absent key and for [null]
    alike. *)

Module kubeconfig.

Inductive field (A : Type) :=
| Absent
| Null
| Value (a : A).
Arguments Absent {A}.
Arguments Null {A}.
Arguments Value {A} a.

(** [d.get(key, default)]: the default stands in for an absent key only;
    [None] is Python's [None], found at a key that holds [null] *)
Definition get_or {A : Type} (default : A) (f : field A) : option A :=
  match f with
  | Absent => Some default
  | Null => None
  | Value a => Some a
  end.

Inductive raised :=
| K8sError (msg : string)
| KeyError (key : string)
| TypeError (msg : string)
| AttributeError (msg : string).

(** [next((e for e in entries if e["name"] == wanted), None)]: the
    subscript raises [KeyError] on an entry without the key; a name that
    is [null] equals no string. *)
Fixpoint first_named {E : Type} (name_of : E -> field string)
    (entries : list E) (wanted : string) : raised + option E :=
  match entries with
  | [] => inr None
  | e :: rest =>
      match name_of e with
      | Absent => inl (KeyError "name")
      | Null => first_named name_of rest wanted
      | Value n => if n =? wanted then inr (Some e)
                   else first_named name_of rest wanted
      end
  end.

(** a value that is present and truthy *)
Definition truthy_str (s : option string) : option string :=
  match s with
  | Some v => if PyStr.truthy v then Some v else None
  | None => None
  end.

Section WithPayload.

(** what a cluster entry holds besides its name *)
Variable Payload : Type.

(** the mapping at [entry["context"]] *)
Record Context := { context_cluster : option string }.

Record ContextEntry := {
  entry_name : field string;
  entry_context : field Context
}.

Record ClusterEntry := {
  cluster_entry_name : field string;
  cluster_data : Payload
}.

Record Kubeconfig := {
  current_context : option string;
  contexts : field (list ContextEntry);
  clusters : field (list ClusterEntry)
}.

Definition not_iterable : raised :=
  TypeError "'NoneType' object is not iterable".

Definition get_cluster_of_current_context (kubeconfig_data : Kubeconfig)
  : raised + ClusterEntry :=
  match truthy_str (current_context kubeconfig_data) with
  | None => inl (K8sError "No current context found in kubeconfig.")
  | Some current_context_name =>
      match get_or [] (contexts kubeconfig_data) with
      | None => inl not_iterable
      | Some context_entries =>
          match first_named entry_name context_entries current_context_name with
          | inl e => inl e
          | inr None =>
              inl (K8sError ("Context '" +++ current_context_name
                             +++ "' not found in kubeconfig."))
          | inr (Some context_entry) =>
              match get_or {| context_cluster := None |}
                           (entry_context context_entry) with
              | None =>
                  inl (AttributeError "'NoneType' object has no attribute 'get'")
              | Some context =>
                  match truthy_str (context_cluster context) with
                  | None =>
                      inl (K8sError ("Cluster not specified in context '"
                                     +++ current_context_name +++ "'."))
                  | Some cluster_name =>
                      match get_or [] (clusters kubeconfig_data) with
                      | None => inl not_iterable
                      | Some cluster_entries =>
                          match first_named cluster_entry_name cluster_entries
                                            cluster_name with
                          | inl e => inl e
                          | inr None =>
                              inl (K8sError ("Cluster '" +++ cluster_name
                                             +++ "' not found in kubeconfig."))
                          | inr (Some cluster_entry) => inr cluster_entry
                          end
                      end
                  end
              end
          end
      end
  end.

End WithPayload.
End kubeconfig.

(** [e] is the first entry of [entries] with the name [wanted], and every
    entry before it has the key [name], with another name or [null]. *)
Definition first_with_name {E : Type} (name_of : E -> kubeconfig.field string)
    (entries : list E) (wanted : string) (e : E) : Prop :=
  exists before after,
    entries = before ++ e :: after
    /\ name_of e = kubeconfig.Value wanted
    /\ forall x, In x before ->
                 name_of x = kubeconfig.Null
                 \/ exists n, name_of x = kubeconfig.Value n /\ n <> wanted.

(** ** network.py: the values of [json.loads] and is_connection_manual *)

Module network.

(** What [json.loads] returns.  A number is kept by its integer value (a
    fraction is not modelled); an object is kept as the list of its
    members, each key once. *)
#[warnings="-register-all"] Inductive json :=
| JNull
| JBool (b : bool)
| JNumber (z : Z)
| JString (s : string)
| JArray (items : list json)
| JObject (members : list (string * json)).

(** [d.get(key)] on a dictionary kept as a list of items *)
Fixpoint dict_get {V : Type} (d : list (string * V)) (key : string) : option V :=
  match d with
  | [] => None
  | (k, v) :: rest => if k =? key then Some v else dict_get rest key
  end.

(** [type(v).__name__], as exception texts spell it *)
Definition type_name (v : json) : string :=
  match v with
  | JNull => "NoneType"
  | JBool _ => "bool"
  | JNumber _ => "int"
  | JString _ => "str"
  | JArray _ => "list"
  | JObject _ => "dict"
  end.

(** [bool(v)] *)
Definition truthy (v : json) : bool :=
  match v with
  | JNull => false
  | JBool b => b
  | JNumber z => negb (z =? 0)%Z
  | JString s => PyStr.truthy s
  | JArray items => match items with [] => false | _ => true end
  | JObject members => match members with [] => false | _ => true end
  end.

Fixpoint characters (s : string) : list string :=
  match s with
  | EmptyString => []
  | String c s' => String c EmptyString :: characters s'
  end.

(** what [for x in v] runs over; [None]: [v] is not iterable *)
Definition elements (v : json) : option (list json) :=
  match v with
  | JArray items => Some items
  | JObject members => Some (map (fun m => JString (fst m)) members)
  | JString s => Some (map JString (characters s))
  | _ => None
  end.

(** [v == "manual"] *)
Definition equals_manual (v : option json) : bool :=
  match v with
  | Some (JString s) => s =? "manual"
  | _ => false
  end.

(** [v is True] *)
Definition is_True (v : option json) : bool :=
  match v with
  | Some (JBool b) => b
  | _ => false
  end.

Definition is_connection_manual (peer : list (string * json)) : bool :=
  equals_manual (dict_get peer "connection_type")
  || is_True (dict_get peer "addnode").

End network.

(** ** warnet.py: Warnet.tanks_from_graph *)

Module warnet.
Section WithTank.

(** [Tank] and [Tank.from_graph_node] are code of [tank.py], not among the
    sources; [str_of_int] is Python's [str] on integers. *)
Variable Tank : Type.
Variable from_graph_node : Z -> Tank.
Variable str_of_int : Z -> string.



End WithTank.
End warnet.

(** ** Vocabulary for these functions *)

(** [c] does not occur in [s] *)
Fixpoint without_char (c : ascii) (s : string) : Prop :=
  match s with
  | EmptyString => True
  | String c' s' => c' <> c /\ without_char c s'
  end.

(** ** k8s.py: the remaining calls to the cluster

    These functions distinguish classes of exceptions and make calls the
    first part has no action for, so they get a trace and an outcome of
    their own; what the first part models is embedded with [lift]. *)

Module api.

Inductive error :=
| Error (msg : string)
| ApiError (status : Z) (msg : string)
| K8sError (msg : string)
| TypeError (msg : string)
| KeyError (key : string)
| IndexError (msg : string)
| UnboundLocalError (name : string)
| Exit (code : Z).

(** [Error] is an exception of a class the code names nowhere ([Exception]
    itself, a [ConfigException], an [OSError]); [ApiError] is the
    client's [ApiException] with its HTTP status; [Exit] is [SystemExit]. *)
Definition is_exception (e : error) : bool :=
  match e with
  | Exit _ => false
  | _ => true
  end.

Inductive event :=
| Did (a : action)
| ReadNamespacedPodStatus (name namespace : string)
| Sleep (seconds : Z)
| ListNamespace
| ReadNamespace (name : string)
| CreateSelfSubjectAccessReview (namespace verb resource : string)
| LoadDefaultKubeConfig
| ReadNamespacedIngress (name namespace : string)
| NamedTemporaryFile (dir : option string)
| WriteFile (path content : string)
| Replace (src dst : string)
| Remove (path : string)
| BitcoinRpc (pod method params : string) (namespace : option string).

Inductive outcome (A : Type) :=
| Returned (a : A)
| Raised (e : error).
Arguments Returned {A} a.
Arguments Raised {A} e.

Definition Run (A : Type) : Type := (list event * outcome A)%type.

Definition ret {A} (a : A) : Run A := ([], Returned a).
Definition raise {A} (e : error) : Run A := ([], Raised e).
Definition perform (ev : event) : Run unit := ([ev], Returned tt).
Definition print (text : string) : Run unit := perform (Did (Print text)).

Definition bind {A B} (m : Run A) (k : A -> Run B) : Run B :=
  match m with
  | (t, Returned a) => let (t', r) := k a in (t ++ t', r)
  | (t, Raised e) => (t, Raised e)
  end.

(** a computation of the first part: its actions, and its exception as one
    of no named class *)
Definition lift {A} (m : M A) : Run A :=
  (map Did (trace m),
   match result m with
   | Return a => Returned a
   | Raise (Exception msg) => Raised (Error msg)
   | Raise (SystemExit code) => Raised (Exit code)
   end).

(** [try: body  except <class> as e: handler(e)], the class given by
    [catches] *)
Definition try_except {A} (catches : error -> bool)
    (body : Run A) (handler : error -> Run A) : Run A :=
  match body with
  | (t, Raised e) =>
      if catches e then let (t', r) := handler e in (t ++ t', r)
      else body
  | _ => body
  end.

(** [try: body  finally: final] *)
Definition try_finally {A} (body : Run A) (final : Run unit) : Run A :=
  let (t, r) := body in
  let (t', r') := final in
  (t ++ t', match r' with
            | Returned _ => r
            | Raised e => Raised e
            end).

Definition is_api_exception (e : error) : bool :=
  match e with
  | ApiError _ _ => true
  | _ => false
  end.

(** [str(e)] *)
Definition str_of_error (e : error) : string :=
  match e with
  | Error msg | ApiError _ msg | K8sError msg | TypeError msg
  | IndexError msg => msg
  | KeyError key => "'" +++ key +++ "'"
  | UnboundLocalError name =>
      "cannot access local variable '" +++ name
      +++ "' where it is not associated with a value"
  | Exit _ => ""
  end.

Definition events {A} (m : Run A) : list event := fst m.
Definition outcome_of {A} (m : Run A) : outcome A := snd m.

(** an answer of the API server: a value, or an [ApiException] *)
Inductive answer (A : Type) :=
| Answer (a : A)
| Refused (status : Z) (msg : string).
Arguments Answer {A} a.
Arguments Refused {A} status msg.

Definition of_answer {A} (r : answer A) : Run A :=
  match r with
  | Answer a => ret a
  | Refused status msg => raise (ApiError status msg)
  end.

End api.

Notation "x <~ m ;; k" := (api.bind m (fun x => k))
  (at level 61, m at next level, right associativity).
Notation "m ;;; k" := (api.bind m (fun _ => k))
  (at level 61, right associativity).

(** ** Objects and answers read by these functions *)

Record V1Namespace := { namespace_name : string }.

Record V1ContainerStateTerminated := { exit_code : Z }.

(** [container_status.state.terminated] *)
Record ContainerStatus := {
  state_terminated : option V1ContainerStateTerminated
}.

(** a pod with [pod.metadata.labels], [pod.metadata.namespace] and
    [pod.metadata.annotations] *)
Record LabelledPod := {
  labelled_pod : V1Pod;
  labels : option (list (string * string));
  pod_namespace : string;
  annotations : option (list (string * string))
}.

(** an entry of [ingress.status.load_balancer.ingress] *)
Record IngressPoint := {
  hostname : option string;
  ip : option string
}.

(** The answers of the cluster and of the local file system to the calls of
    this part.  [pod_phase_at n] is the phase in the pod status returned by
    the [n]-th read of a polling loop (counted from 0).
    [named_temporary_file dir] is the path of the file that
    [tempfile.NamedTemporaryFile(dir=dir, delete=False)] creates, or the
    text of the exception it raises; the three [_fails] fields give, for a
    write, an [os.replace] and a removal, the text of the exception if
    there is one.  [bitcoin_rpc pod method params namespace] is what the
    call [_rpc(pod, method, params, namespace=namespace)] of [bitcoin.py]
    returns or raises; that file is not among the sources. *)
Record Cluster := {
  base : World;
  list_namespace : api.answer (list V1Namespace);
  read_namespace : string -> api.answer V1Namespace;
  pods_of_namespace : string -> api.answer (list LabelledPod);
  read_labelled_pod : string -> string -> api.answer LabelledPod;
  pod_phase_at : nat -> string -> string -> api.answer (option string);
  pod_container_statuses :
    string -> string -> api.answer (option (list ContainerStatus));
  access_review : string -> string -> string -> api.answer bool;
  load_default_kube_config : option string;
  read_namespaced_ingress :
    string -> string -> api.answer (option (list IngressPoint));
  named_temporary_file : option string -> string + string;
  write_fails : string -> option string;
  replace_fails : string -> string -> option string;
  remove_fails : string -> option string;
  bitcoin_rpc : string -> string -> string -> option string -> api.outcome string
}.

Module k8s_calls.
Section WithCluster.
Variable C : Cluster.

(** constants of [constants.py], not among the sources *)
Variable DEFAULT_NAMESPACE : string.
Variable KUBE_INTERNAL_NAMESPACES : list string.
Variable CADDY_INGRESS_NAME : string.
Variable LOGGING_NAMESPACE : string.

Definition get_static_client : api.Run unit :=
  api.lift (k8s.get_static_client (base C)).

Definition get_default_namespace : api.Run string :=
  api.lift (k8s.get_default_namespace (base C) DEFAULT_NAMESPACE).

Definition get_default_namespace_or (namespace : option string)
  : api.Run string :=
  api.lift (k8s.get_default_namespace_or (base C) DEFAULT_NAMESPACE namespace).

Definition member (x : string) (l : list string) : bool :=
  existsb (String.eqb x) l.

Definition get_namespaces : api.Run (list V1Namespace) :=
  get_static_client ;;;
  api.try_except api.is_api_exception
    (api.perform api.ListNamespace ;;;
     items <~ api.of_answer (list_namespace C) ;;
     api.ret (filter (fun ns => negb (member (namespace_name ns)
                                             KUBE_INTERNAL_NAMESPACES))
                     items))
    (fun e =>
       match e with
       | api.ApiError status _ =>
           if (status =? 403)%Z then
             name <~ get_default_namespace ;;
             api.perform (api.ReadNamespace name) ;;;
             ns <~ api.of_answer (read_namespace C name) ;;
             api.ret [ns]
           else api.ret []
       | _ => api.ret []
       end).

Definition get_namespaces_by_type (namespace_type : string)
  : api.Run (list V1Namespace) :=
  namespaces <~ get_namespaces ;;
  api.ret (filter (fun ns => PyStr.startswith (namespace_name ns) namespace_type)
                  namespaces).

(** the [for ns in namespaces] loop of [get_pods] *)
Fixpoint get_pods_loop (namespaces : list V1Namespace) (pods : list LabelledPod)
  : api.Run (list LabelledPod) :=
  match namespaces with
  | [] => api.ret pods
  | ns :: rest =>
      let namespace := namespace_name ns in
      pods <~ api.try_except api.is_exception
                (api.perform (api.Did (ListNamespacedPod namespace)) ;;;
                 pod_list <~ api.of_answer (pods_of_namespace C namespace) ;;
                 api.ret (pods ++ pod_list))
                (fun e => api.raise e) ;;
      get_pods_loop rest pods
  end.

Definition get_pods : api.Run (list LabelledPod) :=
  get_static_client ;;;
  namespaces <~ get_namespaces ;;
  get_pods_loop namespaces [].

(** [for pod in pods] of [get_mission]; [k in d] on [None] is a
    [TypeError] *)
Fixpoint get_mission_loop (mission : string) (pods crew : list LabelledPod)
  : api.Run (list LabelledPod) :=
  match pods with
  | [] => api.ret crew
  | pod :: rest =>
      match labels pod with
      | None =>
          api.raise (api.TypeError "argument of type 'NoneType' is not iterable")
      | Some d =>
          match network.dict_get d "mission" with
          | Some v =>
              if v =? mission
              then get_mission_loop mission rest (crew ++ [pod])
              else get_mission_loop mission rest crew
          | None => get_mission_loop mission rest crew
          end
      end
  end.

Definition get_mission (mission : string) : api.Run (list LabelledPod) :=
  pods <~ get_pods ;;
  get_mission_loop mission pods [].

(** [for container_status in pod.status.container_statuses] *)
Fixpoint first_terminated (statuses : list ContainerStatus) : option Z :=
  match statuses with
  | [] => None
  | s :: rest =>
      match state_terminated s with
      | Some t => Some (exit_code t)
      | None => first_terminated rest
      end
  end.

Definition get_pod_exit_status (pod_name : string) (namespace : option string)
  : api.Run (option Z) :=
  namespace <~ get_default_namespace_or namespace ;;
  api.try_except api.is_api_exception
    (get_static_client ;;;
     api.perform (api.Did (ReadNamespacedPod pod_name namespace)) ;;;
     statuses <~ api.of_answer (pod_container_statuses C pod_name namespace) ;;
     match statuses with
     | None => api.raise (api.TypeError "'NoneType' object is not iterable")
     | Some l => api.ret (first_terminated l)
     end)
    (fun e =>
       api.print ("Exception when calling CoreV1Api->read_namespaced_pod: "
                  +++ api.str_of_error e) ;;;
       api.ret None).

(** the [while timeout_seconds > 0] loop of [wait_for_pod]: [remaining]
    counts the iterations left, [poll] the reads made *)
Fixpoint wait_for_pod_loop (remaining poll : nat) (pod_name namespace : string)
  : api.Run unit :=
  match remaining with
  | O => api.ret tt
  | S remaining' =>
      api.perform (api.ReadNamespacedPodStatus pod_name namespace) ;;;
      phase <~ api.of_answer (pod_phase_at C poll pod_name namespace) ;;
      if negb match phase with
              | Some p => p =? "Pending"
              | None => false
              end
      then api.ret tt
      else
        api.perform (api.Sleep 1) ;;;
        wait_for_pod_loop remaining' (S poll) pod_name namespace
  end.

Definition wait_for_pod (pod_name : string) (timeout_seconds : Z)
    (namespace : option string) : api.Run unit :=
  namespace <~ get_default_namespace_or namespace ;;
  get_static_client ;;;
  wait_for_pod_loop (Z.to_nat timeout_seconds) 0 pod_name namespace.

Definition can_delete_pods (namespace : option string) : api.Run bool :=
  namespace <~ get_default_namespace_or namespace ;;
  get_static_client ;;;
  api.try_except api.is_api_exception
    (api.perform (api.CreateSelfSubjectAccessReview namespace "delete" "pods") ;;;
     allowed <~ api.of_answer (access_review C namespace "delete" "pods") ;;
     if allowed then
       api.print ("Service account can delete pods in namespace '"
                  +++ namespace +++ "'.") ;;;
       api.ret true
     else
       api.print ("Service account CANNOT delete pods in namespace '"
                  +++ namespace +++ "'.") ;;;
       api.ret false)
    (fun e =>
       api.print ("An error occurred: " +++ api.str_of_error e) ;;;
       api.ret false).

(** truthiness of an optional [str] *)
Definition nonempty (s : option string) : bool :=
  match s with
  | Some v => PyStr.truthy v
  | None => false
  end.

Definition get_ingress_ip_or_host : api.Run (option string) :=
  api.perform api.LoadDefaultKubeConfig ;;;
  match load_default_kube_config C with
  | Some msg => api.raise (api.Error msg)
  | None => api.ret tt
  end ;;;
  api.try_except api.is_exception
    (api.perform (api.ReadNamespacedIngress CADDY_INGRESS_NAME LOGGING_NAMESPACE) ;;;
     points <~ api.of_answer
                 (read_namespaced_ingress C CADDY_INGRESS_NAME LOGGING_NAMESPACE) ;;
     match points with
     | None => api.raise (api.TypeError "'NoneType' object is not subscriptable")
     | Some [] => api.raise (api.IndexError "list index out of range")
     | Some (first :: _) =>
         if nonempty (hostname first) then api.ret (hostname first)
         else api.ret (ip first)
     end)
    (fun e =>
       api.print ("Error getting ingress IP: " +++ api.str_of_error e) ;;;
       api.ret None).

(** [get_pod(name, namespace)] *)
Definition get_pod (name : string) (namespace : option string)
  : api.Run LabelledPod :=
  namespace <~ get_default_namespace_or namespace ;;
  get_static_client ;;;
  api.perform (api.Did (ReadNamespacedPod name namespace)) ;;;
  api.of_answer (read_labelled_pod C name namespace).

(** ln.py: [_rpc]; [params] is the tuple of the remaining arguments *)
Definition _rpc (pod_name method : string) (params : list string)
    (namespace : option string) : api.Run string :=
  pod <~ get_pod pod_name None ;;
  namespace <~ get_default_namespace_or namespace ;;
  chain <~ match labels pod with
           | None =>
               api.raise (api.TypeError "'NoneType' object is not subscriptable")
           | Some d =>
               match network.dict_get d "chain" with
               | Some v => api.ret v
               | None => api.raise (api.KeyError "chain")
               end
           end ;;
  let cmd := "kubectl -n " +++ namespace +++ " exec " +++ pod_name
             +++ " -- lncli --network " +++ chain +++ " " +++ method +++ " "
             +++ PyStr.join " " params in
  api.lift (process.run_command (base C) cmd).

(** file operations *)
Definition create_temp (dir : option string) : api.Run string :=
  api.perform (api.NamedTemporaryFile dir) ;;;
  match named_temporary_file C dir with
  | inr path => api.ret path
  | inl msg => api.raise (api.Error msg)
  end.

Definition write_file (path content : string) : api.Run unit :=
  api.perform (api.WriteFile path content) ;;;
  match write_fails C path with
  | Some msg => api.raise (api.Error msg)
  | None => api.ret tt
  end.

Definition os_replace (src dst : string) : api.Run unit :=
  api.perform (api.Replace src dst) ;;;
  match replace_fails C src dst with
  | Some msg => api.raise (api.Error msg)
  | None => api.ret tt
  end.

Definition os_remove (path : string) : api.Run unit :=
  api.perform (api.Remove path) ;;;
  match remove_fails C path with
  | Some msg => api.raise (api.Error msg)
  | None => api.ret tt
  end.

Section WithYaml.

(** the object handed to [yaml.dump] / [yaml.safe_dump] and the text they
    produce; [os.path.dirname] *)
Variable Obj : Type.
Variable yaml_dump : Obj -> string.
Variable dirname : string -> string.

Definition apply_kubernetes_yaml_obj (yaml_obj : Obj) : api.Run unit :=
  temp_file_path <~ create_temp None ;;
  write_file temp_file_path (yaml_dump yaml_obj) ;;;
  api.try_finally
    (api.lift (kubectl.apply_kubernetes_yaml (base C) temp_file_path) ;;;
     api.ret tt)
    (os_remove temp_file_path).

(** The whole body is one [try] with the handler [os.remove(temp_file.name);
    raise K8sError(...)].  [temp_file] is bound only once
    [NamedTemporaryFile] has returned: when that call raises, the handler
    fails on the name it reads, with [UnboundLocalError]. *)
Definition write_kubeconfig (kube_config : Obj) (kubeconfig_path : string)
  : api.Run unit :=
  let dir_name := dirname kubeconfig_path in
  api.perform (api.NamedTemporaryFile (Some dir_name)) ;;;
  match named_temporary_file C (Some dir_name) with
  | inl _ => api.raise (api.UnboundLocalError "temp_file")
  | inr temp_file_name =>
      api.try_except api.is_exception
        (write_file temp_file_name (yaml_dump kube_config) ;;;
         os_replace temp_file_name kubeconfig_path)
        (fun e =>
           os_remove temp_file_name ;;;
           api.raise (api.K8sError ("Error writing kubeconfig: "
                                    +++ kubeconfig_path)))
  end.

End WithYaml.

End WithCluster.
End k8s_calls.

(** ** Vocabulary for these functions *)

(** the pod carries the label [mission] with the value [mission] *)
Definition on_mission (mission : string) (pod : LabelledPod) : bool :=
  match labels pod with
  | Some d =>
      match network.dict_get d "mission" with
      | Some v => v =? mission
      | None => false
      end
  | None => false
  end.

Definition not_terminated (s : ContainerStatus) : Prop :=
  state_terminated s = None.

(** how many times a trace reads the pod status, and how long it sleeps *)
Definition status_reads (t : list api.event) : nat :=
  length (filter (fun ev => match ev with
                            | api.ReadNamespacedPodStatus _ _ => true
                            | _ => false
                            end) t).

Definition seconds_slept (t : list api.event) : Z :=
  fold_right (fun ev total => match ev with
                              | api.Sleep seconds => (seconds + total)%Z
                              | _ => total
                              end) 0%Z t.

Definition pending (phase : option string) : Prop := phase = Some "Pending".

(** ** network.py: _connected *)

Module network_calls.
Section WithCluster.
Import network.
Variable C : Cluster.
Variable DEFAULT_NAMESPACE : string.
Variable KUBE_INTERNAL_NAMESPACES : list string.

(** [json.loads]: the value, or the text of the [JSONDecodeError];
    [int(s)] ([None]: [ValueError]) and [str(n)] *)
Variable json_loads : string -> string + json.
Variable int_of_str : string -> option Z.
Variable str_of_int : Z -> string.

Definition bitcoin_rpc_call (pod method params : string)
    (namespace : option string) : api.Run string :=
  api.perform (api.BitcoinRpc pod method params namespace) ;;;
  ([], bitcoin_rpc C pod method params namespace).

Definition loads (text : string) : api.Run json :=
  match json_loads text with
  | inr v => api.ret v
  | inl msg => api.raise (api.Error msg)
  end.

(** [for x in v] *)
Definition iterate (v : json) : api.Run (list json) :=
  match elements v with
  | Some items => api.ret items
  | None =>
      api.raise (api.TypeError ("'" +++ type_name v +++ "' object is not iterable"))
  end.

(** [for peer in peerinfo: if is_connection_manual(peer): actual += 1];
    [peer.get] exists on a dictionary only *)
Fixpoint count_manual (peers : list json) (actual : Z) : api.Run Z :=
  match peers with
  | [] => api.ret actual
  | JObject peer :: rest =>
      count_manual rest (if is_connection_manual peer then actual + 1 else actual)%Z
  | other :: _ =>
      api.raise (api.Error ("'" +++ type_name other
                            +++ "' object has no attribute 'get'"))
  end.

Definition tank_name (tank : LabelledPod) : string :=
  meta_name (pod_metadata (labelled_pod tank)).

(** [int(tank.metadata.annotations["init_peers"])] *)
Definition init_peers (tank : LabelledPod) : api.Run Z :=
  match annotations tank with
  | None => api.raise (api.TypeError "'NoneType' object is not subscriptable")
  | Some notes =>
      match dict_get notes "init_peers" with
      | None => api.raise (api.KeyError "init_peers")
      | Some text =>
          match int_of_str text with
          | None =>
              api.raise (api.Error ("invalid literal for int() with base 10: '"
                                    +++ text +++ "'"))
          | Some expected => api.ret expected
          end
      end
  end.

Definition connected_banner : string :=
  "Network connected" +++ PyStr.repeat " " 59.

(** The body of the loop for one tank: [Some b] when it ends the function
    with [return b], [None] when the loop goes on. *)
Definition check_tank (tank : LabelledPod) (end_ : string)
  : api.Run (option bool) :=
  api.try_except api.is_exception
    (text <~ bitcoin_rpc_call (tank_name tank) "getpeerinfo" ""
               (Some (pod_namespace tank)) ;;
     peerinfo <~ loads text ;;
     peers <~ iterate peerinfo ;;
     actual <~ count_manual peers 0 ;;
     expected <~ init_peers tank ;;
     api.perform (api.Did (PrintNoNewline
                             ("Tank " +++ tank_name tank +++ " peers expected: "
                              +++ str_of_int expected +++ ", actual: "
                              +++ str_of_int actual +++ end_))) ;;;
     if (Z.min 8 expected >? actual)%Z then
       api.print (String "010"%char "Network not connected") ;;;
       api.ret (Some false)
     else api.ret None)
    (fun _ => api.ret (Some false)).

Fixpoint connected_loop (tanks : list LabelledPod) (end_ : string)
  : api.Run bool :=
  match tanks with
  | [] => api.print connected_banner ;;; api.ret true
  | tank :: rest =>
      returned <~ check_tank tank end_ ;;
      match returned with
      | Some b => api.ret b
      | None => connected_loop rest end_
      end
  end.

Definition _connected (end_ : string) : api.Run bool :=
  tanks <~ k8s_calls.get_mission C DEFAULT_NAMESPACE KUBE_INTERNAL_NAMESPACES
             "tank" ;;
  connected_loop tanks end_.

End WithCluster.
End network_calls.

(** ** ln.py: _host *)

Module ln_calls.
Section WithCluster.
Import network.
Variable C : Cluster.
Variable DEFAULT_NAMESPACE : string.
Variable json_loads : string -> string + json.

(** [v[key]] for a string [key] *)
Definition subscript (v : json) (key : string) : api.Run json :=
  match v with
  | JObject members =>
      match dict_get members key with
      | Some x => api.ret x
      | None => api.raise (api.KeyError key)
      end
  | JArray _ =>
      api.raise (api.TypeError "list indices must be integers or slices, not str")
  | JString _ =>
      api.raise (api.TypeError "string indices must be integers, not 'str'")
  | _ =>
      api.raise (api.TypeError ("'" +++ type_name v
                                +++ "' object is not subscriptable"))
  end.

(** [len(v) >= 0]: true wherever [len] is defined *)
Definition has_len (v : json) : api.Run bool :=
  match v with
  | JString _ | JArray _ | JObject _ => api.ret true
  | _ =>
      api.raise (api.TypeError ("object of type '" +++ type_name v
                                +++ "' has no len()"))
  end.

(** [v[0]] *)
Definition first_item (v : json) : api.Run json :=
  match v with
  | JArray (x :: _) => api.ret x
  | JArray [] => api.raise (api.IndexError "list index out of range")
  | JString (String c _) => api.ret (JString (String c EmptyString))
  | JString EmptyString => api.raise (api.IndexError "string index out of range")
  | JObject _ => api.raise (api.KeyError "0")
  | _ =>
      api.raise (api.TypeError ("'" +++ type_name v
                                +++ "' object is not subscriptable"))
  end.

(** [x.split("@")[1]] *)
Definition second_field (x : json) : api.Run string :=
  match x with
  | JString s =>
      match PyStr.split s "@" with
      | _ :: address :: _ => api.ret address
      | _ => api.raise (api.IndexError "list index out of range")
      end
  | _ =>
      api.raise (api.Error ("'" +++ type_name x
                            +++ "' object has no attribute 'split'"))
  end.

Definition _host (pod : string) : api.Run string :=
  info <~ k8s_calls._rpc C DEFAULT_NAMESPACE pod "getinfo" [] None ;;
  v <~ match json_loads info with
       | inr v => api.ret v
       | inl msg => api.raise (api.Error msg)
       end ;;
  uris <~ subscript v "uris" ;;
  test <~ (if truthy uris then has_len uris else api.ret false) ;;
  if test then
    first <~ first_item uris ;;
    second_field first
  else api.ret "".

End WithCluster.
End ln_calls.

(** ** Vocabulary for these two functions *)

(** the [getpeerinfo] calls of a trace, in order: pod and namespace *)
Definition rpc_calls (t : list api.event) : list (string * option string) :=
  flat_map (fun ev => match ev with
                      | api.BitcoinRpc pod _ _ namespace => [(pod, namespace)]
                      | _ => []
                      end) t.

Definition rpc_call_of (tank : LabelledPod) : string * option string :=
  (network_calls.tank_name tank, Some (pod_namespace tank)).

(** the number of peers of a list that [is_connection_manual] accepts *)
Definition manual_peers (peers : list (list (string * network.json))) : Z :=
  Z.of_nat (length (filter network.is_connection_manual peers)).

(** A tank passes the check of [_connected]: the call returned a text that
    parses to a list of peer objects (or to something iterated the same
    way), its [init_peers] annotation is an integer, and the number of its
    manual connections reaches that integer or reaches 8. *)
Definition tank_passes (C : Cluster)
    (json_loads : string -> string + network.json)
    (int_of_str : string -> option Z) (tank : LabelledPod) : Prop :=
  exists text v peers notes note expected,
    bitcoin_rpc C (network_calls.tank_name tank) "getpeerinfo" ""
      (Some (pod_namespace tank)) = api.Returned text
    /\ json_loads text = inr v
    /\ network.elements v = Some (map network.JObject peers)
    /\ annotations tank = Some notes
    /\ network.dict_get notes "init_peers" = Some note
    /\ int_of_str note = Some expected
    /\ (expected <= manual_peers peers \/ 8 <= manual_peers peers)%Z.

(** the call for the tank does not end the interpreter *)
Definition rpc_does_not_exit (C : Cluster) (tank : LabelledPod) : Prop :=
  forall code,
    bitcoin_rpc C (network_calls.tank_name tank) "getpeerinfo" ""
      (Some (pod_namespace tank)) <> api.Raised (api.Exit code).
(** * Sanity checks of the string and path functions *)

Example relpath_blocks :
  posixpath.relpath "/home/op" "/root/.bitcoin/regtest/blocks/blk00000.dat"
                    "/root/.bitcoin/regtest" = Some "blocks/blk00000.dat".
Proof. reflexivity. Qed.

Example relpath_base :
  posixpath.relpath "/home/op" "/root/.bitcoin/regtest" "/root/.bitcoin/regtest"
  = Some ".".
Proof. reflexivity. Qed.

Example relpath_outside :
  posixpath.relpath "/home/op" "wallet.dat" "/root/.bitcoin/regtest"
  = Some "../../../home/op/wallet.dat".
Proof. reflexivity. Qed.

Example split_lines :
  PyStr.split (PyStr.strip ("a" +++ String "010" ("b" +++ String "010" ""))) "010"
  = ["a"; "b"].
Proof. reflexivity. Qed.


Example find_selects_dat :
  findutils.selects String.eqb
    (k8s.find_command "regtest" (Some ["peers.dat"; "blocks"]))
    {| findutils.entry_name := "blocks"; findutils.entry_type := findutils.Directory |}
  = Some true.
Proof. reflexivity. Qed.

Example find_rejects_other_name :
  findutils.selects String.eqb
    (k8s.find_command "regtest" (Some ["peers.dat"; "blocks"]))
    {| findutils.entry_name := "wallets"; findutils.entry_type := findutils.Directory |}
  = Some false.
Proof. reflexivity. Qed.

(** ** Example environments for the second part *)

(** a shell on which every command fails with status 1, and one on which
    only the removal of the builder fails *)
Definition docker_down (command : string) : image_build.shell_result :=
  image_build.Exited 1.

Definition docker_up (command : string) : image_build.shell_result :=
  if command =? "docker buildx rm bitcoind-builder"
  then image_build.Exited 1 else image_build.Exited 0.

Definition quoted (s : string) : string := "'" +++ s +++ "'".

(** a kubeconfig whose second context has no name *)
Definition unnamed_context_config : kubeconfig.Kubeconfig string :=
  {| kubeconfig.current_context := Some "prod";
     kubeconfig.contexts :=
       kubeconfig.Value
         [ {| kubeconfig.entry_name := kubeconfig.Value "dev";
              kubeconfig.entry_context :=
                kubeconfig.Value {| kubeconfig.context_cluster := Some "minikube" |} |};
           {| kubeconfig.entry_name := kubeconfig.Absent;
              kubeconfig.entry_context := kubeconfig.Absent |};
           {| kubeconfig.entry_name := kubeconfig.Value "prod";
              kubeconfig.entry_context :=
                kubeconfig.Value {| kubeconfig.context_cluster := Some "gke" |} |} ];
     kubeconfig.clusters :=
       kubeconfig.Value
         [ {| kubeconfig.cluster_entry_name := kubeconfig.Value "gke";
              kubeconfig.cluster_data := "https://gke.example" |} ] |}.

(** a kubeconfig whose current context names a cluster that is not listed *)
Definition dangling_cluster_config : kubeconfig.Kubeconfig string :=
  {| kubeconfig.current_context := Some "prod";
     kubeconfig.contexts :=
       kubeconfig.Value
         [ {| kubeconfig.entry_name := kubeconfig.Value "prod";
              kubeconfig.entry_context :=
                kubeconfig.Value {| kubeconfig.context_cluster := Some "gke" |} |} ];
     kubeconfig.clusters :=
       kubeconfig.Value
         [ {| kubeconfig.cluster_entry_name := kubeconfig.Value "minikube";
              kubeconfig.cluster_data := "https://192.168.49.2:8443" |} ] |}.

(** the same, with [clusters: null] *)
Definition null_clusters_config : kubeconfig.Kubeconfig string :=
  {| kubeconfig.current_context := Some "prod";
     kubeconfig.contexts := kubeconfig.contexts string dangling_cluster_config;
     kubeconfig.clusters := kubeconfig.Null |}.

Definition digit_of_str (s : string) : option Z :=
  if s =? "0" then Some 0%Z
  else if s =? "1" then Some 1%Z
  else if s =? "2" then Some 2%Z
  else if s =? "3" then Some 3%Z
  else None.

Definition str_of_digit (z : Z) : string :=
  if (z =? 0)%Z then "0"
  else if (z =? 1)%Z then "1"
  else if (z =? 2)%Z then "2"
  else if (z =? 3)%Z then "3"
  else "?".

(** a cluster with three namespaces and a tank that leaves [Pending] at the
    third read of its status *)
Definition tank_pod (name chain : string) : LabelledPod :=
  {| labelled_pod := running_pod name;
     labels := Some [("chain", chain); ("mission", "tank")];
     pod_namespace := "warnet";
     annotations := Some [("init_peers", "1")] |}.

Definition unlabelled_pod (name : string) : LabelledPod :=
  {| labelled_pod := running_pod name; labels := None;
     pod_namespace := "warnet"; annotations := None |}.

Definition example_pods (namespace : string) : list LabelledPod :=
  if namespace =? "warnet"
  then [tank_pod "tank-0000" "regtest"; unlabelled_pod "caddy"]
  else [].

Definition example_cluster
    (temp : option string -> string + string)
    (write : string -> option string) : Cluster :=
  {| base := calm;
     list_namespace :=
       api.Answer [ {| namespace_name := "default" |};
                    {| namespace_name := "kube-system" |};
                    {| namespace_name := "warnet" |} ];
     read_namespace := fun name => api.Answer {| namespace_name := name |};
     pods_of_namespace := fun namespace => api.Answer (example_pods namespace);
     read_labelled_pod := fun name namespace =>
       if namespace =? "warnet" then api.Answer (tank_pod name "regtest")
       else api.Refused 404 "Not Found";
     pod_phase_at := fun n _ _ =>
       api.Answer (Some (if (n <? 2)%nat then "Pending" else "Running"));
     pod_container_statuses := fun _ _ =>
       api.Answer (Some [ {| state_terminated := None |};
                          {| state_terminated := Some {| exit_code := 3 |} |} ]);
     access_review := fun _ _ _ => api.Refused 401 "Unauthorized";
     load_default_kube_config := None;
     read_namespaced_ingress := fun _ _ =>
       api.Answer (Some [ {| hostname := Some ""; ip := Some "10.0.0.7" |} ]);
     named_temporary_file := temp;
     write_fails := write;
     replace_fails := fun _ _ => None;
     remove_fails := fun _ => None;
     bitcoin_rpc := fun _ _ _ _ => api.Raised (api.Error "connection refused") |}.

Definition temp_in (dir : option string) : string + string :=
  inr (match dir with
       | Some d => d
       | None => "/tmp"
       end +++ "/tmpk3x9").

Definition no_temp (dir : option string) : string + string :=
  inl "No such file or directory".

Definition healthy : Cluster := example_cluster temp_in (fun _ => None).

Definition full_disk : Cluster :=
  example_cluster temp_in (fun _ => Some "No space left on device").

Definition no_directory : Cluster := example_cluster no_temp (fun _ => None).

(** [os.path.dirname] on the path of the examples *)
Definition example_dirname (path : string) : string :=
  if path =? "/home/op/.kube/config" then "/home/op/.kube" else "".

(** a lightning node and three tanks: every [getpeerinfo] call answers
    with one manual and one inbound peer, and [lncli getinfo] with one
    URI *)
Definition quoted_key (s : string) : string :=
  image_build.DQ +++ s +++ image_build.DQ.

Definition peerinfo_reply : string :=
  "[{" +++ quoted_key "connection_type" +++ ": " +++ quoted_key "manual"
  +++ "}, {" +++ quoted_key "connection_type" +++ ": " +++ quoted_key "inbound"
  +++ ", " +++ quoted_key "addnode" +++ ": false}]".

Definition getinfo_reply : string :=
  "{" +++ quoted_key "identity_pubkey" +++ ": " +++ quoted_key "03ab12"
  +++ ", " +++ quoted_key "uris" +++ ": ["
  +++ quoted_key "03ab12@10.0.0.5:9735@backup" +++ "]}".

(** [json.loads] on the two replies *)
Definition example_loads (text : string) : string + network.json :=
  if text =? peerinfo_reply then
    inr (network.JArray
           [ network.JObject [("connection_type", network.JString "manual")];
             network.JObject [("connection_type", network.JString "inbound");
                              ("addnode", network.JBool false)] ])
  else if text =? getinfo_reply then
    inr (network.JObject
           [ ("identity_pubkey", network.JString "03ab12");
             ("uris", network.JArray
                        [network.JString "03ab12@10.0.0.5:9735@backup"]) ])
  else inl "Expecting value: line 1 column 1 (char 0)".

Definition tank_expecting (name peers : string) : LabelledPod :=
  {| labelled_pod := running_pod name;
     labels := Some [("chain", "regtest"); ("mission", "tank")];
     pod_namespace := "warnet";
     annotations := Some [("init_peers", peers)] |}.

Definition ln_node : World :=
  {| getcwd := getcwd calm;
     subprocess_run := fun command =>
       if PyStr.contains command "lncli"
       then {| cp_returncode := 0; cp_stdout := getinfo_reply; cp_stderr := "" |}
       else subprocess_run calm command;
     subprocess_popen := subprocess_popen calm;
     load_kube_config := None;
     read_namespaced_pod := read_namespaced_pod calm;
     list_namespaced_pod := list_namespaced_pod calm;
     watch_namespaced_pod := watch_namespaced_pod calm;
     exec_session := exec_session calm;
     exec_output := exec_output calm |}.

Definition regtest_network : Cluster :=
  {| base := ln_node;
     list_namespace := list_namespace healthy;
     read_namespace := read_namespace healthy;
     pods_of_namespace := fun namespace =>
       api.Answer (if namespace =? "warnet"
                   then [tank_expecting "tank-0000" "1";
                         tank_expecting "tank-0001" "2";
                         tank_expecting "tank-0002" "1"]
                   else []);
     read_labelled_pod := read_labelled_pod healthy;
     pod_phase_at := pod_phase_at healthy;
     pod_container_statuses := pod_container_statuses healthy;
     access_review := access_review healthy;
     load_default_kube_config := None;
     read_namespaced_ingress := read_namespaced_ingress healthy;
     named_temporary_file := named_temporary_file healthy;
     write_fails := write_fails healthy;
     replace_fails := replace_fails healthy;
     remove_fails := remove_fails healthy;
     bitcoin_rpc := fun _ _ _ _ => api.Returned peerinfo_reply |}.
(** * Reasoning about computations *)

Section MonadLemmas.
Context {A B : Type}.

Lemma bind_return (m : M A) (k : A -> M B) t a :
  m = (t, Return a) ->
  bind m k = (t ++ trace (k a), result (k a)).
Proof. intros ->. unfold bind, trace, result. now destruct (k a). Qed.

Lemma bind_raise (m : M A) (k : A -> M B) t e :
  m = (t, Raise e) -> bind m k = (t, Raise e).
Proof. now intros ->. Qed.

Lemma result_bind_return (m : M A) (k : A -> M B) b :
  result (bind m k) = Return b ->
  exists a, result m = Return a /\ result (k a) = Return b
            /\ trace (bind m k) = trace m ++ trace (k a).
Proof.
  destruct m as [t [a | e]]; unfold bind, result, trace; simpl.
  - destruct (k a) as [t' r] eqn:E. simpl. intros ->. exists a. now rewrite E.
  - discriminate.
Qed.

Lemma in_trace_bind (m : M A) (k : A -> M B) x :
  In x (trace (bind m k)) ->
  In x (trace m) \/ exists a, result m = Return a /\ In x (trace (k a)).
Proof.
  destruct m as [t [a | e]]; unfold bind, result, trace; simpl.
  - destruct (k a) as [t' r] eqn:E. simpl. rewrite in_app_iff.
    intros [H | H]; [now left | right]. exists a. now rewrite E.
  - now left.
Qed.

Lemma result_bind_cases (m : M A) (k : A -> M B) :
  (exists a, result m = Return a /\ result (bind m k) = result (k a))
  \/ (exists e, result m = Raise e /\ result (bind m k) = Raise e).
Proof.
  destruct m as [t [a | e]]; unfold bind, result; simpl.
  - left. exists a. split; [reflexivity|]. now destruct (k a).
  - right. now exists e.
Qed.

End MonadLemmas.

Lemma in_trace_try_except {A} (body : M A) (handler : string -> M A) x :
  In x (trace (try_except body handler)) ->
  In x (trace body)
  \/ exists msg, result body = Raise (Exception msg) /\ In x (trace (handler msg)).
Proof.
  destruct body as [t [a | [msg | code]]]; unfold try_except, result, trace; simpl;
    try (now left).
  destruct (handler msg) as [t' r] eqn:E. simpl. rewrite in_app_iff.
  intros [H | H]; [now left | right]. exists msg. now rewrite E.
Qed.

(** A handler that never raises turns every [Exception] of the body into a
    normal return; only a [SystemExit] of the body gets out. *)
Lemma result_try_except {A} (body : M A) (handler : string -> M A) :
  match result body with
  | Return a => result (try_except body handler) = Return a
  | Raise (Exception msg) => result (try_except body handler) = result (handler msg)
  | Raise (SystemExit c) => result (try_except body handler) = Raise (SystemExit c)
  end.
Proof.
  destruct body as [t [a | [msg | code]]]; unfold try_except, result; simpl; auto.
  now destruct (handler msg).
Qed.

Lemma roe_ret {A} (a : A) : raises_only_exceptions (ret a).
Proof. intros c. discriminate. Qed.

Lemma roe_raise {A} msg : raises_only_exceptions (@raise A (Exception msg)).
Proof. intros c. discriminate. Qed.

Lemma roe_perform a : raises_only_exceptions (perform a).
Proof. intros c. discriminate. Qed.

Lemma roe_print text : raises_only_exceptions (print text).
Proof. intros c. discriminate. Qed.

Lemma roe_bind {A B} (m : M A) (k : A -> M B) :
  raises_only_exceptions m ->
  (forall a, raises_only_exceptions (k a)) ->
  raises_only_exceptions (bind m k).
Proof.
  intros Hm Hk c. destruct (result_bind_cases m k) as [(a & Ha & ->) | (e & He & ->)].
  - apply Hk.
  - intros [= ->]. now apply (Hm c).
Qed.

Lemma roe_of_api {A} (r : api_result A) : raises_only_exceptions (of_api r).
Proof. destruct r; intros c; discriminate. Qed.

Lemma roe_when b m : raises_only_exceptions m -> raises_only_exceptions (when b m).
Proof. destruct b; [auto | intros _; apply roe_ret]. Qed.

Create HintDb roe.
#[local] Hint Resolve roe_ret roe_raise roe_perform roe_print roe_of_api
  roe_when : roe.

Ltac roe :=
  repeat first
    [ solve [ auto with roe ]
    | apply roe_when
    | apply roe_bind; [| intros ? ] ].

(** * write_file_to_container *)

Section WriteFile.
Variable W : World.
Variable DEFAULT_NAMESPACE : string.

Lemma get_default_namespace_or_no_exec namespace req :
  ~ In (Exec req)
       (trace (k8s.get_default_namespace_or W DEFAULT_NAMESPACE namespace)).
Proof.
  assert (H : ~ In (Exec req)
                (trace (k8s.get_default_namespace W DEFAULT_NAMESPACE))).
  { unfold k8s.get_default_namespace, process.run_command.
    destruct (cp_returncode _ =? 0)%Z; simpl.
    - intros [H | []]; discriminate.
    - destruct (PyStr.find _ _ =? 0)%Z; simpl; intuition discriminate. }
  destruct namespace as [ns |]; simpl; [| exact H].
  destruct (PyStr.truthy ns); [| exact H]. simpl. tauto.
Qed.

(** The whole run of [write_file_to_container], once the namespace is
    [ns] and the client is there. *)
Lemma write_file_run pod_name container_name dst_path data namespace quiet ns :
  result (k8s.get_default_namespace_or W DEFAULT_NAMESPACE namespace) = Return ns ->
  load_kube_config W = None ->
  if write_steps_succeed W pod_name container_name dst_path ns then
    k8s.write_file_to_container W DEFAULT_NAMESPACE
      pod_name container_name dst_path data namespace quiet
    = (trace (k8s.get_default_namespace_or W DEFAULT_NAMESPACE namespace)
       ++ [LoadKubeConfig;
           Exec (k8s.exec_request pod_name ns (k8s.receive_command dst_path)
                   (Some container_name) true false);
           WriteStdin data;
           Close;
           Exec (k8s.exec_request pod_name ns (k8s.rename_command dst_path)
                   (Some container_name) false true)]
       ++ (if quiet then []
           else [Print (write_success_message pod_name container_name dst_path)]),
       Return (Some true))
  else
    exists steps e,
      k8s.write_file_to_container W DEFAULT_NAMESPACE
        pod_name container_name dst_path data namespace quiet
      = (steps ++ [Print (write_failure_message pod_name container_name dst_path e)],
         Return None).
Proof.
  intros Hns Hcfg.
  unfold k8s.write_file_to_container, write_steps_succeed.
  destruct (k8s.get_default_namespace_or W DEFAULT_NAMESPACE namespace)
    as [t0 r0] eqn:E0.
  simpl in Hns. subst r0.
  unfold k8s.get_static_client, k8s.stream_session, k8s.stream_preloaded,
    k8s.write_stdin, k8s.close.
  rewrite Hcfg. simpl.
  destruct (exec_session W _) as [res | msg]; simpl.
  2: { eexists (t0 ++ [_; _]), msg. now rewrite <- app_assoc. }
  destruct (write_stdin_error res) as [msg |]; simpl.
  { eexists (t0 ++ [_; _; _]), msg. now rewrite <- app_assoc. }
  destruct (close_error res) as [msg |]; simpl.
  { eexists (t0 ++ [_; _; _; _]), msg. now rewrite <- app_assoc. }
  destruct (exec_output W _) as [out | msg]; simpl.
  2: { eexists (t0 ++ [_; _; _; _; _]), msg. now rewrite <- app_assoc. }
  destruct quiet; simpl; reflexivity.
Qed.

(** Whenever [write_file_to_container] reports success, what it did,
    after resolving the namespace [ns] and loading the client
    configuration, is exactly: open an exec session (stdin enabled) with
    the argument vector [sh -c "cat > D.tmp && sync"]; write the whole
    payload to its stdin; close the session; make a second exec call with
    [sh -c "mv D.tmp D"]; print the success message unless [quiet].
    These two are the only exec calls.  What the two command lines do
    inside the pod is the shell's reading of them. *)
Lemma write_file_success_is_write_then_rename
    pod_name container_name dst_path data namespace quiet :
  result (k8s.write_file_to_container W DEFAULT_NAMESPACE
            pod_name container_name dst_path data namespace quiet)
  = Return (Some true) ->
  exists ns,
    let receive :=
      {| exec_name := pod_name; exec_namespace := ns;
         command := ["sh"; "-c"; "cat > " +++ dst_path +++ ".tmp && sync"];
         container := Some container_name;
         stderr := true; stdin := true; stdout := true; tty := false;
         preload_content := false |} in
    let rename :=
      {| exec_name := pod_name; exec_namespace := ns;
         command := ["sh"; "-c"; "mv " +++ dst_path +++ ".tmp " +++ dst_path];
         container := Some container_name;
         stderr := true; stdin := false; stdout := true; tty := false;
         preload_content := true |} in
    result (k8s.get_default_namespace_or W DEFAULT_NAMESPACE namespace) = Return ns
    /\ trace (k8s.write_file_to_container W DEFAULT_NAMESPACE
                pod_name container_name dst_path data namespace quiet)
       = trace (k8s.get_default_namespace_or W DEFAULT_NAMESPACE namespace)
         ++ [LoadKubeConfig; Exec receive; WriteStdin data; Close; Exec rename]
         ++ (if quiet then []
             else [Print (write_success_message pod_name container_name dst_path)])
    /\ forall req,
         In (Exec req)
            (trace (k8s.write_file_to_container W DEFAULT_NAMESPACE
                      pod_name container_name dst_path data namespace quiet)) ->
         req = receive \/ req = rename.
Proof.
  intros Hok.
  pose proof Hok as Hok'.
  unfold k8s.write_file_to_container in Hok'.
  apply result_bind_return in Hok' as (ns & Hns & Hrest & _).
  apply result_bind_return in Hrest as ([] & Hcl & _ & _).
  assert (Hcfg : load_kube_config W = None).
  { unfold k8s.get_static_client in Hcl.
    destruct (load_kube_config W); [discriminate | reflexivity]. }
  pose proof (write_file_run pod_name container_name dst_path data
                namespace quiet ns Hns Hcfg) as Hrun.
  destruct (write_steps_succeed W pod_name container_name dst_path ns).
  - exists ns. cbv zeta. rewrite Hrun. unfold trace at 1 3; simpl fst.
    split; [exact Hns |]. split; [reflexivity |].
    intros req Hin. apply in_app_or in Hin as [Hin | Hin].
    + now apply get_default_namespace_or_no_exec in Hin.
    + simpl in Hin.
      destruct Hin as [Hin | [Hin | [Hin | [Hin | [Hin | Hin]]]]];
        try discriminate.
      * left. now injection Hin as <-.
      * right. now injection Hin as <-.
      * destruct quiet; simpl in Hin; [contradiction |].
        destruct Hin as [Hin | []]. discriminate.
  - destruct Hrun as (steps & e & Hrun). rewrite Hrun in Hok. discriminate.
Qed.

(** C3 (amended). Once the namespace is resolved and the client
    configuration loaded, [write_file_to_container] never raises: it
    returns [True] when the four remote steps succeed, and otherwise
    prints the failure message and returns [None], not [False]. *)
Theorem write_file_returns_true_or_none
    pod_name container_name dst_path data namespace quiet ns :
  result (k8s.get_default_namespace_or W DEFAULT_NAMESPACE namespace) = Return ns ->
  load_kube_config W = None ->
  let run := k8s.write_file_to_container W DEFAULT_NAMESPACE
               pod_name container_name dst_path data namespace quiet in
  (write_steps_succeed W pod_name container_name dst_path ns = true
   /\ result run = Return (Some true))
  \/ (write_steps_succeed W pod_name container_name dst_path ns = false
      /\ result run = Return None
      /\ exists steps e,
           trace run
           = steps ++ [Print (write_failure_message pod_name container_name
                                dst_path e)]).
Proof.
  intros Hns Hcfg run.
  pose proof (write_file_run pod_name container_name dst_path data
                namespace quiet ns Hns Hcfg) as Hrun.
  destruct (write_steps_succeed W pod_name container_name dst_path ns).
  - left. subst run. now rewrite Hrun.
  - right. destruct Hrun as (steps & e & Hrun). subst run. rewrite Hrun.
    repeat split. now exists steps, e.
Qed.

End WriteFile.
(** * write_file_to_container: the two command lines as the shell reads them *)

Lemma append_nil_r (s : string) : s +++ "" = s.
Proof. induction s as [| c s IH]; simpl; [reflexivity | now rewrite IH]. Qed.

Lemma append_assoc (a b c : string) : (a +++ b) +++ c = a +++ b +++ c.
Proof. induction a as [| x a IH]; simpl; [reflexivity | now rewrite IH]. Qed.

Lemma plain_not_special c :
  sh.plain c = true ->
  sh.blank c = false /\ (c =? "#")%char = false /\ (c =? ">")%char = false
  /\ (c =? "&")%char = false.
Proof.
  intros H.
  destruct (sh.blank c) eqn:Eb.
  { unfold sh.blank in Eb. apply orb_true_iff in Eb as [E | E];
      apply Ascii.eqb_eq in E; subst c; discriminate H. }
  destruct (c =? "#")%char eqn:E1.
  { apply Ascii.eqb_eq in E1. subst c. discriminate H. }
  destruct (c =? ">")%char eqn:E2.
  { apply Ascii.eqb_eq in E2. subst c. discriminate H. }
  destruct (c =? "&")%char eqn:E3.
  { apply Ascii.eqb_eq in E3. subst c. discriminate H. }
  auto.
Qed.

(** a run of plain characters joins the word being read *)
Lemma tokens_plain w : forall rest word,
  all_plain w = true ->
  sh.tokens (w +++ rest) word = sh.tokens rest (word +++ w).
Proof.
  induction w as [| c w IH]; intros rest word Hw; simpl.
  - now rewrite append_nil_r.
  - simpl in Hw. apply andb_true_iff in Hw as [Hc Hw].
    destruct (plain_not_special c Hc) as (-> & -> & -> & ->).
    rewrite Hc, IH by exact Hw. now rewrite append_assoc.
Qed.

Lemma nonempty_append (a b : string) : b <> "" -> (a +++ b =? "") = false.
Proof.
  intros Hb. apply String.eqb_neq. destruct a; simpl; [exact Hb | discriminate].
Qed.

(** For a destination that is one plain word, the shell reads the two
    lines as they are meant: the payload goes to [D.tmp], which is then
    renamed to [D]. *)
Ltac plain_literals :=
  repeat match goal with
         | |- context [sh.plain ?c] =>
             replace (sh.plain c) with true by reflexivity
         end.

Lemma sh_reads_plain_destination D :
  all_plain D = true -> D <> "" ->
  sh.read ("cat > " +++ D +++ ".tmp && sync")
  = Some [ {| sh.argv := ["cat"]; sh.redirects := [D +++ ".tmp"] |};
           {| sh.argv := ["sync"]; sh.redirects := [] |} ]
  /\ sh.read ("mv " +++ D +++ ".tmp " +++ D)
     = Some [ {| sh.argv := ["mv"; D +++ ".tmp"; D]; sh.redirects := [] |} ].
Proof.
  intros Hp Hne.
  assert (Htmp : (D +++ ".tmp" =? "") = false)
    by (apply nonempty_append; discriminate).
  assert (HD : (D =? "") = false) by now apply String.eqb_neq.
  unfold sh.read. split.
  - assert (Ht : sh.tokens ("cat > " +++ D +++ ".tmp && sync") ""
                 = Some [sh.Word "cat"; sh.Great; sh.Word (D +++ ".tmp");
                         sh.AndIf; sh.Word "sync"]).
    { cbn. plain_literals. rewrite (tokens_plain D _ _ Hp). cbn. plain_literals.
      rewrite !append_assoc. cbn [String.append option_map].
      unfold sh.flush. rewrite Htmp. reflexivity. }
    rewrite Ht. reflexivity.
  - assert (Ht : sh.tokens ("mv " +++ D +++ ".tmp " +++ D) ""
                 = Some [sh.Word "mv"; sh.Word (D +++ ".tmp"); sh.Word D]).
    { cbn. plain_literals. rewrite (tokens_plain D _ _ Hp). cbn. plain_literals.
      rewrite <- (append_nil_r D) at 2.
      rewrite (tokens_plain D _ _ Hp). cbn.
      rewrite !append_assoc. cbn [String.append option_map].
      unfold sh.flush. rewrite Htmp, HD. reflexivity. }
    rewrite Ht. reflexivity.
Qed.

(** C1 (defect). The destination is pasted into the two command lines
    without quoting.  With the destination [data/f #] the call reports
    success, and the two lines it ran are read by the shell as: [cat]
    with its output redirected to [data/f], with no [sync] after it; and
    [mv] with the single operand [data/f].  The payload is written to a
    file that is not [D.tmp], and nothing is renamed. *)
Theorem write_file_success_without_rename :
  let D := "data/f #" in
  let run := k8s.write_file_to_container mv_complains "default"
               "tank-0000" "bitcoincore" D "hello" (Some "warnet") false in
  result run = Return (Some true)
  /\ exec_commands (trace run)
     = [ ["sh"; "-c"; "cat > data/f #.tmp && sync"];
         ["sh"; "-c"; "mv data/f #.tmp data/f #"] ]
  /\ sh.read "cat > data/f #.tmp && sync"
     = Some [ {| sh.argv := ["cat"]; sh.redirects := ["data/f"] |} ]
  /\ sh.read "mv data/f #.tmp data/f #"
     = Some [ {| sh.argv := ["mv"; "data/f"]; sh.redirects := [] |} ].
Proof. repeat split; reflexivity. Qed.

(** For a destination that is one plain word, a call that reports success
    ran exactly two commands in the pod, and the shell reads them as the
    write of the payload to [D.tmp] followed by [sync], and then the
    renaming of [D.tmp] to [D]. *)
Theorem write_file_plain_destination (W : World) (DEFAULT_NAMESPACE : string)
    pod_name container_name dst_path data namespace quiet :
  all_plain dst_path = true ->
  dst_path <> "" ->
  result (k8s.write_file_to_container W DEFAULT_NAMESPACE
            pod_name container_name dst_path data namespace quiet)
  = Return (Some true) ->
  exists receive rename,
    exec_commands (trace (k8s.write_file_to_container W DEFAULT_NAMESPACE
                            pod_name container_name dst_path data namespace quiet))
    = [ ["sh"; "-c"; receive]; ["sh"; "-c"; rename] ]
    /\ sh.read receive
       = Some [ {| sh.argv := ["cat"]; sh.redirects := [dst_path +++ ".tmp"] |};
                {| sh.argv := ["sync"]; sh.redirects := [] |} ]
    /\ sh.read rename
       = Some [ {| sh.argv := ["mv"; dst_path +++ ".tmp"; dst_path];
                   sh.redirects := [] |} ].
Proof.
  intros Hp Hne Hok.
  destruct (sh_reads_plain_destination dst_path Hp Hne) as [Hcat Hmv].
  exists ("cat > " +++ dst_path +++ ".tmp && sync"),
         ("mv " +++ dst_path +++ ".tmp " +++ dst_path).
  split; [| split; assumption].
  destruct (write_file_success_is_write_then_rename W DEFAULT_NAMESPACE
              pod_name container_name dst_path data namespace quiet Hok)
    as (ns & Hns & Htrace & _).
  cbv zeta in Htrace. rewrite Htrace.
  unfold exec_commands. rewrite !flat_map_app.
  assert (Hnone : forall t, (forall req, ~ In (Exec req) t) ->
                            flat_map (fun a => match a with
                                               | Exec req => [command req]
                                               | _ => []
                                               end) t = []).
  { induction t as [| a t IH]; intros Hno; [reflexivity |].
    cbn [flat_map]. rewrite IH by (intros req Hin; apply (Hno req); now right).
    destruct a; try reflexivity. now elim (Hno req (or_introl eq_refl)). }
  rewrite (Hnone _ (get_default_namespace_or_no_exec W DEFAULT_NAMESPACE namespace)).
  destruct quiet; reflexivity.
Qed.

(** * Readiness waits *)

Section PodReady.

Lemma ready_condition_spec conditions :
  match k8s.ready_condition conditions with
  | Some c =>
      exists before after,
        conditions = before ++ c :: after
        /\ (forall c', In c' before -> condition_type c' <> "Ready")
        /\ condition_type c = "Ready"
  | None => forall c, In c conditions -> condition_type c <> "Ready"
  end.
Proof.
  unfold k8s.ready_condition.
  induction conditions as [| c cs IH]; simpl.
  - intros c [].
  - destruct (condition_type c =? "Ready") eqn:E.
    + apply String.eqb_eq in E. exists [], cs. simpl. intuition.
    + apply String.eqb_neq in E.
      destruct (find _ cs) as [c0 |].
      * destruct IH as (before & after & -> & Hb & Hc).
        exists (c :: before), after. simpl. repeat split; auto.
        intros c' [<- | Hin]; auto.
      * intros c' [<- | Hin]; auto.
Qed.

(** The test of the loop, in words. *)
Lemma pod_is_ready_iff name pod :
  k8s.pod_is_ready name pod = true
  <-> named name pod /\ running_phase pod /\ first_ready_is_true pod.
Proof.
  unfold k8s.pod_is_ready, named, running_phase, first_ready_is_true,
    conditions_of.
  destruct pod as [[n] [phase conds inits]]; simpl.
  pose proof (ready_condition_spec
                (match conds with Some cs => cs | None => [] end)) as Hrc.
  destruct (n =? name) eqn:En; simpl.
  2: { apply String.eqb_neq in En. split; [discriminate | tauto]. }
  apply String.eqb_eq in En.
  destruct phase as [ph |]; simpl.
  2: { split; [discriminate | intros (_ & H & _); discriminate]. }
  destruct (ph =? "Running") eqn:Ep; simpl.
  2: { apply String.eqb_neq in Ep. split; [discriminate |].
       intros (_ & [= H] & _). contradiction. }
  apply String.eqb_eq in Ep. subst ph.
  destruct (k8s.ready_condition _) as [c |].
  - destruct Hrc as (before & after & Heq & Hb & Hc).
    rewrite String.eqb_eq. split.
    + intros Hs. repeat split; auto. now exists before, c, after.
    + intros (_ & _ & before' & c' & after' & Heq' & Hb' & Hc' & Hs').
      rewrite Heq in Heq'.
      enough (c = c') by now subst.
      clear - Heq' Hb Hb' Hc Hc'.
      revert before' Heq' Hb'.
      induction before as [| b bs IH]; intros [| b' bs'] Heq' Hb'; simpl in *.
      * now injection Heq'.
      * injection Heq' as -> _. exfalso. apply (Hb' b'); auto.
      * injection Heq' as -> _. exfalso. apply (Hb c'); auto.
      * injection Heq' as -> Heq'. apply (IH (fun x H => Hb x (or_intror H)) bs' Heq').
        intros x H. apply Hb'. now right.
  - split; [discriminate |].
    intros (_ & _ & before & c & after & Heq & _ & Hc & _).
    exfalso. apply (Hrc c); auto. rewrite Heq. apply in_elt.
Qed.

(** When a pod lists each condition type once, as the API server
    maintains it, the first Ready condition is the only one. *)
Lemma first_ready_when_types_unique pod :
  NoDup (map condition_type (conditions_of pod)) ->
  carries_ready_true pod <-> first_ready_is_true pod.
Proof.
  intros Hnd. split.
  - intros (c & Hin & Ht & Hs).
    apply in_split in Hin as (before & after & Heq).
    exists before, c, after. repeat split; auto.
    intros c' Hin' Ht'. rewrite Heq, map_app in Hnd. simpl in Hnd.
    apply NoDup_remove_2 in Hnd. apply Hnd. apply in_or_app. left.
    rewrite Ht, <- Ht'. now apply in_map.
  - intros (before & c & after & Heq & _ & Ht & Hs).
    exists c. repeat split; auto. rewrite Heq. apply in_elt.
Qed.

Lemma pod_ready_loop_stops name before pod after failure :
  (forall p, In p before -> k8s.pod_is_ready name p = false) ->
  k8s.pod_is_ready name pod = true ->
  k8s.pod_ready_loop name (before ++ pod :: after) failure
  = (map WatchEvent before ++ [WatchEvent pod; WatchStop], Return true).
Proof.
  intros Hb Hp. induction before as [| b bs IH]; simpl.
  - now rewrite Hp.
  - rewrite (Hb b) by now left. rewrite IH by (intros; apply Hb; now right).
    reflexivity.
Qed.

Lemma pod_ready_loop_exhausted name events :
  (forall p, In p events -> k8s.pod_is_ready name p = false) ->
  k8s.pod_ready_loop name events None
  = (map WatchEvent events ++ [WatchExhausted; Print (pod_timeout_message name)],
     Return false).
Proof.
  intros Hb. induction events as [| b bs IH]; simpl.
  - reflexivity.
  - rewrite (Hb b) by now left. rewrite IH by (intros; apply Hb; now right).
    reflexivity.
Qed.

Lemma not_true_false b : b <> true -> b = false.
Proof. now destruct b. Qed.

Variable W : World.

Lemma wait_for_pod_ready_times_out name namespace timeout :
  load_kube_config W = None ->
  (forall p, In p (watch_events (watch_namespaced_pod W namespace timeout)) ->
             k8s.pod_is_ready name p = false) ->
  watch_failure (watch_namespaced_pod W namespace timeout) = None ->
  k8s.wait_for_pod_ready W name namespace timeout
  = ([LoadKubeConfig; WatchOpen namespace timeout]
     ++ map WatchEvent (watch_events (watch_namespaced_pod W namespace timeout))
     ++ [WatchExhausted; Print (pod_timeout_message name)],
     Return false).
Proof.
  intros Hcfg Hnone Hf. unfold k8s.wait_for_pod_ready, k8s.get_static_client.
  rewrite Hcfg, Hf, pod_ready_loop_exhausted by assumption. reflexivity.
Qed.

(** C5. The conditions of a pod are a set keyed by type: each event's pod
    lists a condition type at most once.  On such a watch
    [wait_for_pod_ready] returns true, stopping the watch, on the first
    event whose pod has the requested name, is in phase Running and
    carries a condition of type Ready with status "True"; when the stream
    has no such event and ends with its time budget, the wait prints the
    timeout message and returns false. *)
Theorem wait_for_pod_ready_first_ready_event name namespace timeout :
  load_kube_config W = None ->
  let w := watch_namespaced_pod W namespace timeout in
  let ready pod :=
    named name pod /\ running_phase pod /\ carries_ready_true pod in
  (forall pod, In pod (watch_events w) ->
               NoDup (map condition_type (conditions_of pod))) ->
  (forall before pod after,
      watch_events w = before ++ pod :: after ->
      (forall p, In p before -> ~ ready p) ->
      ready pod ->
      k8s.wait_for_pod_ready W name namespace timeout
      = ([LoadKubeConfig; WatchOpen namespace timeout]
         ++ map WatchEvent before ++ [WatchEvent pod; WatchStop],
         Return true))
  /\ ((forall p, In p (watch_events w) -> ~ ready p) ->
      watch_failure w = None ->
      k8s.wait_for_pod_ready W name namespace timeout
      = ([LoadKubeConfig; WatchOpen namespace timeout]
         ++ map WatchEvent (watch_events w)
         ++ [WatchExhausted; Print (pod_timeout_message name)],
         Return false)).
Proof.
  intros Hcfg w ready Hset.
  assert (Htest : forall p, In p (watch_events w) ->
                            k8s.pod_is_ready name p = true <-> ready p).
  { intros p Hin. rewrite pod_is_ready_iff. unfold ready.
    rewrite (first_ready_when_types_unique p (Hset p Hin)). tauto. }
  split.
  - intros before pod after Hev Hb Hp.
    unfold k8s.wait_for_pod_ready, k8s.get_static_client.
    rewrite Hcfg. fold w. rewrite Hev, pod_ready_loop_stops.
    + reflexivity.
    + intros p Hin. apply not_true_false. rewrite Htest.
      * now apply Hb.
      * rewrite Hev. apply in_or_app. now left.
    + apply Htest; [| exact Hp]. rewrite Hev. apply in_elt.
  - intros Hnone Hf. apply wait_for_pod_ready_times_out; auto.
    intros p Hin. apply not_true_false. rewrite (Htest p Hin).
    now apply Hnone.
Qed.

Variable INGRESS_NAMESPACE : string.

(** C4 (amended). Provided the client configuration loads:
    [wait_for_pod_ready], on a watch that names the pod in no event and
    ends with its time budget, returns false only after consuming the
    whole stream; [wait_for_ingress_controller], when the pod list of the
    ingress namespace holds no controller pod, returns false at once,
    without opening a watch. *)
Theorem waits_without_matching_resource name namespace timeout :
  load_kube_config W = None ->
  (let w := watch_namespaced_pod W namespace timeout in
   (forall p, In p (watch_events w) -> ~ named name p) ->
   watch_failure w = None ->
   k8s.wait_for_pod_ready W name namespace timeout
   = ([LoadKubeConfig; WatchOpen namespace timeout]
      ++ map WatchEvent (watch_events w)
      ++ [WatchExhausted; Print (pod_timeout_message name)],
      Return false))
  /\ (forall pods,
        list_namespaced_pod W INGRESS_NAMESPACE = ApiOk pods ->
        (forall p, In p pods -> k8s.is_ingress_controller p = false) ->
        k8s.wait_for_ingress_controller W INGRESS_NAMESPACE timeout
        = ([LoadKubeConfig; ListNamespacedPod INGRESS_NAMESPACE], Return false)).
Proof.
  intros Hcfg. split.
  - intros w Hnone Hf.
    apply wait_for_pod_ready_times_out; auto.
    intros p Hin. apply not_true_false. rewrite pod_is_ready_iff.
    intros (Hn & _). now apply (Hnone p).
  - intros pods Hl Hnone.
    unfold k8s.wait_for_ingress_controller, k8s.get_static_client.
    rewrite Hcfg, Hl. simpl.
    destruct (find k8s.is_ingress_controller pods) as [p |] eqn:E.
    + apply find_some in E as [Hin Hp]. rewrite Hnone in Hp by assumption.
      discriminate.
    + reflexivity.
Qed.

End PodReady.

Section WaitForInit.

Lemma any_init_running_iff pod :
  (exists statuses,
      status_init_container_statuses (pod_status pod) = Some statuses
      /\ k8s.any_init_running statuses = true)
  <-> init_container_running pod.
Proof.
  unfold init_container_running, k8s.any_init_running. split.
  - intros (statuses & Hs & Hany). apply existsb_exists in Hany as (s & Hin & Hr).
    exists statuses, s. repeat split; auto.
    destruct (state_running (container_state s)); [discriminate | discriminate].
  - intros (statuses & s & Hs & Hin & Hr). exists statuses. split; auto.
    apply existsb_exists. exists s. split; auto.
    now destruct (state_running (container_state s)).
Qed.

Lemma init_loop_exhausted pod_name namespace quiet events :
  (forall p, In p events -> named pod_name p -> ~ init_container_running p) ->
  k8s.init_loop pod_name namespace quiet events None
  = (map WatchEvent events ++ [WatchExhausted]
     ++ (if quiet then []
         else [Print (init_timeout_message pod_name namespace)]),
     Return false).
Proof.
  intros Hnone. induction events as [| pod rest IH]; simpl.
  - now destruct quiet.
  - assert (IH' := IH (fun p H => Hnone p (or_intror H))). clear IH.
    destruct (meta_name (pod_metadata pod) =? pod_name) eqn:En.
    + apply String.eqb_eq in En.
      destruct (status_init_container_statuses (pod_status pod))
        as [[| s statuses] |] eqn:Es; try (rewrite IH'; reflexivity).
      destruct (k8s.any_init_running (s :: statuses)) eqn:Ea.
      * exfalso. apply (Hnone pod (or_introl eq_refl) En).
        apply any_init_running_iff. now exists (s :: statuses).
      * rewrite IH'. reflexivity.
    + rewrite IH'. reflexivity.
Qed.

Variable W : World.
Variable DEFAULT_NAMESPACE : string.

(** C8 (amended). An event for the named pod whose
    [init_container_statuses] is absent or empty is skipped: the loop
    goes on with the next event, raising nothing.  When the watch ends
    with its time budget and no event showed an init container of the
    named pod in the running sub-state, [wait_for_init] returns false; it
    prints the timeout message first unless [quiet] is set, in which case
    it prints nothing. *)
Theorem wait_for_init_skips_and_times_out pod_name timeout namespace quiet :
  (forall ns pod rest failure,
      named pod_name pod ->
      k8s.init_statuses_populated pod = false ->
      k8s.init_loop pod_name ns quiet (pod :: rest) failure
      = (WatchEvent pod :: trace (k8s.init_loop pod_name ns quiet rest failure),
         result (k8s.init_loop pod_name ns quiet rest failure)))
  /\ (forall ns,
        result (k8s.get_default_namespace_or W DEFAULT_NAMESPACE namespace)
        = Return ns ->
        load_kube_config W = None ->
        let w := watch_namespaced_pod W ns timeout in
        watch_failure w = None ->
        (forall p, In p (watch_events w) -> named pod_name p ->
                   ~ init_container_running p) ->
        k8s.wait_for_init W DEFAULT_NAMESPACE pod_name timeout namespace quiet
        = (trace (k8s.get_default_namespace_or W DEFAULT_NAMESPACE namespace)
           ++ [LoadKubeConfig; WatchOpen ns timeout]
           ++ map WatchEvent (watch_events w)
           ++ [WatchExhausted]
           ++ (if quiet then []
               else [Print (init_timeout_message pod_name ns)]),
           Return false)).
Proof.
  split.
  - intros ns pod rest failure Hn Hpop. unfold named in Hn.
    unfold k8s.init_statuses_populated in Hpop. simpl.
    apply String.eqb_eq in Hn. rewrite Hn.
    destruct (status_init_container_statuses (pod_status pod))
      as [[| s statuses] |]; try discriminate;
      now destruct (k8s.init_loop pod_name ns quiet rest failure).
  - intros ns Hns Hcfg w Hf Hnone.
    unfold k8s.wait_for_init, k8s.get_static_client.
    destruct (k8s.get_default_namespace_or W DEFAULT_NAMESPACE namespace)
      as [t0 r0].
    simpl in Hns. subst r0. rewrite Hcfg. subst w. simpl.
    rewrite Hf, init_loop_exhausted by assumption. simpl.
    reflexivity.
Qed.

End WaitForInit.

(** * The find command of snapshot_bitcoin_datadir *)

Section FindCommand.
Import findutils.

Lemma parse_or_S fuel ts :
  parse_or (S fuel) ts
  = match parse_and fuel ts with
    | Some (a, t :: ts') =>
        if t =? "-o" then
          match parse_or fuel ts' with
          | Some (b, ts'') => Some (EOr a b, ts'')
          | None => None
          end
        else Some (a, t :: ts')
    | r => r
    end.
Proof. reflexivity. Qed.

Lemma parse_and_S fuel ts :
  parse_and (S fuel) ts
  = match parse_primary fuel ts with
    | Some (a, t :: ts') =>
        if (t =? ")") || (t =? "-o") then Some (a, t :: ts')
        else
          match parse_and fuel (if t =? "-a" then ts' else t :: ts') with
          | Some (b, ts'') => Some (EAnd a b, ts'')
          | None => None
          end
    | r => r
    end.
Proof. reflexivity. Qed.

Lemma parse_primary_test fuel t arg ts :
  (t =? "(") = false ->
  parse_primary (S fuel) (t :: arg :: ts)
  = if t =? "-type" then Some (EType arg, ts)
    else if t =? "-name" then Some (EName arg, ts)
    else None.
Proof. intros H. simpl. now rewrite H. Qed.

Lemma parse_primary_paren fuel ts :
  parse_primary (S fuel) ("(" :: ts)
  = match parse_or fuel ts with
    | Some (e, t' :: ts'') => if t' =? ")" then Some (EParen e, ts'') else None
    | _ => None
    end.
Proof. reflexivity. Qed.

(** a test followed by [)] or by [-o] is a whole conjunction *)
Lemma parse_and_single fuel t arg next ts e :
  parse_primary (S fuel) (t :: arg :: next :: ts) = Some (e, next :: ts) ->
  (next =? ")") || (next =? "-o") = true ->
  parse_and (S (S fuel)) (t :: arg :: next :: ts) = Some (e, next :: ts).
Proof. intros Hp Hn. rewrite parse_and_S, Hp, Hn. reflexivity. Qed.

Lemma parse_names rest : forall f0 fuel tl,
  length rest + 3 <= fuel ->
  parse_or fuel (name_tokens f0 rest ++ ")" :: tl)
  = Some (name_disjunction f0 rest, ")" :: tl).
Proof.
  induction rest as [| f1 rest IH]; intros f0 fuel tl Hfuel;
    do 3 (destruct fuel as [| fuel]; [simpl in Hfuel; lia |]).
  - unfold name_tokens. simpl app.
    rewrite parse_or_S, (parse_and_single fuel "-name" f0 ")" tl (EName f0));
      reflexivity.
  - unfold name_tokens. simpl flat_map. simpl app.
    rewrite parse_or_S.
    rewrite (parse_and_single fuel "-name" f0 "-o" _ (EName f0));
      try reflexivity.
    change ("-o" =? "-o") with true. cbv iota.
    change ("-name" :: f1 :: flat_map (fun f => ["-o"; "-name"; f]) rest
              ++ ")" :: tl)
      with (name_tokens f1 rest ++ ")" :: tl).
    rewrite IH by (simpl in Hfuel; lia). reflexivity.
Qed.

Lemma parse_types fuel tl :
  parse_or (S (S (S (S fuel))))
           ("-type" :: "f" :: "-o" :: "-type" :: "d" :: ")" :: tl)
  = Some (EOr (EType "f") (EType "d"), ")" :: tl).
Proof. reflexivity. Qed.

Lemma fold_left_extend (rest : list string) : forall init,
  fold_left (fun cmd f => cmd ++ ["-o"; "-name"; f]) rest init
  = init ++ flat_map (fun f => ["-o"; "-name"; f]) rest.
Proof.
  induction rest as [| f rest IH]; intros init; simpl.
  - now rewrite app_nil_r.
  - rewrite IH, <- app_assoc. reflexivity.
Qed.

(** the argument vector, laid out *)
Lemma find_command_filters chain f0 rest :
  k8s.find_command chain (Some (f0 :: rest))
  = "find" :: ("/root/.bitcoin/" +++ chain)
      :: "(" :: "-type" :: "f" :: "-o" :: "-type" :: "d" :: ")"
      :: "(" :: name_tokens f0 rest ++ [")"].
Proof.
  unfold k8s.find_command, name_tokens. rewrite fold_left_extend.
  reflexivity.
Qed.

Lemma length_name_tokens f0 rest :
  length (name_tokens f0 rest) = 2 + 3 * length rest.
Proof.
  unfold name_tokens. simpl. f_equal. f_equal.
  induction rest as [| f rest IH]; simpl; [reflexivity | rewrite IH; lia].
Qed.

Lemma parse_find_expression f0 rest fuel :
  length rest + 7 <= fuel ->
  parse_or fuel
    ("(" :: "-type" :: "f" :: "-o" :: "-type" :: "d" :: ")"
         :: "(" :: name_tokens f0 rest ++ [")"])
  = Some (EAnd (EParen (EOr (EType "f") (EType "d")))
               (EParen (name_disjunction f0 rest)), []).
Proof.
  intros Hfuel.
  do 7 (destruct fuel as [| fuel]; [simpl in Hfuel; lia |]).
  rewrite parse_or_S, parse_and_S, parse_primary_paren, parse_types.
  change (")" =? ")") with true. cbv iota.
  change (("(" =? ")") || ("(" =? "-o")) with false.
  change ("(" =? "-a") with false. cbv iota.
  rewrite parse_and_S, parse_primary_paren.
  rewrite parse_names by (simpl in Hfuel; lia).
  change (")" =? ")") with true. cbv iota. reflexivity.
Qed.

Lemma eval_name_disjunction fnmatch x rest : forall f0,
  eval fnmatch (name_disjunction f0 rest) x
  = existsb (fun pattern => fnmatch pattern (entry_name x)) (f0 :: rest).
Proof.
  induction rest as [| f1 rest IH]; intros f0; simpl.
  - now rewrite orb_false_r.
  - now rewrite IH.
Qed.

Lemma eval_types fnmatch x :
  eval fnmatch (EOr (EType "f") (EType "d")) x = file_or_directory x.
Proof. unfold file_or_directory. simpl. now destruct (entry_type x). Qed.

(** C7 (amended). With a non-empty filter list the command is
    [find /root/.bitcoin/{chain} ( -type f -o -type d ) ( -name f0 -o
    -name f1 ... )]: it selects an entry exactly when the entry is a
    regular file or a directory and its name matches at least one of the
    patterns.  With the list empty or absent the command is [find
    /root/.bitcoin/{chain}], which selects every entry under that
    directory. *)
Theorem find_command_or_semantics (fnmatch : string -> string -> bool)
    (chain : string) :
  (forall f0 rest x,
      selects fnmatch (k8s.find_command chain (Some (f0 :: rest))) x
      = Some (file_or_directory x
              && existsb (fun pattern => fnmatch pattern (entry_name x))
                         (f0 :: rest)))
  /\ (forall x,
        k8s.find_command chain None = ["find"; "/root/.bitcoin/" +++ chain]
        /\ k8s.find_command chain (Some []) = ["find"; "/root/.bitcoin/" +++ chain]
        /\ selects fnmatch ["find"; "/root/.bitcoin/" +++ chain] x = Some true)
  /\ (forall filters,
        nth_error (k8s.find_command chain filters) 1
        = Some ("/root/.bitcoin/" +++ chain)).
Proof.
  split; [| split].
  - intros f0 rest x. rewrite find_command_filters.
    unfold selects. change ("find" =? "find") with true. cbv iota.
    rewrite parse_find_expression.
    + rewrite <- (eval_types fnmatch), <- eval_name_disjunction. reflexivity.
    + cbn [length]. rewrite length_app, length_name_tokens. simpl. lia.
  - intros x. repeat split.
  - intros [[| f0 rest] |]; try reflexivity.
    now rewrite find_command_filters.
Qed.

End FindCommand.

(** * Relative paths *)

Section RelativePaths.

Lemma starts_without_slash_not_abs s :
  starts_without_slash s -> posixpath.isabs s = false.
Proof.
  intros (c & s' & -> & Hc). unfold posixpath.isabs, PyStr.startswith.
  cbn [String.prefix].
  destruct (ascii_dec "/" c) as [<- | _]; [now elim Hc | reflexivity].
Qed.

Lemma split_components s : forall w,
  In w (PyStr.split s posixpath.sep) -> w = "" \/ starts_without_slash w.
Proof.
  induction s as [| c s IH]; simpl; intros w Hin.
  - destruct Hin as [<- | []]. now left.
  - destruct (Ascii.eqb c posixpath.sep) eqn:E.
    + destruct Hin as [<- | Hin]; [now left | now apply IH].
    + apply Ascii.eqb_neq in E.
      destruct (PyStr.split s posixpath.sep) as [| w0 ws].
      * destruct Hin as [<- | []]. right. now exists c, "".
      * destruct Hin as [<- | Hin].
        -- right. now exists c, w0.
        -- apply IH. now right.
Qed.

Lemma nonempty_comps_good s w :
  In w (posixpath.nonempty_comps s) -> starts_without_slash w.
Proof.
  unfold posixpath.nonempty_comps. intros Hin.
  apply filter_In in Hin as [Hin Ht].
  apply split_components in Hin as [-> | H]; [discriminate | exact H].
Qed.

Lemma join_step_good path b :
  starts_without_slash path -> starts_without_slash b ->
  starts_without_slash (posixpath.join_step path b).
Proof.
  intros (c & s' & -> & Hc) Hb. unfold posixpath.join_step.
  rewrite (starts_without_slash_not_abs b Hb : PyStr.startswith b "/" = false).
  destruct ((String c s' =? "") || PyStr.endswith (String c s') "/");
    simpl; eexists c, _; split; eauto.
Qed.

Lemma join_good p : forall a,
  starts_without_slash a -> Forall starts_without_slash p ->
  starts_without_slash (posixpath.join a p).
Proof.
  unfold posixpath.join.
  induction p as [| b p IH]; intros a Ha Hp; simpl; [exact Ha |].
  inversion Hp; subst. apply IH; [now apply join_step_good | assumption].
Qed.

(** What [os.path.relpath] returns is never an absolute path. *)
Lemma relpath_not_absolute cwd path start r :
  posixpath.relpath cwd path start = Some r -> posixpath.isabs r = false.
Proof.
  unfold posixpath.relpath. destruct (path =? ""); [discriminate |].
  set (start_list := posixpath.nonempty_comps (posixpath.abspath cwd start)).
  set (path_list := posixpath.nonempty_comps (posixpath.abspath cwd path)).
  set (i := length (posixpath.commonprefix start_list path_list)).
  assert (Hall : Forall starts_without_slash
                   (List.repeat posixpath.pardir (length start_list - i)
                    ++ skipn i path_list)).
  { apply Forall_app. split.
    - apply Forall_forall. intros w Hin. apply repeat_spec in Hin. subst w.
      exists "."%char, ".". split; [reflexivity | discriminate].
    - apply Forall_forall. intros w Hin.
      apply (nonempty_comps_good (posixpath.abspath cwd path)).
      fold path_list. revert Hin. generalize path_list. clear.
      induction i as [| i IH]; intros [| x l] Hin; simpl in *; auto. }
  destruct (List.repeat _ _ ++ skipn i path_list) as [| a p].
  - intros [= <-]. reflexivity.
  - intros [= <-]. inversion Hall; subst.
    apply starts_without_slash_not_abs. now apply join_good.
Qed.

Lemma not_blank_nonempty f : not_blank f = true -> (f =? "") = false.
Proof. destruct f; [discriminate | reflexivity]. Qed.

Variable W : World.

(** The list comprehension that builds the arguments of [tar]: it does
    nothing observable, never raises, and maps each non-blank entry to
    its [relpath]. *)
Lemma relpaths_run base file_list :
  exists rel,
    k8s.relpaths W base file_list = ([], Return rel)
    /\ Forall2 (fun f r => posixpath.relpath (getcwd W) f base = Some r)
               (filter not_blank file_list) rel
    /\ Forall (fun r => posixpath.isabs r = false) rel.
Proof.
  induction file_list as [| f rest (rel & IH & Hrel & Habs)]; simpl.
  - exists []. repeat split; constructor.
  - fold (not_blank f). destruct (not_blank f) eqn:Eb.
    + destruct (posixpath.relpath (getcwd W) f base) as [r |] eqn:Er.
      * exists (r :: rel). rewrite IH. simpl. repeat split.
        -- now constructor.
        -- constructor; [| assumption].
           now apply relpath_not_absolute in Er.
      * unfold posixpath.relpath in Er.
        rewrite (not_blank_nonempty f Eb) in Er.
        destruct (_ ++ _); discriminate.
    + exists rel. auto.
Qed.

End RelativePaths.

(** * snapshot_bitcoin_datadir *)

Section SnapshotSteps.
Variable W : World.

Lemma drain_find_trace ps : forall file_list a,
  In a (trace (k8s.drain_find ps file_list)) ->
  a = Update \/ exists err, a = Print ("Error: " +++ err).
Proof.
  induction ps as [| [out err | msg] ps IH]; intros file_list a; simpl.
  - intros [].
  - destruct (PyStr.truthy err); simpl;
      destruct (k8s.drain_find ps _) as [t r] eqn:E; simpl;
      intros Hin.
    + destruct Hin as [<- | [<- | Hin]]; eauto.
      eapply IH. now rewrite E.
    + destruct Hin as [<- | Hin]; eauto.
      eapply IH. now rewrite E.
  - intros [<- | []]. now left.
Qed.

Lemma drain_tar_trace ps : forall a,
  In a (trace (k8s.drain_tar ps)) ->
  a = Update \/ exists text, a = Print text.
Proof.
  induction ps as [| [out err | msg] ps IH]; intros a; simpl.
  - intros [].
  - destruct (PyStr.truthy out), (PyStr.truthy err); simpl;
      destruct (k8s.drain_tar ps) as [t r] eqn:E; simpl; intros Hin;
      repeat (destruct Hin as [<- | Hin]; eauto).
  - intros [<- | []]. now left.
Qed.

Lemma read_lines_run lines : forall message,
  exists message',
    process.read_lines lines message
    = (map PrintNoNewline lines, Return message').
Proof.
  induction lines as [| line rest IH]; intros message; simpl.
  - now exists message.
  - destruct (IH (message +++ line)) as (m' & ->). now exists m'.
Qed.

(** [stream_command] returns [True] or raises: it has no other outcome. *)
Lemma stream_command_run cmd :
  trace (process.stream_command W cmd)
  = SubprocessPopen cmd :: map PrintNoNewline (popen_lines (subprocess_popen W cmd))
  /\ if (popen_return_code (subprocess_popen W cmd) =? 0)%Z
     then result (process.stream_command W cmd) = Return true
     else exists message,
            result (process.stream_command W cmd) = Raise (Exception message).
Proof.
  unfold process.stream_command.
  destruct (read_lines_run (popen_lines (subprocess_popen W cmd)) "")
    as (m & ->). simpl.
  destruct (popen_return_code _ =? 0)%Z; simpl.
  - now rewrite app_nil_r.
  - rewrite app_nil_r. eauto.
Qed.

Lemma roe_drain_find ps : forall file_list,
  raises_only_exceptions (k8s.drain_find ps file_list).
Proof.
  induction ps as [| [out err | msg] ps IH]; intros file_list;
    cbn [k8s.drain_find]; roe.
Qed.

Lemma roe_drain_tar ps : raises_only_exceptions (k8s.drain_tar ps).
Proof.
  induction ps as [| [out err | msg] ps IH]; cbn [k8s.drain_tar]; roe.
Qed.

Lemma roe_stream_command cmd :
  raises_only_exceptions (process.stream_command W cmd).
Proof.
  intros c. destruct (stream_command_run cmd) as [_ H].
  destruct (_ =? 0)%Z; [| destruct H as (m & H)]; rewrite H; discriminate.
Qed.

Lemma roe_close resp : raises_only_exceptions (k8s.close resp).
Proof. unfold k8s.close. destruct (close_error resp); roe. Qed.

Lemma roe_stream_session req : raises_only_exceptions (k8s.stream_session W req).
Proof. unfold k8s.stream_session. roe. Qed.

Lemma roe_stream_preloaded req :
  raises_only_exceptions (k8s.stream_preloaded W req).
Proof. unfold k8s.stream_preloaded. roe. Qed.

Lemma roe_relpaths base file_list :
  raises_only_exceptions (k8s.relpaths W base file_list).
Proof.
  destruct (relpaths_run W base file_list) as (rel & -> & _). apply roe_ret.
Qed.

Lemma stream_session_run req :
  trace (k8s.stream_session W req) = [Exec req]
  /\ forall resp, result (k8s.stream_session W req) = Return resp ->
                  exec_session W req = ApiOk resp.
Proof.
  unfold k8s.stream_session. destruct (exec_session W req); simpl.
  - split; [reflexivity |]. now intros resp [= ->].
  - split; [reflexivity | discriminate].
Qed.

Lemma stream_preloaded_trace req :
  trace (k8s.stream_preloaded W req) = [Exec req].
Proof. unfold k8s.stream_preloaded. now destruct (exec_output W req). Qed.

Lemma close_run resp :
  trace (k8s.close resp) = [Close]
  /\ (result (k8s.close resp) = Return tt -> close_error resp = None).
Proof.
  unfold k8s.close. destruct (close_error resp); simpl.
  - split; [reflexivity | discriminate].
  - split; reflexivity.
Qed.

Lemma get_static_client_run :
  trace (k8s.get_static_client W) = [LoadKubeConfig]
  /\ (result (k8s.get_static_client W) = Return tt -> load_kube_config W = None).
Proof.
  unfold k8s.get_static_client. destruct (load_kube_config W); simpl.
  - split; [reflexivity | discriminate].
  - split; reflexivity.
Qed.

Variable DEFAULT_NAMESPACE : string.

(** Resolving the namespace either uses the one given, or asks
    [kubectl] once. *)
Lemma get_default_namespace_or_return namespace ns :
  result (k8s.get_default_namespace_or W DEFAULT_NAMESPACE namespace) = Return ns ->
  trace (k8s.get_default_namespace_or W DEFAULT_NAMESPACE namespace) = []
  \/ exists cmd,
       trace (k8s.get_default_namespace_or W DEFAULT_NAMESPACE namespace)
       = [SubprocessRun cmd].
Proof.
  assert (H : forall ns,
             result (k8s.get_default_namespace W DEFAULT_NAMESPACE) = Return ns ->
             exists cmd, trace (k8s.get_default_namespace W DEFAULT_NAMESPACE)
                         = [SubprocessRun cmd]).
  { intros ns0. unfold k8s.get_default_namespace, process.run_command.
    destruct (cp_returncode _ =? 0)%Z; simpl.
    - eauto.
    - destruct (PyStr.find _ _ =? 0)%Z; simpl; discriminate. }
  destruct namespace as [n |]; simpl.
  - destruct (PyStr.truthy n); simpl; [now left |].
    intros Hr. right. eauto.
  - intros Hr. right. eauto.
Qed.

End SnapshotSteps.

#[local] Hint Resolve roe_drain_find roe_drain_tar roe_stream_command roe_close
  roe_stream_session roe_stream_preloaded roe_relpaths : roe.

Section Snapshot.
Variable W : World.
Variable DEFAULT_NAMESPACE : string.
Variable Path_div : string -> string -> string.

(** The run when [find] reported nothing. *)
Lemma snapshot_nothing_found_run pod_name chain local_path filters namespace
    ns pod resp :
  result (k8s.get_default_namespace_or W DEFAULT_NAMESPACE namespace) = Return ns ->
  load_kube_config W = None ->
  read_namespaced_pod W pod_name ns = ApiOk pod ->
  exec_session W (k8s.exec_request pod_name ns (k8s.find_command chain filters)
                    None false false) = ApiOk resp ->
  result (k8s.drain_find (polls resp) []) = Return [] ->
  close_error resp = None ->
  k8s.snapshot_bitcoin_datadir W DEFAULT_NAMESPACE Path_div
    pod_name chain local_path filters namespace
  = (trace (k8s.get_default_namespace_or W DEFAULT_NAMESPACE namespace)
     ++ [LoadKubeConfig;
         ReadNamespacedPod pod_name ns;
         Exec (k8s.exec_request pod_name ns (k8s.find_command chain filters)
                 None false false)]
     ++ trace (k8s.drain_find (polls resp) [])
     ++ [Close; Print "No matching files or directories found."],
     Return tt).
Proof.
  intros Hns Hcfg Hpod Hfind Hdrain Hclose.
  unfold k8s.snapshot_bitcoin_datadir.
  destruct (k8s.get_default_namespace_or W DEFAULT_NAMESPACE namespace)
    as [t0 r0].
  simpl in Hns. subst r0.
  unfold k8s.get_static_client, k8s.stream_session, k8s.close.
  rewrite Hcfg. cbn [bind perform]. rewrite Hpod, Hfind. cbn [bind of_api ret].
  destruct (k8s.drain_find (polls resp) []) as [td rd].
  simpl in Hdrain. subst rd. rewrite Hclose. reflexivity.
Qed.

(** Outside the handler nothing but [Exception]s can arise in the body,
    and the handler only prints: once set up, the function returns
    [None]. *)
Lemma snapshot_result pod_name chain local_path filters namespace ns :
  result (k8s.get_default_namespace_or W DEFAULT_NAMESPACE namespace) = Return ns ->
  load_kube_config W = None ->
  result (k8s.snapshot_bitcoin_datadir W DEFAULT_NAMESPACE Path_div
            pod_name chain local_path filters namespace) = Return tt.
Proof.
  intros Hns Hcfg. unfold k8s.snapshot_bitcoin_datadir.
  match goal with
  | |- result (bind ?m ?k) = _ => destruct (result_bind_cases m k)
    as [(ns0 & Hns0 & ->) | (e & He & _)]
  end.
  2: { rewrite Hns in He. discriminate. }
  rewrite Hns in Hns0. injection Hns0 as <-.
  match goal with
  | |- result (bind ?m ?k) = _ =>
      destruct (result_bind_cases m k) as [([] & _ & ->) | (e & He & _)]
  end.
  2: { unfold k8s.get_static_client in He. rewrite Hcfg in He. discriminate. }
  match goal with
  | |- result (try_except ?body ?handler) = _ =>
      pose proof (result_try_except body handler) as Hte;
      assert (Hroe : raises_only_exceptions body)
  end.
  { repeat first
      [ progress roe
      | match goal with
        | |- raises_only_exceptions (if ?b then _ else _) => destruct b
        end ]. }
  match type of Hte with
  | match result ?body with _ => _ end =>
      destruct (result body) as [[] | [msg | c]] eqn:Eb
  end.
  - exact Hte.
  - rewrite Hte. reflexivity.
  - now elim (Hroe c).
Qed.

(** Every exec call of a run is the [find], the [tar] or the [rm], and
    each happens only after the steps before it went through. *)
Lemma snapshot_exec_inversion pod_name chain local_path filters namespace req :
  In (Exec req)
     (trace (k8s.snapshot_bitcoin_datadir W DEFAULT_NAMESPACE Path_div
               pod_name chain local_path filters namespace)) ->
  exists ns,
    result (k8s.get_default_namespace_or W DEFAULT_NAMESPACE namespace) = Return ns
    /\ load_kube_config W = None
    /\ (req = k8s.exec_request pod_name ns (k8s.find_command chain filters)
                None false false
        \/ exists resp file_list rel,
             exec_session W (k8s.exec_request pod_name ns
                               (k8s.find_command chain filters) None false false)
             = ApiOk resp
             /\ result (k8s.drain_find (polls resp) []) = Return file_list
             /\ file_list <> []
             /\ close_error resp = None
             /\ k8s.relpaths W (k8s.datadir chain) file_list = ([], Return rel)
             /\ (req = k8s.exec_request pod_name ns
                         (["tar"; "-czf"; k8s.archive_path; "-C";
                           k8s.datadir chain] ++ rel) None false false
                 \/ (req = k8s.exec_request pod_name ns k8s.cleanup_command
                             None false true
                     /\ exists resp',
                          exec_session W
                            (k8s.exec_request pod_name ns
                               (["tar"; "-czf"; k8s.archive_path; "-C";
                                 k8s.datadir chain] ++ rel) None false false)
                          = ApiOk resp'
                          /\ result (k8s.drain_tar (polls resp')) = Return tt
                          /\ close_error resp' = None
                          /\ popen_return_code
                               (subprocess_popen W
                                  (copy_command ns pod_name
                                     (Path_div local_path
                                        (pod_name +++ "_bitcoin_data.tar.gz"))))
                             = 0%Z))).
Proof.
  intros H. unfold k8s.snapshot_bitcoin_datadir in H.
  apply in_trace_bind in H as [H | (ns & Hns & H)].
  { now apply get_default_namespace_or_no_exec in H. }
  exists ns. split; [exact Hns |].
  apply in_trace_bind in H as [H | ([] & Hcl & H)].
  { rewrite (proj1 (get_static_client_run W)) in H.
    destruct H as [H | []]. discriminate. }
  apply (proj2 (get_static_client_run W)) in Hcl. split; [exact Hcl |].
  apply in_trace_try_except in H as [H | (msg & _ & H)].
  2: { destruct H as [H | []]. discriminate. }
  apply in_trace_bind in H as [H | ([] & _ & H)].
  { destruct H as [H | []]. discriminate. }
  apply in_trace_bind in H as [H | (pod & _ & H)].
  { destruct (read_namespaced_pod W pod_name ns); destruct H. }
  apply in_trace_bind in H as [H | (resp & Hresp & H)].
  { rewrite (proj1 (stream_session_run W _)) in H.
    destruct H as [[= <-] | []]. now left. }
  apply (proj2 (stream_session_run W _)) in Hresp.
  right. exists resp.
  apply in_trace_bind in H as [H | (file_list & Hfl & H)].
  { apply drain_find_trace in H as [H | (err & H)]; discriminate. }
  exists file_list.
  apply in_trace_bind in H as [H | ([] & Hclose & H)].
  { rewrite (proj1 (close_run resp)) in H. destruct H as [H | []]. discriminate. }
  apply (proj2 (close_run resp)) in Hclose.
  destruct file_list as [| f file_list].
  { destruct H as [H | []]. discriminate. }
  cbn [posixpath.is_nil] in H.
  destruct (relpaths_run W (k8s.datadir chain) (f :: file_list))
    as (rel & Hrel & _).
  exists rel. repeat (split; [first [assumption | discriminate] |]).
  apply in_trace_bind in H as [H | (rel' & Hrel' & H)].
  { rewrite Hrel in H. destruct H. }
  rewrite Hrel in Hrel'. injection Hrel' as <-.
  apply in_trace_bind in H as [H | (resp' & Hresp' & H)].
  { rewrite (proj1 (stream_session_run W _)) in H.
    destruct H as [[= <-] | []]. now left. }
  apply (proj2 (stream_session_run W _)) in Hresp'.
  apply in_trace_bind in H as [H | ([] & Hdt & H)].
  { apply drain_tar_trace in H as [H | (text & H)]; discriminate. }
  apply in_trace_bind in H as [H | ([] & Hclose' & H)].
  { rewrite (proj1 (close_run resp')) in H. destruct H as [H | []]. discriminate. }
  apply (proj2 (close_run resp')) in Hclose'.
  apply in_trace_bind in H as [H | (copied & Hcopy & H)].
  { rewrite (proj1 (stream_command_run W _)) in H.
    destruct H as [H | H]; [discriminate |].
    apply in_map_iff in H as (line & H & _). discriminate. }
  assert (Hrc : popen_return_code
                  (subprocess_popen W
                     (copy_command ns pod_name
                        (Path_div local_path (pod_name +++ "_bitcoin_data.tar.gz"))))
                = 0%Z).
  { pose proof (proj2 (stream_command_run W
                         (copy_command ns pod_name
                            (Path_div local_path
                               (pod_name +++ "_bitcoin_data.tar.gz"))))) as Hc.
    destruct (_ =? 0)%Z eqn:E; [now apply Z.eqb_eq in E |].
    destruct Hc as (m & Hc).
    change (copy_command ns pod_name
              (Path_div local_path (pod_name +++ "_bitcoin_data.tar.gz")))
      with ("kubectl cp " +++ ns +++ "/" +++ pod_name +++ ":"
            +++ k8s.archive_path +++ " "
            +++ Path_div local_path (pod_name +++ "_bitcoin_data.tar.gz")) in Hc.
    rewrite Hc in Hcopy. discriminate. }
  apply in_trace_bind in H as [H | ([] & _ & H)].
  { destruct (negb copied); destruct H. }
  apply in_trace_bind in H as [H | ([] & _ & H)].
  { destruct H as [H | []]. discriminate. }
  apply in_trace_bind in H as [H | (out & _ & H)].
  { rewrite stream_preloaded_trace in H. destruct H as [[= <-] | []].
    right. split; [reflexivity |]. exists resp'. auto. }
  apply in_trace_bind in H as [H | ([] & _ & H)];
    destruct H as [H | []]; discriminate.
Qed.

Lemma find_command_head chain filters :
  hd_error (k8s.find_command chain filters) = Some "find".
Proof.
  destruct filters as [[| f0 rest] |]; try reflexivity.
  now rewrite find_command_filters.
Qed.

(** C6. When the list parsed from the output of [find] is empty, the run
    ends right after that session is closed: it prints "No matching files
    or directories found." and returns normally.  No archive, copy or
    cleanup step is run, and the error handler is not entered. *)
Theorem empty_find_output_stops_pipeline
    pod_name chain local_path filters namespace ns pod resp :
  result (k8s.get_default_namespace_or W DEFAULT_NAMESPACE namespace) = Return ns ->
  load_kube_config W = None ->
  read_namespaced_pod W pod_name ns = ApiOk pod ->
  let find_request :=
    {| exec_name := pod_name; exec_namespace := ns;
       command := k8s.find_command chain filters; container := None;
       stderr := true; stdin := false; stdout := true; tty := false;
       preload_content := false |} in
  exec_session W find_request = ApiOk resp ->
  result (k8s.drain_find (polls resp) []) = Return [] ->
  close_error resp = None ->
  let run := k8s.snapshot_bitcoin_datadir W DEFAULT_NAMESPACE Path_div
               pod_name chain local_path filters namespace in
  run = (trace (k8s.get_default_namespace_or W DEFAULT_NAMESPACE namespace)
         ++ [LoadKubeConfig; ReadNamespacedPod pod_name ns; Exec find_request]
         ++ trace (k8s.drain_find (polls resp) [])
         ++ [Close; Print "No matching files or directories found."],
         Return tt)
  /\ forall a, In a (trace run) ->
               (forall req, a = Exec req -> req = find_request)
               /\ (forall cmd, a <> SubprocessPopen cmd)
               /\ (forall e, a <> Print ("An error occurred: " +++ e)).
Proof.
  intros Hns Hcfg Hpod find_request Hfind Hdrain Hclose run.
  assert (Hrun := snapshot_nothing_found_run pod_name chain local_path filters
                    namespace ns pod resp Hns Hcfg Hpod Hfind Hdrain Hclose).
  fold run in Hrun. split; [exact Hrun |].
  intros a Hin. rewrite Hrun in Hin. unfold trace at 1 in Hin. simpl fst in Hin.
  apply in_app_or in Hin as [Hin | Hin].
  { destruct (get_default_namespace_or_return W DEFAULT_NAMESPACE namespace ns Hns)
      as [H0 | (cmd & H0)]; rewrite H0 in Hin.
    - destruct Hin.
    - destruct Hin as [<- | []]. repeat split; discriminate. }
  destruct Hin as [<- | [<- | [<- | Hin]]];
    [repeat split; discriminate | repeat split; discriminate
    | repeat split; try discriminate; now intros req [= <-] |].
  apply in_app_or in Hin as [Hin | Hin].
  { apply drain_find_trace in Hin as [-> | (err & ->)];
      repeat split; try discriminate. }
  destruct Hin as [<- | [<- | []]]; repeat split; discriminate.
Qed.

(** C9. The command of the archive step is [tar -czf
    /tmp/bitcoin_data.tar.gz -C /root/.bitcoin/{chain}] followed by one
    argument for each non-blank entry of the list read from [find], in
    order: the entry's [os.path.relpath] against
    [/root/.bitcoin/{chain}].  None of these arguments is an absolute
    path. *)
Theorem tar_arguments_are_relative
    pod_name chain local_path filters namespace req :
  In (Exec req)
     (trace (k8s.snapshot_bitcoin_datadir W DEFAULT_NAMESPACE Path_div
               pod_name chain local_path filters namespace)) ->
  hd_error (command req) = Some "tar" ->
  exists ns resp file_list rel,
    exec_session W (k8s.exec_request pod_name ns (k8s.find_command chain filters)
                      None false false) = ApiOk resp
    /\ result (k8s.drain_find (polls resp) []) = Return file_list
    /\ command req
       = ["tar"; "-czf"; "/tmp/bitcoin_data.tar.gz"; "-C"; "/root/.bitcoin/" +++ chain]
         ++ rel
    /\ Forall2 (fun f r =>
                  posixpath.relpath (getcwd W) f ("/root/.bitcoin/" +++ chain)
                  = Some r)
               (filter not_blank file_list) rel
    /\ Forall (fun r => posixpath.isabs r = false) rel.
Proof.
  intros Hin Htar.
  apply snapshot_exec_inversion in Hin
    as (ns & Hns & Hcfg & [-> | (resp & file_list & rel & Hfind & Hfl & Hne
                                 & Hclose & Hrel & [-> | (-> & _)])]).
  - simpl in Htar. rewrite find_command_head in Htar. discriminate.
  - exists ns, resp, file_list, rel.
    destruct (relpaths_run W (k8s.datadir chain) file_list)
      as (rel' & Hrel' & Hmap & Habs).
    rewrite Hrel in Hrel'. injection Hrel' as <-.
    repeat split; assumption.
  - discriminate.
Qed.





End Snapshot.

(** C10 (amended). Once the namespace is resolved and the client
    configuration loaded, [snapshot_bitcoin_datadir] never raises and
    returns [None] whatever the collaborators answer: every failure of
    the pod lookup, of an exec session, of the copy or of the cleanup is
    caught by the one handler, which only prints.  A successful export
    and a failed one therefore return the same value.  (A failure while
    resolving the namespace or loading the configuration happens before
    the [try] and is not covered.) *)
Theorem snapshot_returns_none_once_set_up
    (W : World) (DEFAULT_NAMESPACE : string)
    (Path_div : string -> string -> string)
    pod_name chain local_path filters namespace ns :
  result (k8s.get_default_namespace_or W DEFAULT_NAMESPACE namespace) = Return ns ->
  load_kube_config W = None ->
  result (k8s.snapshot_bitcoin_datadir W DEFAULT_NAMESPACE Path_div
            pod_name chain local_path filters namespace) = Return tt
  /\ forall W' ns',
       result (k8s.get_default_namespace_or W' DEFAULT_NAMESPACE namespace)
       = Return ns' ->
       load_kube_config W' = None ->
       result (k8s.snapshot_bitcoin_datadir W' DEFAULT_NAMESPACE Path_div
                 pod_name chain local_path filters namespace)
       = result (k8s.snapshot_bitcoin_datadir W DEFAULT_NAMESPACE Path_div
                   pod_name chain local_path filters namespace).
Proof.
  intros Hns Hcfg.
  rewrite (snapshot_result W DEFAULT_NAMESPACE Path_div
             pod_name chain local_path filters namespace ns Hns Hcfg).
  split; [reflexivity |].
  intros W' ns' Hns' Hcfg'.
  now apply snapshot_result with (ns := ns').
Qed.


(** * Further properties of the code *)

Lemma find_lower_bound s : forall sub, (-1 <= PyStr.find s sub)%Z.
Proof.
  induction s as [| c s IH]; intros sub; cbn [PyStr.find].
  - destruct (String.prefix sub ""); lia.
  - destruct (String.prefix sub (String c s)); [lia |].
    specialize (IH sub). destruct (PyStr.find s sub <? 0)%Z eqn:E; [lia |].
    apply Z.ltb_ge in E. lia.
Qed.

(** [s.find(sub)] is [0], the one falsy index, exactly when [s] starts
    with [sub]. *)
Lemma find_is_zero s sub :
  (PyStr.find s sub =? 0)%Z = PyStr.startswith s sub.
Proof.
  unfold PyStr.startswith. destruct s as [| c s]; cbn [PyStr.find].
  - now destruct (String.prefix sub "").
  - destruct (String.prefix sub (String c s)); [reflexivity |].
    pose proof (find_lower_bound s sub).
    destruct (PyStr.find s sub <? 0)%Z eqn:E; [reflexivity |].
    apply Z.ltb_ge in E. apply Z.eqb_neq. lia.
Qed.



(** When the [kubectl] query fails, [get_default_namespace] prints the
    error text, then the "kubectl is not installed" hint unless the error
    text starts with "command not found" (the test is on the index that
    [str.find] returns, which is falsy only at 0 and truthy at -1), and
    leaves with [SystemExit(1)]. *)
Theorem get_default_namespace_exits (W : World) (DEFAULT_NAMESPACE : string) :
  let command := "kubectl config view --minify -o jsonpath='{..namespace}'" in
  let failure := cp_stderr (subprocess_run W command) in
  cp_returncode (subprocess_run W command) <> 0%Z ->
  k8s.get_default_namespace W DEFAULT_NAMESPACE
  = ([SubprocessRun command; Print failure]
     ++ (if PyStr.startswith failure "command not found" then []
         else [Print k8s.kubectl_missing_hint]),
     Raise (SystemExit 1)).
Proof.
  intros command failure Hrc. apply Z.eqb_neq in Hrc.
  unfold k8s.get_default_namespace, process.run_command.
  fold command. rewrite Hrc. simpl. fold failure.
  rewrite find_is_zero. now destruct (PyStr.startswith failure _).
Qed.

(** For a pod that lists each condition type once, the test made by
    [wait_for_pod_ready] is the one the specification words: named as
    requested, phase Running, and a condition of type Ready with status
    "True". *)
Theorem pod_is_ready_when_types_unique (name : string) (pod : V1Pod) :
  NoDup (map condition_type (conditions_of pod)) ->
  k8s.pod_is_ready name pod = true
  <-> named name pod /\ running_phase pod /\ carries_ready_true pod.
Proof.
  intros Hnd. rewrite pod_is_ready_iff, (first_ready_when_types_unique pod Hnd).
  reflexivity.
Qed.

(** * image_build.py: build_image *)

Section BuildImage.
Variable shell : string -> image_build.shell_result.
Variable repr : string -> string.
Variable dockerfile_path dockerfile_parent : string.

Lemma member_iff a l : image_build.member a l = true <-> In a l.
Proof.
  unfold image_build.member. rewrite existsb_exists. split.
  - intros (x & Hx & Heq). apply String.eqb_eq in Heq. now subst x.
  - intros Hin. exists a. split; [exact Hin | apply String.eqb_refl].
Qed.

(** the loop over [build_arches] stops at the first entry that is not in
    [ARCHES] *)
Lemma unsupported_first before bad after :
  (forall a, In a before -> In a image_build.ARCHES) ->
  ~ In bad image_build.ARCHES ->
  image_build.unsupported (before ++ bad :: after) = Some bad.
Proof.
  intros Hb Hbad. unfold image_build.unsupported.
  induction before as [| b before IH]; cbn [app find].
  - destruct (image_build.member bad image_build.ARCHES) eqn:E; [| reflexivity].
    apply member_iff in E. contradiction.
  - assert (E : image_build.member b image_build.ARCHES = true)
      by (apply member_iff, Hb; now left).
    rewrite E. cbn [negb]. apply IH. intros a Ha. apply Hb. now right.
Qed.

(** An architecture list naming anything but amd64, arm64 or armhf is
    refused before anything is done: [build_image] prints the error for the
    first entry, in the order written, that is not one of the three, and
    returns [False] without running a single command.  Entries are
    compared as written, so one with a blank around it is refused too. *)
Theorem build_image_rejects_unsupported_arch
    repo commit_sha docker_registry tags build_args arches action
    before bad after :
  PyStr.truthy arches = true ->
  PyStr.split arches "," = before ++ bad :: after ->
  (forall a, In a before -> In a ["amd64"; "arm64"; "armhf"]) ->
  ~ In bad ["amd64"; "arm64"; "armhf"] ->
  image_build.build_image shell repr dockerfile_path dockerfile_parent
    repo commit_sha docker_registry tags build_args (Some arches) action
  = ([Print ("Error: " +++ bad +++ " is not a supported architecture")],
     Return false).
Proof.
  intros Ht Hsplit Hb Hbad.
  unfold image_build.build_image, image_build.build_arches_of, image_build.given.
  rewrite Ht, Hsplit, (unsupported_first before bad after Hb Hbad). reflexivity.
Qed.

(** When the builder can neither be created nor selected, [build_image]
    returns [False]; the two [docker buildx] commands for the builder are
    all it ran: no build, and no removal of the builder. *)
Theorem build_image_without_builder
    repo commit_sha docker_registry tags build_args arches action c u :
  image_build.unsupported (image_build.build_arches_of arches) = None ->
  shell "docker buildx create --name bitcoind-builder --use"
  = image_build.Exited c ->
  c <> 0%Z ->
  shell "docker buildx use --builder bitcoind-builder" = image_build.Exited u ->
  u <> 0%Z ->
  let run := image_build.build_image shell repr dockerfile_path dockerfile_parent
               repo commit_sha docker_registry tags build_args arches action in
  result run = Return false
  /\ shell_commands (trace run)
     = ["docker buildx create --name bitcoind-builder --use";
        "docker buildx use --builder bitcoind-builder"].
Proof.
  intros Hvalid Hc Hc0 Hu Hu0 run. subst run.
  apply Z.eqb_neq in Hc0. apply Z.eqb_neq in Hu0.
  unfold image_build.build_image. rewrite Hvalid.
  unfold image_build.run_command.
  change image_build.create_builder_cmd
    with "docker buildx create --name bitcoind-builder --use".
  change image_build.use_builder_cmd
    with "docker buildx use --builder bitcoind-builder".
  cbn [bind perform print]. rewrite Hc. cbn [bind ret]. rewrite Hc0.
  cbn [bind perform]. rewrite Hu. cbn [bind ret negb]. rewrite Hu0.
  split; reflexivity.
Qed.

(** Once a builder is available (created, or else selected), the build
    command is run and then, whatever the build did, the builder is
    removed: the removal is the last command, run exactly once.  The value
    returned is [True] exactly when the build command exited with status
    0; the exit status of the removal only changes a printed line. *)
Theorem build_image_always_removes_builder
    repo commit_sha docker_registry tags build_args arches action c r :
  image_build.unsupported (image_build.build_arches_of arches) = None ->
  shell "docker buildx create --name bitcoind-builder --use"
  = image_build.Exited c ->
  (c = 0%Z \/ shell "docker buildx use --builder bitcoind-builder"
              = image_build.Exited 0) ->
  shell "docker buildx rm bitcoind-builder" = image_build.Exited r ->
  let run := image_build.build_image shell repr dockerfile_path dockerfile_parent
               repo commit_sha docker_registry tags build_args arches action in
  let build := build_command_for dockerfile_path dockerfile_parent
               repo commit_sha tags build_args arches action in
  result run
  = Return match shell build with
           | image_build.Exited status => (status =? 0)%Z
           | image_build.Failed _ => false
           end
  /\ shell_commands (trace run)
     = ["docker buildx create --name bitcoind-builder --use"]
       ++ (if (c =? 0)%Z then []
           else ["docker buildx use --builder bitcoind-builder"])
       ++ [build; "docker buildx rm bitcoind-builder"]
  /\ last (printed (trace run)) ""
     = if (r =? 0)%Z then "Buildx builder removed successfully."
       else "Warning: Failed to remove the buildx builder.".
Proof.
  intros Hvalid Hc Huse Hr run build. subst run build.
  unfold build_command_for.
  unfold image_build.build_image. rewrite Hvalid.
  set (cmd := image_build.build_command_of _ _ _ _ _ _ _ _).
  unfold image_build.run_command.
  change image_build.create_builder_cmd
    with "docker buildx create --name bitcoind-builder --use".
  change image_build.use_builder_cmd
    with "docker buildx use --builder bitcoind-builder".
  change image_build.cleanup_builder_cmd with "docker buildx rm bitcoind-builder".
  cbn [bind perform print]. rewrite Hc. cbn [bind ret].
  destruct (c =? 0)%Z eqn:Ec0.
  - cbn [bind ret negb perform print try_finally try_except].
    rewrite Hr.
    destruct (shell cmd) as [status | msg]; destruct (r =? 0)%Z;
      cbn; repeat split; reflexivity.
  - destruct Huse as [-> | Huse]; [discriminate |].
    cbn [bind perform]. rewrite Huse.
    cbn [bind ret negb perform print try_finally try_except Z.eqb].
    rewrite Hr.
    destruct (shell cmd) as [status | msg]; destruct (r =? 0)%Z;
      cbn; repeat split; reflexivity.
Qed.

End BuildImage.

(** * k8s.py: wrappers around kubectl *)

Section KubectlWrappers.
Variable W : World.

(** what a wrapper does with the outcome of [stream_command] *)
Lemma wrapper_run (command success failure : string) :
  exists message,
    (result <- process.stream_command W command ;;
     (if result then print success else print failure) ;;
     ret result)
    = if (popen_return_code (subprocess_popen W command) =? 0)%Z
      then (SubprocessPopen command
              :: map PrintNoNewline (popen_lines (subprocess_popen W command))
              ++ [Print success],
            Return true)
      else (SubprocessPopen command
              :: map PrintNoNewline (popen_lines (subprocess_popen W command)),
            Raise (Exception message)).
Proof.
  unfold process.stream_command.
  destruct (read_lines_run (popen_lines (subprocess_popen W command)) "")
    as (m & Hm).
  exists m. cbn [bind perform]. rewrite Hm. cbn [bind].
  destruct (popen_return_code _ =? 0)%Z; cbn; now rewrite ?app_nil_r.
Qed.

(** [set_kubectl_context], [apply_kubernetes_yaml] and [delete_namespace]
    never return [False] and never print their "Failed ..." line: when
    [kubectl] exits with status 0 they print the success line and return
    [True], and otherwise the exception of [stream_command], carrying the
    output of [kubectl], reaches the caller. *)
Theorem kubectl_wrappers_return_true_or_raise (arg : string) :
  let outcome_of (run : M bool) (command success : string) :=
    exists message,
      run = if (popen_return_code (subprocess_popen W command) =? 0)%Z
            then (SubprocessPopen command
                    :: map PrintNoNewline (popen_lines (subprocess_popen W command))
                    ++ [Print success],
                  Return true)
            else (SubprocessPopen command
                    :: map PrintNoNewline (popen_lines (subprocess_popen W command)),
                  Raise (Exception message)) in
  outcome_of (kubectl.set_kubectl_context W arg)
    ("kubectl config set-context --current --namespace=" +++ arg)
    ("Kubectl context set to namespace: " +++ arg)
  /\ outcome_of (kubectl.apply_kubernetes_yaml W arg)
       ("kubectl apply -f " +++ arg)
       ("Kubernetes object applied successfully from " +++ arg)
  /\ outcome_of (kubectl.delete_namespace W arg)
       ("kubectl delete namespace " +++ arg +++ " --ignore-not-found")
       ("Kubernetes namespace " +++ arg +++ " deleted successfully").
Proof.
  cbv zeta. repeat split; apply wrapper_run.
Qed.

End KubectlWrappers.
(** * k8s.py: get_cluster_of_current_context *)

Section Kubeconfig.
Import kubeconfig.
Variable Payload : Type.

Lemma first_named_found {E : Type} (name_of : E -> field string) entries wanted e :
  first_named name_of entries wanted = inr (Some e)
  <-> first_with_name name_of entries wanted e.
Proof.
  split.
  - induction entries as [| x rest IH]; simpl; [discriminate |].
    destruct (name_of x) as [| | n] eqn:En; [discriminate | |].
    + intros H. apply IH in H as (before & after & -> & He & Hb).
      exists (x :: before), after. simpl. repeat split; auto.
      intros y [<- | Hy]; auto.
    + destruct (n =? wanted) eqn:Ew.
      * intros [= <-]. apply String.eqb_eq in Ew. subst n.
        exists [], rest. simpl. repeat split; auto. intros y [].
      * intros H. apply IH in H as (before & after & -> & He & Hb).
        exists (x :: before), after. simpl. repeat split; auto.
        intros y [<- | Hy]; auto.
        right. exists n. split; auto. now apply String.eqb_neq.
  - intros (before & after & -> & He & Hb).
    induction before as [| x before IH]; simpl.
    + now rewrite He, String.eqb_refl.
    + destruct (Hb x (or_introl eq_refl)) as [-> | (n & -> & Hn)].
      * apply IH. intros y Hy. apply Hb. now right.
      * apply String.eqb_neq in Hn. rewrite Hn.
        apply IH. intros y Hy. apply Hb. now right.
Qed.

Lemma first_named_of_named {E : Type} (name_of : E -> field string) entries wanted :
  (forall x, In x entries -> name_of x <> Absent) ->
  exists r, first_named name_of entries wanted = inr r.
Proof.
  induction entries as [| x rest IH]; simpl; intros Hn.
  - now exists None.
  - destruct (name_of x) as [| | n] eqn:En.
    + now elim (Hn x (or_introl eq_refl)).
    + apply IH. intros y Hy. apply Hn. now right.
    + destruct (n =? wanted); [now exists (Some x) |].
      apply IH. intros y Hy. apply Hn. now right.
Qed.

Lemma first_named_in {E : Type} (name_of : E -> field string) entries wanted e :
  first_named name_of entries wanted = inr (Some e) -> In e entries.
Proof.
  intros H. apply first_named_found in H as (before & after & -> & _).
  apply in_elt.
Qed.

Lemma first_named_unnamed {E : Type} (name_of : E -> field string)
    before e after wanted :
  (forall x, In x before ->
             name_of x = Null \/ exists n, name_of x = Value n /\ n <> wanted) ->
  name_of e = Absent ->
  first_named name_of (before ++ e :: after) wanted = inl (KeyError "name").
Proof.
  intros Hb He. induction before as [| x before IH]; simpl.
  - now rewrite He.
  - destruct (Hb x (or_introl eq_refl)) as [-> | (n & -> & Hn)].
    + apply IH. intros y Hy. apply Hb. now right.
    + apply String.eqb_neq in Hn. rewrite Hn.
      apply IH. intros y Hy. apply Hb. now right.
Qed.

Lemma truthy_str_some s v :
  truthy_str s = Some v <-> s = Some v /\ v <> "".
Proof.
  unfold truthy_str, PyStr.truthy. destruct s as [w |]; [| split; [discriminate | intros [H _]; discriminate]].
  destruct (w =? "") eqn:E; simpl.
  - apply String.eqb_eq in E. subst w. split; [discriminate |].
    intros [[= <-] H]. now elim H.
  - apply String.eqb_neq in E. split.
    + intros [= <-]. auto.
    + intros [[= <-] _]. reflexivity.
Qed.

(** [get_cluster_of_current_context] returns a cluster entry exactly in
    this situation: [current-context] is a non-empty name; [contexts] is
    a list (or absent) whose first entry carrying that name gives, under
    [context.cluster], a non-empty cluster name; [clusters] is a list
    whose first entry carrying that cluster name is the entry returned.
    (Every entry passed over on the way has the key [name].) *)
Theorem get_cluster_returns_the_cluster_of_the_current_context
    (kubeconfig_data : Kubeconfig Payload) (cluster : ClusterEntry Payload) :
  get_cluster_of_current_context Payload kubeconfig_data = inr cluster
  <-> exists name context_entries context_entry context cluster_name
             cluster_entries,
        current_context Payload kubeconfig_data = Some name /\ name <> ""
        /\ get_or [] (contexts Payload kubeconfig_data) = Some context_entries
        /\ first_with_name entry_name context_entries name context_entry
        /\ entry_context context_entry = Value context
        /\ context_cluster context = Some cluster_name /\ cluster_name <> ""
        /\ get_or [] (clusters Payload kubeconfig_data) = Some cluster_entries
        /\ first_with_name (cluster_entry_name Payload)
             cluster_entries cluster_name cluster.
Proof.
  unfold get_cluster_of_current_context. split.
  - destruct (truthy_str (current_context Payload kubeconfig_data))
      as [name |] eqn:Ec; [| discriminate].
    apply truthy_str_some in Ec as [Ec Hne].
    destruct (get_or [] (contexts Payload kubeconfig_data))
      as [ces |] eqn:Ectxs; [| discriminate].
    destruct (first_named entry_name ces name) as [r | [ce |]] eqn:Ef;
      try discriminate.
    apply first_named_found in Ef.
    destruct (entry_context ce) as [| | ctx] eqn:Ectx; cbn [get_or];
      [cbn; discriminate | discriminate |].
    destruct (truthy_str (context_cluster ctx)) as [cn |] eqn:Ecn; [| discriminate].
    apply truthy_str_some in Ecn as [Ecn Hcn].
    destruct (get_or [] (clusters Payload kubeconfig_data))
      as [cls |] eqn:Ecls; [| discriminate].
    destruct (first_named (cluster_entry_name Payload) cls cn) as [r | [c |]] eqn:Eg;
      try discriminate.
    apply first_named_found in Eg.
    intros [= <-]. exists name, ces, ce, ctx, cn, cls. repeat split; auto.
  - intros (name & ces & ce & ctx & cn & cls & Ec & Hne & Ectxs & Hf & Ectx & Ecn
            & Hcn & Ecls & Hg).
    rewrite (proj2 (truthy_str_some _ _) (conj Ec Hne)), Ectxs.
    rewrite (proj2 (first_named_found _ _ _ _) Hf).
    rewrite Ectx. cbn [get_or].
    rewrite (proj2 (truthy_str_some _ _) (conj Ecn Hcn)), Ecls.
    rewrite (proj2 (first_named_found _ _ _ _) Hg).
    reflexivity.
Qed.

(** [K8sError] is the only exception the docstring names.  It is the only
    one raised when no key read holds [null] where a list or a mapping is
    expected and every entry has the key [name]; but a [contexts] or
    [clusters] key that holds [null] makes the function raise
    [TypeError], and a [context] key that holds [null] in the entry of the
    current context makes it raise [AttributeError]. *)
Theorem get_cluster_raises_only_k8s_error (kubeconfig_data : Kubeconfig Payload) :
  ((forall entries,
       get_or [] (contexts Payload kubeconfig_data) = Some entries ->
       forall e, In e entries ->
                 entry_name e <> Absent /\ entry_context e <> Null) ->
   (forall entries,
       get_or [] (clusters Payload kubeconfig_data) = Some entries ->
       forall c, In c entries -> cluster_entry_name Payload c <> Absent) ->
   contexts Payload kubeconfig_data <> Null ->
   clusters Payload kubeconfig_data <> Null ->
   (exists cluster,
       get_cluster_of_current_context Payload kubeconfig_data = inr cluster)
   \/ (exists msg,
         get_cluster_of_current_context Payload kubeconfig_data
         = inl (K8sError msg)))
  /\ (forall name,
        current_context Payload kubeconfig_data = Some name -> name <> "" ->
        contexts Payload kubeconfig_data = Null ->
        get_cluster_of_current_context Payload kubeconfig_data
        = inl (TypeError "'NoneType' object is not iterable"))
  /\ (forall name entries context_entry,
        current_context Payload kubeconfig_data = Some name -> name <> "" ->
        get_or [] (contexts Payload kubeconfig_data) = Some entries ->
        first_with_name entry_name entries name context_entry ->
        (entry_context context_entry = Null ->
         get_cluster_of_current_context Payload kubeconfig_data
         = inl (AttributeError "'NoneType' object has no attribute 'get'"))
        /\ (forall context cluster_name,
              entry_context context_entry = Value context ->
              context_cluster context = Some cluster_name ->
              cluster_name <> "" ->
              clusters Payload kubeconfig_data = Null ->
              get_cluster_of_current_context Payload kubeconfig_data
              = inl (TypeError "'NoneType' object is not iterable"))).
Proof.
  split; [| split].
  - intros Hctx Hcl Hn1 Hn2. unfold get_cluster_of_current_context.
    destruct (truthy_str (current_context Payload kubeconfig_data)) as [name |];
      [| right; eauto].
    destruct (get_or [] (contexts Payload kubeconfig_data)) as [ces |] eqn:Ectxs.
    2: { destruct (contexts Payload kubeconfig_data); try discriminate.
         now elim Hn1. }
    destruct (first_named_of_named entry_name ces name
                (fun x Hx => proj1 (Hctx ces eq_refl x Hx))) as ([ce |] & Ef);
      rewrite Ef; [| right; eauto].
    apply first_named_in in Ef.
    destruct (entry_context ce) as [| | ctx] eqn:Ectx; cbn [get_or];
      [right; cbn; eauto | now elim (proj2 (Hctx ces eq_refl ce Ef)) |].
    destruct (truthy_str _) as [cn |]; [| right; eauto].
    destruct (get_or [] (clusters Payload kubeconfig_data)) as [cls |] eqn:Ecls.
    2: { destruct (clusters Payload kubeconfig_data); try discriminate.
         now elim Hn2. }
    destruct (first_named_of_named (cluster_entry_name Payload) cls cn
                (Hcl cls eq_refl)) as ([c |] & ->); [left | right]; eauto.
  - intros name Hc Hne Hnull. unfold get_cluster_of_current_context.
    now rewrite (proj2 (truthy_str_some _ _) (conj Hc Hne)), Hnull.
  - intros name entries ce Hc Hne Hentries Hf.
    unfold get_cluster_of_current_context.
    rewrite (proj2 (truthy_str_some _ _) (conj Hc Hne)), Hentries.
    rewrite (proj2 (first_named_found _ _ _ _) Hf). split.
    + now intros ->.
    + intros ctx cn -> Hcn Hcne Hnull. cbn [get_or].
      now rewrite (proj2 (truthy_str_some _ _) (conj Hcn Hcne)), Hnull.
Qed.

(** An entry of [contexts] without a [name] key that stands before any
    entry named like the current context makes the function raise
    [KeyError], not [K8sError], even when the wanted context follows. *)
Theorem get_cluster_raises_key_error_on_unnamed_context
    (kubeconfig_data : Kubeconfig Payload) name before e after :
  current_context Payload kubeconfig_data = Some name ->
  name <> "" ->
  contexts Payload kubeconfig_data = Value (before ++ e :: after) ->
  (forall x, In x before ->
             entry_name x = Null
             \/ exists n, entry_name x = Value n /\ n <> name) ->
  entry_name e = Absent ->
  get_cluster_of_current_context Payload kubeconfig_data = inl (KeyError "name").
Proof.
  intros Hc Hne Hl Hb He. unfold get_cluster_of_current_context.
  rewrite (proj2 (truthy_str_some _ _) (conj Hc Hne)), Hl. cbn [get_or].
  now rewrite (first_named_unnamed entry_name before e after name Hb He).
Qed.

End Kubeconfig.

(** * Splitting at a separator *)

Section LnHost.

Lemma split_without_sep s c :
  without_char c s -> PyStr.split s c = [s].
Proof.
  induction s as [| c' s IH]; simpl; [reflexivity |].
  intros [Hc Hs]. apply Ascii.eqb_neq in Hc. rewrite Hc, (IH Hs). reflexivity.
Qed.

Lemma split_at_first_sep s c rest :
  without_char c s ->
  PyStr.split (s +++ String c rest) c = s :: PyStr.split rest c.
Proof.
  induction s as [| c' s IH]; simpl.
  - intros _. now rewrite Ascii.eqb_refl.
  - intros [Hc Hs]. apply Ascii.eqb_neq in Hc. rewrite Hc, (IH Hs). reflexivity.
Qed.

End LnHost.

(** * warnet.py: tanks_from_graph *)

Section TanksFromGraph.
Variable Tank : Type.
Variable from_graph_node : Z -> Tank.
Variable str_of_int : Z -> string.





End TanksFromGraph.

(** * Instances: the theorems at concrete environments *)

(** ** write_file_to_container *)

Lemma write_file_success_run :
  result (k8s.write_file_to_container calm "default"
            "tank-0000" "bitcoincore" "/data/cfg.txt" "hello" (Some "warnet") false)
  = Return (Some true)
  /\ trace (k8s.write_file_to_container calm "default"
              "tank-0000" "bitcoincore" "/data/cfg.txt" "hello" (Some "warnet") false)
     = [LoadKubeConfig;
        Exec {| exec_name := "tank-0000"; exec_namespace := "warnet";
                command := ["sh"; "-c"; "cat > /data/cfg.txt.tmp && sync"];
                container := Some "bitcoincore";
                stderr := true; stdin := true; stdout := true; tty := false;
                preload_content := false |};
        WriteStdin "hello";
        Close;
        Exec {| exec_name := "tank-0000"; exec_namespace := "warnet";
                command := ["sh"; "-c"; "mv /data/cfg.txt.tmp /data/cfg.txt"];
                container := Some "bitcoincore";
                stderr := true; stdin := false; stdout := true; tty := false;
                preload_content := true |};
        Print "Successfully copied data to tank-0000(bitcoincore):/data/cfg.txt"].
Proof.
  split; [reflexivity |].
  destruct (write_file_success_is_write_then_rename calm "default"
              "tank-0000" "bitcoincore" "/data/cfg.txt" "hello" (Some "warnet") false
              eq_refl) as (ns & Hns & Htrace & _).
  injection Hns as <-. exact Htrace.
Defined.

(** C3, as stated, fails: when the pod cannot be reached the call returns
    [None], which is neither [True] nor [False]. *)
Lemma write_file_failure_returns_none :
  result (k8s.write_file_to_container unreachable_pod "default"
            "tank-0000" "bitcoincore" "/data/cfg.txt" "hello" (Some "warnet") false)
  = Return None
  /\ forall b : bool,
       result (k8s.write_file_to_container unreachable_pod "default"
                 "tank-0000" "bitcoincore" "/data/cfg.txt" "hello" (Some "warnet") false)
       <> Return (Some b).
Proof. split; [reflexivity | intros b; discriminate]. Qed.

Lemma write_file_returns_true_or_none_witness :
  result (k8s.get_default_namespace_or unreachable_pod "default" (Some "warnet"))
  = Return "warnet"
  /\ load_kube_config unreachable_pod = None
  /\ result (k8s.write_file_to_container unreachable_pod "default"
               "tank-0000" "bitcoincore" "/data/cfg.txt" "hello" (Some "warnet") false)
     = Return None.
Proof.
  split; [reflexivity | split; [reflexivity |]].
  destruct (write_file_returns_true_or_none unreachable_pod "default"
              "tank-0000" "bitcoincore" "/data/cfg.txt" "hello" (Some "warnet") false
              "warnet" eq_refl eq_refl) as [[Hs _] | (_ & Hr & _)].
  - discriminate Hs.
  - exact Hr.
Defined.

(** ** Readiness waits *)

(** C4, as stated, fails: with no controller pod in the ingress namespace
    [wait_for_ingress_controller] returns false without opening a watch,
    so no time budget is spent. *)
Lemma ingress_wait_returns_at_once :
  k8s.wait_for_ingress_controller (cluster [running_pod "caddy"] []) "ingress" 300
  = ([LoadKubeConfig; ListNamespacedPod "ingress"], Return false)
  /\ ~ In WatchExhausted
          (trace (k8s.wait_for_ingress_controller
                    (cluster [running_pod "caddy"] []) "ingress" 300)).
Proof.
  split; [reflexivity |].
  intros [H | [H | []]]; discriminate.
Qed.

Lemma waits_without_matching_resource_witness :
  load_kube_config (cluster [running_pod "caddy"] [running_pod "tank-0001"]) = None
  /\ k8s.wait_for_pod_ready (cluster [running_pod "caddy"] [running_pod "tank-0001"])
       "tank-0000" "warnet" 300
     = ([LoadKubeConfig; WatchOpen "warnet" 300;
         WatchEvent (running_pod "tank-0001");
         WatchExhausted; Print "Timeout waiting for pod tank-0000 to be ready."],
        Return false)
  /\ k8s.wait_for_ingress_controller
       (cluster [running_pod "caddy"] [running_pod "tank-0001"]) "ingress" 300
     = ([LoadKubeConfig; ListNamespacedPod "ingress"], Return false).
Proof.
  split; [reflexivity |].
  destruct (waits_without_matching_resource
              (cluster [running_pod "caddy"] [running_pod "tank-0001"])
              "ingress" "tank-0000" "warnet" 300 eq_refl) as [Hpod Hingress].
  split.
  - apply Hpod; [| reflexivity].
    intros p [<- | []]. discriminate.
  - apply (Hingress [running_pod "caddy"]); [reflexivity |].
    intros p [<- | []]. reflexivity.
Defined.

Lemma wait_for_pod_ready_witness :
  load_kube_config
    (cluster [] [pending_pod "tank-0000"; unready_pod "tank-0000";
                 running_pod "tank-0001"; running_pod "tank-0000";
                 pending_pod "tank-0002"]) = None
  /\ k8s.wait_for_pod_ready
       (cluster [] [pending_pod "tank-0000"; unready_pod "tank-0000";
                    running_pod "tank-0001"; running_pod "tank-0000";
                    pending_pod "tank-0002"])
       "tank-0000" "warnet" 300
     = ([LoadKubeConfig; WatchOpen "warnet" 300;
         WatchEvent (pending_pod "tank-0000");
         WatchEvent (unready_pod "tank-0000");
         WatchEvent (running_pod "tank-0001");
         WatchEvent (running_pod "tank-0000");
         WatchStop],
        Return true).
Proof.
  split; [reflexivity |].
  assert (Hset : forall pod,
             In pod [pending_pod "tank-0000"; unready_pod "tank-0000";
                     running_pod "tank-0001"; running_pod "tank-0000";
                     pending_pod "tank-0002"] ->
             NoDup (map condition_type (conditions_of pod))).
  { intros pod Hin.
    assert (Hpair : forall a b : string, a <> b -> NoDup [a; b]).
    { intros a b Hab. constructor.
      - intros [H | []]. now apply Hab.
      - constructor; [intros [] | constructor]. }
    destruct Hin as [<- | [<- | [<- | [<- | [<- | []]]]]]; cbn;
      first [apply NoDup_nil | apply Hpair; discriminate]. }
  destruct (wait_for_pod_ready_first_ready_event
              (cluster [] [pending_pod "tank-0000"; unready_pod "tank-0000";
                           running_pod "tank-0001"; running_pod "tank-0000";
                           pending_pod "tank-0002"])
              "tank-0000" "warnet" 300 eq_refl Hset) as [Hstop _].
  apply (Hstop [pending_pod "tank-0000"; unready_pod "tank-0000";
                running_pod "tank-0001"]
               (running_pod "tank-0000") [pending_pod "tank-0002"]).
  - reflexivity.
  - intros p [<- | [<- | [<- | []]]] (Hname & Hphase & c & Hin & Ht & Hs).
    + discriminate Hphase.
    + destruct Hin as [<- | [<- | []]]; discriminate.
    + discriminate Hname.
  - repeat split.
    exists {| condition_type := "Ready"; condition_status := "True" |}.
    repeat split. right. left. reflexivity.
Defined.

(** C8, as stated, fails: with [quiet] set the timeout is not logged. *)
Lemma quiet_wait_for_init_logs_nothing :
  k8s.wait_for_init (cluster [] [pending_pod "alpha"]) "default"
    "alpha" 2 (Some "warnet") true
  = ([LoadKubeConfig; WatchOpen "warnet" 2; WatchEvent (pending_pod "alpha");
      WatchExhausted],
     Return false)
  /\ printed (trace (k8s.wait_for_init (cluster [] [pending_pod "alpha"]) "default"
                       "alpha" 2 (Some "warnet") true)) = [].
Proof. split; reflexivity. Qed.

Lemma wait_for_init_witness :
  named "alpha" (pending_pod "alpha")
  /\ k8s.init_statuses_populated (pending_pod "alpha") = false
  /\ result (k8s.get_default_namespace_or (cluster [] [pending_pod "alpha"])
               "default" (Some "warnet")) = Return "warnet"
  /\ k8s.wait_for_init (cluster [] [pending_pod "alpha"]) "default"
       "alpha" 2 (Some "warnet") false
     = ([LoadKubeConfig; WatchOpen "warnet" 2; WatchEvent (pending_pod "alpha");
         WatchExhausted;
         Print "Timeout waiting for initContainer in alpha (warnet) to be ready."],
        Return false).
Proof.
  repeat (split; [reflexivity |]).
  destruct (wait_for_init_skips_and_times_out (cluster [] [pending_pod "alpha"])
              "default" "alpha" 2 (Some "warnet") false) as [_ Htimeout].
  apply (Htimeout "warnet"); try reflexivity.
  intros p [<- | []] _ (statuses & s & Hs & _). discriminate.
Defined.

(** ** snapshot_bitcoin_datadir *)

Example snapshot_calm_commands :
  exec_commands
    (trace (k8s.snapshot_bitcoin_datadir calm "default" example_path_div
              "tank-0000" "regtest" "snapshots" None (Some "warnet")))
  = [ ["find"; "/root/.bitcoin/regtest"];
      ["tar"; "-czf"; "/tmp/bitcoin_data.tar.gz"; "-C"; "/root/.bitcoin/regtest";
       "blocks"; "chainstate"];
      ["rm"; "/tmp/bitcoin_data.tar.gz"] ].
Proof. reflexivity. Qed.



Lemma empty_find_output_witness :
  result (k8s.get_default_namespace_or nothing_found "default" (Some "warnet"))
  = Return "warnet"
  /\ result (k8s.drain_find [Chunk "" ""] []) = Return []
  /\ k8s.snapshot_bitcoin_datadir nothing_found "default" example_path_div
       "tank-0000" "regtest" "snapshots" (Some ["*.dat"]) (Some "warnet")
     = ([LoadKubeConfig;
         ReadNamespacedPod "tank-0000" "warnet";
         Exec (k8s.exec_request "tank-0000" "warnet"
                 ["find"; "/root/.bitcoin/regtest";
                  "("; "-type"; "f"; "-o"; "-type"; "d"; ")";
                  "("; "-name"; "*.dat"; ")"] None false false);
         Update;
         Close;
         Print "No matching files or directories found."],
        Return tt).
Proof.
  split; [reflexivity | split; [reflexivity |]].
  exact (proj1 (empty_find_output_stops_pipeline nothing_found "default"
                  example_path_div "tank-0000" "regtest" "snapshots" (Some ["*.dat"])
                  (Some "warnet") "warnet" (running_pod "tank-0000")
                  {| polls := [Chunk "" ""]; write_stdin_error := None;
                     close_error := None |}
                  eq_refl eq_refl eq_refl eq_refl eq_refl eq_refl)).
Defined.

(** C7, as stated, fails: a symbolic link whose name matches a pattern is
    not selected, because the command also requires [-type f] or
    [-type d]. *)
Lemma find_skips_matching_symlink :
  existsb (fun pattern => String.eqb pattern "blocks") ["peers.dat"; "blocks"] = true
  /\ findutils.selects String.eqb
       (k8s.find_command "regtest" (Some ["peers.dat"; "blocks"]))
       {| findutils.entry_name := "blocks";
          findutils.entry_type := findutils.SymbolicLink |}
     = Some false.
Proof. split; reflexivity. Qed.

Lemma tar_arguments_witness :
  In (Exec (k8s.exec_request "tank-0000" "warnet"
              ["tar"; "-czf"; "/tmp/bitcoin_data.tar.gz"; "-C"; "/root/.bitcoin/regtest";
               "blocks"; "chainstate"] None false false))
     (trace (k8s.snapshot_bitcoin_datadir calm "default" example_path_div
               "tank-0000" "regtest" "snapshots" None (Some "warnet")))
  /\ exists ns resp file_list rel,
       exec_session calm (k8s.exec_request "tank-0000" ns
                            (k8s.find_command "regtest" None) None false false)
       = ApiOk resp
       /\ result (k8s.drain_find (polls resp) []) = Return file_list
       /\ ["tar"; "-czf"; "/tmp/bitcoin_data.tar.gz"; "-C"; "/root/.bitcoin/regtest";
           "blocks"; "chainstate"]
          = ["tar"; "-czf"; "/tmp/bitcoin_data.tar.gz"; "-C";
             "/root/.bitcoin/" +++ "regtest"] ++ rel
       /\ Forall2 (fun f r =>
                     posixpath.relpath (getcwd calm) f ("/root/.bitcoin/" +++ "regtest")
                     = Some r)
                  (filter not_blank file_list) rel
       /\ Forall (fun r => posixpath.isabs r = false) rel.
Proof.
  assert (Hin : In (Exec (k8s.exec_request "tank-0000" "warnet"
                            ["tar"; "-czf"; "/tmp/bitcoin_data.tar.gz"; "-C";
                             "/root/.bitcoin/regtest"; "blocks"; "chainstate"]
                            None false false))
                   (trace (k8s.snapshot_bitcoin_datadir calm "default" example_path_div
                             "tank-0000" "regtest" "snapshots" None (Some "warnet")))).
  { vm_compute. repeat first [left; reflexivity | right]. }
  split; [exact Hin |].
  exact (tar_arguments_are_relative calm "default" example_path_div
           "tank-0000" "regtest" "snapshots" None (Some "warnet") _ Hin eq_refl).
Defined.

(** C10, as stated, fails: the namespace is resolved and the client
    configuration loaded before the [try].  Without [kubectl],
    [get_default_namespace] ends the process with [sys.exit(1)]; without a
    kubeconfig, [get_static_client] raises.  Neither is caught. *)
Lemma snapshot_raises_before_try :
  result (k8s.snapshot_bitcoin_datadir no_kubectl "default" example_path_div
            "tank-0000" "regtest" "snapshots" None None)
  = Raise (SystemExit 1)
  /\ result (k8s.snapshot_bitcoin_datadir no_kubeconfig "default" example_path_div
               "tank-0000" "regtest" "snapshots" None (Some "warnet"))
     = Raise (Exception "Invalid kube-config file. No configuration found.").
Proof. split; reflexivity. Qed.

Lemma snapshot_returns_none_witness :
  result (k8s.get_default_namespace_or copy_fails "default" (Some "warnet"))
  = Return "warnet"
  /\ load_kube_config copy_fails = None
  /\ result (k8s.snapshot_bitcoin_datadir copy_fails "default" example_path_div
               "tank-0000" "regtest" "snapshots" None (Some "warnet")) = Return tt
  /\ result (k8s.snapshot_bitcoin_datadir calm "default" example_path_div
               "tank-0000" "regtest" "snapshots" None (Some "warnet"))
     = result (k8s.snapshot_bitcoin_datadir copy_fails "default" example_path_div
                 "tank-0000" "regtest" "snapshots" None (Some "warnet")).
Proof.
  split; [reflexivity | split; [reflexivity |]].
  destruct (snapshot_returns_none_once_set_up copy_fails "default" example_path_div
              "tank-0000" "regtest" "snapshots" None (Some "warnet") "warnet"
              eq_refl eq_refl) as [Hnone Hsame].
  split; [exact Hnone |].
  exact (Hsame calm "warnet" eq_refl eq_refl).
Defined.

(** ** Further properties *)

Lemma get_default_namespace_exits_witness :
  cp_returncode
    (subprocess_run no_kubectl
       "kubectl config view --minify -o jsonpath='{..namespace}'") <> 0%Z
  /\ k8s.get_default_namespace no_kubectl "default"
     = ([SubprocessRun "kubectl config view --minify -o jsonpath='{..namespace}'";
         Print "bash: kubectl: command not found";
         Print k8s.kubectl_missing_hint],
        Raise (SystemExit 1)).
Proof.
  assert (H : cp_returncode
                (subprocess_run no_kubectl
                   "kubectl config view --minify -o jsonpath='{..namespace}'")
              <> 0%Z) by discriminate.
  split; [exact H |].
  exact (get_default_namespace_exits no_kubectl "default" H).
Defined.

Lemma pod_is_ready_when_types_unique_witness :
  NoDup (map condition_type (conditions_of (running_pod "tank-0000")))
  /\ (k8s.pod_is_ready "tank-0000" (running_pod "tank-0000") = true
      <-> named "tank-0000" (running_pod "tank-0000")
          /\ running_phase (running_pod "tank-0000")
          /\ carries_ready_true (running_pod "tank-0000")).
Proof.
  assert (H : NoDup (map condition_type (conditions_of (running_pod "tank-0000")))).
  { simpl. repeat constructor; simpl; intuition discriminate. }
  split; [exact H |].
  exact (pod_is_ready_when_types_unique "tank-0000" (running_pod "tank-0000") H).
Defined.

(** * k8s.py: the remaining calls to the cluster *)

Lemma lift_return {A} (m : M A) (a : A) :
  result m = Return a -> api.lift m = (map api.Did (trace m), api.Returned a).
Proof. unfold api.lift. now intros ->. Qed.

Lemma events_bind {A B} (m : api.Run A) (k : A -> api.Run B) :
  api.events (api.bind m k)
  = api.events m ++ match api.outcome_of m with
                    | api.Returned a => api.events (k a)
                    | api.Raised _ => []
                    end.
Proof.
  destruct m as [t [a | e]]; cbn; [now destruct (k a) | now rewrite app_nil_r].
Qed.

Lemma outcome_bind {A B} (m : api.Run A) (k : A -> api.Run B) :
  api.outcome_of (api.bind m k)
  = match api.outcome_of m with
    | api.Returned a => api.outcome_of (k a)
    | api.Raised e => api.Raised e
    end.
Proof. destruct m as [t [a | e]]; cbn; [now destruct (k a) | reflexivity]. Qed.

Lemma bind_returned {A B} t (a : A) (k : A -> api.Run B) :
  api.bind (t, api.Returned a) k = (t ++ api.events (k a), api.outcome_of (k a)).
Proof. cbn. now destruct (k a). Qed.

Lemma events_lift {A} (m : M A) : api.events (api.lift m) = map api.Did (trace m).
Proof. reflexivity. Qed.

Lemma get_static_client_ok (W : World) :
  load_kube_config W = None ->
  k8s.get_static_client W = ([LoadKubeConfig], Return tt).
Proof. unfold k8s.get_static_client. now intros ->. Qed.

Lemma status_reads_app t1 t2 :
  status_reads (t1 ++ t2) = status_reads t1 + status_reads t2.
Proof. unfold status_reads. now rewrite filter_app, length_app. Qed.

Lemma seconds_slept_app t1 t2 :
  seconds_slept (t1 ++ t2) = (seconds_slept t1 + seconds_slept t2)%Z.
Proof.
  unfold seconds_slept. induction t1 as [| ev t1 IH]; simpl; [reflexivity |].
  rewrite IH. destruct ev; lia.
Qed.

Lemma status_reads_did (t : list action) : status_reads (map api.Did t) = 0.
Proof. unfold status_reads. induction t; simpl; auto. Qed.

Lemma seconds_slept_did (t : list action) : seconds_slept (map api.Did t) = 0%Z.
Proof. unfold seconds_slept. induction t; simpl; auto. Qed.

Section ClusterCalls.
Variable C : Cluster.
Variable DEFAULT_NAMESPACE : string.

Section Namespaces.
Variable KUBE_INTERNAL_NAMESPACES : list string.

(** [get_namespaces], once the client configuration loads.  When the list
    call succeeds it returns the namespaces listed, in order, without the
    internal ones.  When the list call is refused with status 403 it
    returns the one namespace read under the default name, whether
    internal or not.  When the list call fails with any other status it
    returns the empty list, as for a cluster with no namespace. *)
Theorem get_namespaces_outcomes :
  load_kube_config (base C) = None ->
  (forall items,
      list_namespace C = api.Answer items ->
      k8s_calls.get_namespaces C DEFAULT_NAMESPACE KUBE_INTERNAL_NAMESPACES
      = ([api.Did LoadKubeConfig; api.ListNamespace],
         api.Returned
           (filter (fun ns => negb (existsb (String.eqb (namespace_name ns))
                                            KUBE_INTERNAL_NAMESPACES)) items))
      /\ forall ns,
           In ns (filter (fun ns => negb (existsb (String.eqb (namespace_name ns))
                                                  KUBE_INTERNAL_NAMESPACES)) items) ->
           In ns items /\ ~ In (namespace_name ns) KUBE_INTERNAL_NAMESPACES)
  /\ (forall msg name ns,
        list_namespace C = api.Refused 403 msg ->
        result (k8s.get_default_namespace (base C) DEFAULT_NAMESPACE) = Return name ->
        read_namespace C name = api.Answer ns ->
        api.outcome_of
          (k8s_calls.get_namespaces C DEFAULT_NAMESPACE KUBE_INTERNAL_NAMESPACES)
        = api.Returned [ns])
  /\ (forall status msg,
        list_namespace C = api.Refused status msg ->
        status <> 403%Z ->
        k8s_calls.get_namespaces C DEFAULT_NAMESPACE KUBE_INTERNAL_NAMESPACES
        = ([api.Did LoadKubeConfig; api.ListNamespace], api.Returned [])).
Proof.
  intros Hcfg.
  unfold k8s_calls.get_namespaces, k8s_calls.get_static_client.
  rewrite (lift_return _ tt (f_equal snd (get_static_client_ok _ Hcfg))).
  rewrite (get_static_client_ok _ Hcfg). cbn [trace fst map].
  split; [| split].
  - intros items ->. split; [reflexivity |].
    intros ns Hin. apply filter_In in Hin as [Hin Hn]. split; [exact Hin |].
    intros Hm. apply negb_true_iff in Hn.
    assert (Ht : existsb (String.eqb (namespace_name ns)) KUBE_INTERNAL_NAMESPACES
                 = true).
    { apply existsb_exists. exists (namespace_name ns).
      split; [exact Hm | apply String.eqb_refl]. }
    unfold k8s_calls.member in Hn. rewrite Ht in Hn. discriminate.
  - intros msg name ns -> Hname Hread.
    unfold k8s_calls.get_default_namespace.
    rewrite (lift_return _ name Hname). cbn. rewrite Hread. reflexivity.
  - intros status msg -> Hs. apply Z.eqb_neq in Hs. cbn. rewrite Hs. reflexivity.
Qed.

End Namespaces.

(** [get_pod_exit_status], once the namespace is resolved and the client
    configuration loads.  It returns the exit code of the first container
    reported as terminated, and [None] when no container is.  A refusal
    of the API is printed and gives [None] as well.  A pod that has no
    container statuses yet makes the function raise [TypeError]: the
    handler catches [ApiException] only. *)
Theorem get_pod_exit_status_outcomes pod_name namespace ns :
  result (k8s.get_default_namespace_or (base C) DEFAULT_NAMESPACE namespace)
  = Return ns ->
  load_kube_config (base C) = None ->
  let run := k8s_calls.get_pod_exit_status C DEFAULT_NAMESPACE pod_name namespace in
  (forall before s t after,
      pod_container_statuses C pod_name ns
      = api.Answer (Some (before ++ s :: after)) ->
      (forall x, In x before -> not_terminated x) ->
      state_terminated s = Some t ->
      api.outcome_of run = api.Returned (Some (exit_code t)))
  /\ (forall statuses,
        pod_container_statuses C pod_name ns = api.Answer (Some statuses) ->
        (forall x, In x statuses -> not_terminated x) ->
        api.outcome_of run = api.Returned None)
  /\ (forall status msg,
        pod_container_statuses C pod_name ns = api.Refused status msg ->
        api.outcome_of run = api.Returned None
        /\ last (api.events run) api.ListNamespace
           = api.Did (Print ("Exception when calling CoreV1Api->read_namespaced_pod: "
                             +++ msg)))
  /\ (pod_container_statuses C pod_name ns = api.Answer None ->
      api.outcome_of run
      = api.Raised (api.TypeError "'NoneType' object is not iterable")).
Proof.
  intros Hns Hcfg run. subst run.
  unfold k8s_calls.get_pod_exit_status, k8s_calls.get_default_namespace_or,
    k8s_calls.get_static_client.
  rewrite (lift_return _ ns Hns).
  rewrite (lift_return _ tt (f_equal snd (get_static_client_ok _ Hcfg))).
  rewrite (get_static_client_ok _ Hcfg). cbn [trace fst map].
  assert (Hft : forall before s t after,
             (forall x, In x before -> not_terminated x) ->
             state_terminated s = Some t ->
             k8s_calls.first_terminated (before ++ s :: after) = Some (exit_code t)).
  { intros before s t after Hb Hs. induction before as [| b before IH]; simpl.
    - now rewrite Hs.
    - rewrite (Hb b (or_introl eq_refl)). apply IH. intros x Hx. apply Hb. now right. }
  assert (Hnone : forall statuses,
             (forall x, In x statuses -> not_terminated x) ->
             k8s_calls.first_terminated statuses = None).
  { intros statuses Hb. induction statuses as [| b statuses IH]; simpl; auto.
    rewrite (Hb b (or_introl eq_refl)). apply IH. intros x Hx. apply Hb. now right. }
  split; [| split; [| split]].
  - intros before s t after Ha Hb Hs. cbn. rewrite Ha. cbn.
    now rewrite (Hft before s t after Hb Hs).
  - intros statuses Ha Hb. cbn. rewrite Ha. cbn. now rewrite (Hnone statuses Hb).
  - intros status msg Ha. cbn. rewrite Ha. cbn. split; [reflexivity |].
    match goal with
    | |- last (?l ++ [?a; ?b; ?c]) _ = _ =>
        change [a; b; c] with ([a; b] ++ [c]); rewrite app_assoc; apply last_last
    end.
  - intros Ha. cbn. rewrite Ha. reflexivity.
Qed.

Lemma wait_for_pod_loop_bounds pod_name ns remaining : forall poll,
  status_reads
    (api.events (k8s_calls.wait_for_pod_loop C remaining poll pod_name ns))
  <= remaining
  /\ (0 <= seconds_slept
             (api.events (k8s_calls.wait_for_pod_loop C remaining poll pod_name ns))
       <= Z.of_nat remaining)%Z.
Proof.
  induction remaining as [| remaining IH]; intros poll; cbn [k8s_calls.wait_for_pod_loop].
  - cbn. lia.
  - destruct (pod_phase_at C poll pod_name ns) as [phase | status msg].
    2: { cbn -[Z.of_nat Z.add]. lia. }
    specialize (IH (S poll)).
    cbn [api.bind api.perform api.of_answer api.ret].
    destruct phase as [p |]; [destruct (p =? "Pending") |];
      try (cbn -[Z.of_nat Z.add]; lia).
    destruct (k8s_calls.wait_for_pod_loop C remaining (S poll) pod_name ns)
      as [t r].
    cbn -[Z.of_nat Z.add] in IH |- *. lia.
Qed.

Lemma wait_for_pod_loop_leaves pod_name ns k : forall remaining poll phase,
  k < remaining ->
  (forall i, i < k ->
             pod_phase_at C (poll + i) pod_name ns = api.Answer (Some "Pending")) ->
  pod_phase_at C (poll + k) pod_name ns = api.Answer phase ->
  ~ pending phase ->
  let run := k8s_calls.wait_for_pod_loop C remaining poll pod_name ns in
  api.outcome_of run = api.Returned tt
  /\ status_reads (api.events run) = S k
  /\ seconds_slept (api.events run) = Z.of_nat k.
Proof.
  induction k as [| k IH]; intros remaining poll phase Hk Hpend Hphase Hnot;
    (destruct remaining as [| remaining]; [lia |]);
    cbn [k8s_calls.wait_for_pod_loop].
  - rewrite Nat.add_0_r in Hphase. rewrite Hphase.
    assert (Hn : negb match phase with Some p => p =? "Pending" | None => false end
                 = true).
    { destruct phase as [p |]; [| reflexivity].
      apply negb_true_iff, String.eqb_neq. intros ->. now apply Hnot. }
    cbn. rewrite Hn. cbn. auto.
  - pose proof (Hpend 0 ltac:(lia)) as H0. rewrite Nat.add_0_r in H0. rewrite H0.
    destruct (IH remaining (S poll) phase ltac:(lia)) as (Ho & Hr & Hs); auto.
    + intros i Hi. replace (S poll + i) with (poll + S i) by lia.
      apply Hpend. lia.
    + now replace (S poll + k) with (poll + S k) by lia.
    + destruct (k8s_calls.wait_for_pod_loop C remaining (S poll) pod_name ns)
        as [t r].
      cbn -[Z.of_nat Z.add] in Ho, Hr, Hs |- *. subst r. rewrite Hr, Hs.
      repeat split. lia.
Qed.

Lemma wait_for_pod_loop_pending pod_name ns remaining : forall poll,
  (forall i, i < remaining ->
             pod_phase_at C (poll + i) pod_name ns = api.Answer (Some "Pending")) ->
  let run := k8s_calls.wait_for_pod_loop C remaining poll pod_name ns in
  api.outcome_of run = api.Returned tt
  /\ status_reads (api.events run) = remaining
  /\ seconds_slept (api.events run) = Z.of_nat remaining.
Proof.
  induction remaining as [| remaining IH]; intros poll Hpend;
    cbn [k8s_calls.wait_for_pod_loop].
  - cbn. auto.
  - pose proof (Hpend 0 ltac:(lia)) as H0. rewrite Nat.add_0_r in H0. rewrite H0.
    destruct (IH (S poll)) as (Ho & Hr & Hs).
    + intros i Hi. replace (S poll + i) with (poll + S i) by lia.
      apply Hpend. lia.
    + destruct (k8s_calls.wait_for_pod_loop C remaining (S poll) pod_name ns)
        as [t r].
      cbn -[Z.of_nat Z.add] in Ho, Hr, Hs |- *. subst r. rewrite Hr, Hs.
      repeat split. lia.
Qed.

(** Whatever the cluster answers, [wait_for_pod] reads the pod status at
    most [timeout_seconds] times and sleeps at most [timeout_seconds]
    seconds in all; with a timeout of zero or less it reads nothing. *)
Theorem wait_for_pod_is_bounded pod_name timeout_seconds namespace :
  let run := k8s_calls.wait_for_pod C DEFAULT_NAMESPACE
               pod_name timeout_seconds namespace in
  (Z.of_nat (status_reads (api.events run)) <= Z.max 0 timeout_seconds)%Z
  /\ (0 <= seconds_slept (api.events run) <= Z.max 0 timeout_seconds)%Z.
Proof.
  cbv zeta. unfold k8s_calls.wait_for_pod, k8s_calls.get_default_namespace_or,
    k8s_calls.get_static_client.
  rewrite !events_bind, !events_lift, !status_reads_app, !seconds_slept_app,
    !status_reads_did, !seconds_slept_did.
  destruct (api.outcome_of (api.lift (k8s.get_default_namespace_or (base C)
                                        DEFAULT_NAMESPACE namespace)))
    as [ns | e]; [| cbn; lia].
  rewrite !events_bind, !events_lift, !status_reads_app, !seconds_slept_app,
    !status_reads_did, !seconds_slept_did.
  destruct (api.outcome_of (api.lift (k8s.get_static_client (base C))))
    as [[] | e]; [| cbn; lia].
  pose proof (wait_for_pod_loop_bounds pod_name ns (Z.to_nat timeout_seconds) 0)
    as [Hr Hs].
  lia.
Qed.

(** [wait_for_pod], once the namespace is resolved and the client
    configuration loads.  If the pod is Pending at the first [k] reads and
    in another phase at the next one, with [k] below the timeout, the
    function returns after [k + 1] reads and [k] seconds of sleep.  If the
    pod is Pending at every read, it returns after as many reads and
    seconds as the timeout.  The value returned is the same [None]. *)
Theorem wait_for_pod_returns_on_phase_or_timeout
    pod_name timeout_seconds namespace ns :
  result (k8s.get_default_namespace_or (base C) DEFAULT_NAMESPACE namespace)
  = Return ns ->
  load_kube_config (base C) = None ->
  let run := k8s_calls.wait_for_pod C DEFAULT_NAMESPACE
               pod_name timeout_seconds namespace in
  (forall k phase,
      (Z.of_nat k < timeout_seconds)%Z ->
      (forall i, i < k ->
                 pod_phase_at C i pod_name ns = api.Answer (Some "Pending")) ->
      pod_phase_at C k pod_name ns = api.Answer phase ->
      ~ pending phase ->
      api.outcome_of run = api.Returned tt
      /\ status_reads (api.events run) = S k
      /\ seconds_slept (api.events run) = Z.of_nat k)
  /\ ((forall i, (Z.of_nat i < timeout_seconds)%Z ->
                 pod_phase_at C i pod_name ns = api.Answer (Some "Pending")) ->
      api.outcome_of run = api.Returned tt
      /\ Z.of_nat (status_reads (api.events run)) = Z.max 0 timeout_seconds
      /\ seconds_slept (api.events run) = Z.max 0 timeout_seconds).
Proof.
  intros Hns Hcfg run.
  assert (Hshape :
            api.outcome_of run
            = api.outcome_of (k8s_calls.wait_for_pod_loop C
                                (Z.to_nat timeout_seconds) 0 pod_name ns)
            /\ status_reads (api.events run)
               = status_reads
                   (api.events (k8s_calls.wait_for_pod_loop C
                                  (Z.to_nat timeout_seconds) 0 pod_name ns))
            /\ seconds_slept (api.events run)
               = seconds_slept
                   (api.events (k8s_calls.wait_for_pod_loop C
                                  (Z.to_nat timeout_seconds) 0 pod_name ns))).
  { subst run.
    unfold k8s_calls.wait_for_pod, k8s_calls.get_default_namespace_or,
      k8s_calls.get_static_client.
    rewrite (lift_return _ ns Hns).
    rewrite (lift_return _ tt (f_equal snd (get_static_client_ok _ Hcfg))).
    rewrite !outcome_bind, !events_bind.
    cbn [api.events api.outcome_of fst snd].
    rewrite !outcome_bind, !events_bind.
    cbn [api.events api.outcome_of fst snd].
    rewrite !status_reads_app, !seconds_slept_app, !status_reads_did,
      !seconds_slept_did.
    repeat split. }
  destruct Hshape as (-> & -> & ->). clearbody run.
  split.
  - intros k phase Hk Hpend Hphase Hnot.
    apply (wait_for_pod_loop_leaves pod_name ns k (Z.to_nat timeout_seconds) 0 phase);
      auto. lia.
  - intros Hpend.
    destruct (wait_for_pod_loop_pending pod_name ns (Z.to_nat timeout_seconds) 0)
      as (Ho & Hr & Hs).
    + intros i Hi. apply Hpend. lia.
    + rewrite Ho, Hr, Hs. repeat split; lia.
Qed.

(** [can_delete_pods], once the namespace is resolved and the client
    configuration loads, never raises an [ApiException]: it returns the
    [allowed] flag of the access review, and [False] when the review call
    is refused, which the caller cannot tell from a denial. *)
Theorem can_delete_pods_outcomes namespace ns :
  result (k8s.get_default_namespace_or (base C) DEFAULT_NAMESPACE namespace)
  = Return ns ->
  load_kube_config (base C) = None ->
  let run := k8s_calls.can_delete_pods C DEFAULT_NAMESPACE namespace in
  api.outcome_of run
  = api.Returned match access_review C ns "delete" "pods" with
                 | api.Answer allowed => allowed
                 | api.Refused _ _ => false
                 end
  /\ last (api.events run) api.ListNamespace
     = api.Did (Print match access_review C ns "delete" "pods" with
                      | api.Answer true =>
                          "Service account can delete pods in namespace '"
                          +++ ns +++ "'."
                      | api.Answer false =>
                          "Service account CANNOT delete pods in namespace '"
                          +++ ns +++ "'."
                      | api.Refused _ msg => "An error occurred: " +++ msg
                      end).
Proof.
  intros Hns Hcfg run. subst run.
  unfold k8s_calls.can_delete_pods, k8s_calls.get_default_namespace_or,
    k8s_calls.get_static_client.
  rewrite (lift_return _ ns Hns).
  rewrite (lift_return _ tt (f_equal snd (get_static_client_ok _ Hcfg))).
  rewrite (get_static_client_ok _ Hcfg). cbn [trace fst map].
  rewrite !outcome_bind, !events_bind. cbn [api.events api.outcome_of fst snd].
  rewrite !outcome_bind, !events_bind. cbn [api.events api.outcome_of fst snd].
  destruct (access_review C ns "delete" "pods") as [[|] | status msg]; cbn;
    (split; [reflexivity |]);
    match goal with
    | |- last (?l ++ [?a; ?b; ?c]) _ = _ =>
        change [a; b; c] with ([a; b] ++ [c]); rewrite app_assoc; apply last_last
    end.
Qed.

Section Ingress.
Variable CADDY_INGRESS_NAME LOGGING_NAMESPACE : string.

(** [get_ingress_ip_or_host], once the default kubeconfig loads, never
    raises.  It returns the hostname of the first load-balancer entry when
    that is a non-empty string and the entry's IP otherwise; it returns
    [None] when the ingress has no entry or cannot be read. *)
Theorem get_ingress_ip_or_host_outcomes :
  load_default_kube_config C = None ->
  let run := k8s_calls.get_ingress_ip_or_host C CADDY_INGRESS_NAME LOGGING_NAMESPACE in
  (forall first others h,
      read_namespaced_ingress C CADDY_INGRESS_NAME LOGGING_NAMESPACE
      = api.Answer (Some (first :: others)) ->
      hostname first = Some h -> h <> "" ->
      api.outcome_of run = api.Returned (Some h))
  /\ (forall first others,
        read_namespaced_ingress C CADDY_INGRESS_NAME LOGGING_NAMESPACE
        = api.Answer (Some (first :: others)) ->
        hostname first = None \/ hostname first = Some "" ->
        api.outcome_of run = api.Returned (ip first))
  /\ (read_namespaced_ingress C CADDY_INGRESS_NAME LOGGING_NAMESPACE
      = api.Answer None
      \/ read_namespaced_ingress C CADDY_INGRESS_NAME LOGGING_NAMESPACE
         = api.Answer (Some [])
      \/ (exists status msg,
            read_namespaced_ingress C CADDY_INGRESS_NAME LOGGING_NAMESPACE
            = api.Refused status msg) ->
      api.outcome_of run = api.Returned None).
Proof.
  intros Hcfg run. subst run. unfold k8s_calls.get_ingress_ip_or_host.
  rewrite Hcfg. rewrite !outcome_bind. cbn [api.outcome_of api.perform api.ret snd].
  split; [| split].
  - intros first others h Ha Hh Hne. rewrite Ha. cbn.
    unfold k8s_calls.nonempty, PyStr.truthy. rewrite Hh.
    apply String.eqb_neq in Hne. rewrite Hne. reflexivity.
  - intros first others Ha Hh. rewrite Ha. cbn.
    unfold k8s_calls.nonempty. destruct Hh as [-> | ->]; reflexivity.
  - intros [Ha | [Ha | (status & msg & Ha)]]; rewrite Ha; reflexivity.
Qed.

End Ingress.

Lemma get_mission_loop_labelled mission pods : forall crew,
  (forall p, In p pods -> labels p <> None) ->
  k8s_calls.get_mission_loop mission pods crew
  = ([], api.Returned (crew ++ filter (on_mission mission) pods)).
Proof.
  induction pods as [| p pods IH]; intros crew Hl; cbn [k8s_calls.get_mission_loop].
  - now rewrite app_nil_r.
  - cbn [filter]. unfold on_mission at 1.
    destruct (labels p) as [d |] eqn:Ed;
      [| now elim (Hl p (or_introl eq_refl))].
    destruct (network.dict_get d "mission") as [v |].
    + destruct (v =? mission).
      * rewrite IH by (intros x Hx; apply Hl; now right).
        now rewrite <- app_assoc.
      * apply IH. intros x Hx. apply Hl. now right.
    + apply IH. intros x Hx. apply Hl. now right.
Qed.

Lemma get_mission_loop_unlabelled mission before p after : forall crew,
  (forall x, In x before -> labels x <> None) ->
  labels p = None ->
  k8s_calls.get_mission_loop mission (before ++ p :: after) crew
  = ([], api.Raised (api.TypeError "argument of type 'NoneType' is not iterable")).
Proof.
  induction before as [| b before IH]; intros crew Hl Hp;
    cbn [app k8s_calls.get_mission_loop].
  - now rewrite Hp.
  - destruct (labels b) as [d |] eqn:Ed;
      [| now elim (Hl b (or_introl eq_refl))].
    destruct (network.dict_get d "mission") as [v |];
      [destruct (v =? mission) |];
      apply IH; auto; intros x Hx; apply Hl; now right.
Qed.

Section Pods.
Variable KUBE_INTERNAL_NAMESPACES : list string.

(** [get_mission] returns, in the order of [get_pods], exactly the pods
    whose labels map [mission] to the value asked for; but a single pod
    without labels among those of [get_pods] makes it raise [TypeError],
    whatever the other pods are. *)
Theorem get_mission_outcomes mission pods :
  api.outcome_of (k8s_calls.get_pods C DEFAULT_NAMESPACE KUBE_INTERNAL_NAMESPACES)
  = api.Returned pods ->
  let run := k8s_calls.get_mission C DEFAULT_NAMESPACE KUBE_INTERNAL_NAMESPACES
               mission in
  ((forall p, In p pods -> labels p <> None) ->
   api.outcome_of run = api.Returned (filter (on_mission mission) pods))
  /\ (forall p, In p pods -> labels p = None ->
                api.outcome_of run
                = api.Raised (api.TypeError
                                "argument of type 'NoneType' is not iterable")).
Proof.
  intros Hpods run. subst run. unfold k8s_calls.get_mission.
  rewrite outcome_bind, Hpods. split.
  - intros Hl. now rewrite get_mission_loop_labelled.
  - intros p Hin Hp.
    (* the first pod without labels *)
    assert (Hfirst : exists before q after,
               pods = before ++ q :: after
               /\ (forall x, In x before -> labels x <> None)
               /\ labels q = None).
    { clear Hpods. induction pods as [| x rest IH]; [destruct Hin |].
      destruct (labels x) as [d |] eqn:Ex.
      - destruct Hin as [-> | Hin]; [congruence |].
        destruct (IH Hin) as (before & q & after & -> & Hb & Hq).
        exists (x :: before), q, after. repeat split; auto.
        intros y [<- | Hy]; [congruence | auto].
      - exists [], x, rest. repeat split; auto; intros y []. }
    destruct Hfirst as (before & q & after & -> & Hb & Hq).
    now rewrite (get_mission_loop_unlabelled mission before q after [] Hb Hq).
Qed.

Lemma get_pods_loop_ok (pods_in : string -> list LabelledPod) namespaces :
  forall pods,
    (forall ns, In ns namespaces ->
                pods_of_namespace C (namespace_name ns)
                = api.Answer (pods_in (namespace_name ns))) ->
    api.outcome_of (k8s_calls.get_pods_loop C namespaces pods)
    = api.Returned
        (pods ++ flat_map (fun ns => pods_in (namespace_name ns)) namespaces).
Proof.
  induction namespaces as [| ns rest IH]; intros pods Hall;
    cbn [k8s_calls.get_pods_loop flat_map].
  - now rewrite app_nil_r.
  - rewrite outcome_bind, (Hall ns (or_introl eq_refl)). cbn.
    rewrite IH by (intros x Hx; apply Hall; now right).
    now rewrite app_assoc.
Qed.

Lemma get_pods_loop_refused (pods_in : string -> list LabelledPod)
    before ns after status msg :
  forall pods,
    (forall x, In x before ->
               pods_of_namespace C (namespace_name x)
               = api.Answer (pods_in (namespace_name x))) ->
    pods_of_namespace C (namespace_name ns) = api.Refused status msg ->
    api.outcome_of (k8s_calls.get_pods_loop C (before ++ ns :: after) pods)
    = api.Raised (api.ApiError status msg).
Proof.
  induction before as [| b before IH]; intros pods Hall Href;
    cbn [app k8s_calls.get_pods_loop].
  - rewrite outcome_bind, Href. reflexivity.
  - rewrite outcome_bind, (Hall b (or_introl eq_refl)). cbn.
    apply IH; auto. intros x Hx. apply Hall. now right.
Qed.

(** [get_pods], once the client configuration loads, returns the pods of
    the namespaces of [get_namespaces], namespace after namespace; if
    listing the pods of one namespace is refused, the exception reaches
    the caller and no pod at all is returned. *)
Theorem get_pods_outcomes namespaces (pods_in : string -> list LabelledPod) :
  load_kube_config (base C) = None ->
  api.outcome_of
    (k8s_calls.get_namespaces C DEFAULT_NAMESPACE KUBE_INTERNAL_NAMESPACES)
  = api.Returned namespaces ->
  let run := k8s_calls.get_pods C DEFAULT_NAMESPACE KUBE_INTERNAL_NAMESPACES in
  ((forall ns, In ns namespaces ->
               pods_of_namespace C (namespace_name ns)
               = api.Answer (pods_in (namespace_name ns))) ->
   api.outcome_of run
   = api.Returned (flat_map (fun ns => pods_in (namespace_name ns)) namespaces))
  /\ (forall before ns after status msg,
        namespaces = before ++ ns :: after ->
        (forall x, In x before ->
                   pods_of_namespace C (namespace_name x)
                   = api.Answer (pods_in (namespace_name x))) ->
        pods_of_namespace C (namespace_name ns) = api.Refused status msg ->
        api.outcome_of run = api.Raised (api.ApiError status msg)).
Proof.
  intros Hcfg Hns run. subst run. unfold k8s_calls.get_pods.
  unfold k8s_calls.get_static_client.
  rewrite (lift_return _ tt (f_equal snd (get_static_client_ok _ Hcfg))).
  rewrite !outcome_bind. cbn [api.outcome_of snd]. rewrite Hns. split.
  - intros Hall.
    now rewrite (get_pods_loop_ok pods_in namespaces [] Hall).
  - intros before ns after status msg -> Hall Href.
    exact (get_pods_loop_refused pods_in before ns after status msg [] Hall Href).
Qed.

End Pods.

(** ln.py: [_rpc] looks the pod up with [get_pod(pod_name)], that is, in
    the default namespace, also when a namespace is passed; the namespace
    passed is used for the [kubectl exec] command only.  The chain of the
    command is the [chain] label of the pod found in the default
    namespace. *)
Theorem rpc_reads_the_pod_in_the_default_namespace
    pod_name method params namespace default pod pod_labels chain :
  PyStr.truthy namespace = true ->
  result (k8s.get_default_namespace (base C) DEFAULT_NAMESPACE) = Return default ->
  load_kube_config (base C) = None ->
  read_labelled_pod C pod_name default = api.Answer pod ->
  labels pod = Some pod_labels ->
  network.dict_get pod_labels "chain" = Some chain ->
  api.events (k8s_calls._rpc C DEFAULT_NAMESPACE pod_name method params
                (Some namespace))
  = map api.Did (trace (k8s.get_default_namespace (base C) DEFAULT_NAMESPACE))
    ++ [api.Did LoadKubeConfig;
        api.Did (ReadNamespacedPod pod_name default);
        api.Did (SubprocessRun
                   ("kubectl -n " +++ namespace +++ " exec " +++ pod_name
                    +++ " -- lncli --network " +++ chain +++ " " +++ method
                    +++ " " +++ PyStr.join " " params))].
Proof.
  intros Hn Hd Hcfg Hread Hl Hc.
  unfold k8s_calls._rpc, k8s_calls.get_pod, k8s_calls.get_default_namespace_or,
    k8s_calls.get_static_client.
  cbn [k8s.get_default_namespace_or]. rewrite Hn.
  rewrite (lift_return _ default Hd).
  rewrite (lift_return _ tt (f_equal snd (get_static_client_ok _ Hcfg))).
  rewrite (get_static_client_ok _ Hcfg). cbn [trace fst map].
  unfold api.perform.
  repeat (rewrite bind_returned; cbn [api.events api.outcome_of fst snd]).
  rewrite Hread. cbn [api.of_answer api.ret api.events api.outcome_of fst snd].
  repeat (rewrite bind_returned; cbn [api.events api.outcome_of fst snd]).
  rewrite (lift_return (ret namespace) namespace eq_refl). cbn [trace ret fst map].
  rewrite Hl, Hc. unfold api.ret.
  repeat (rewrite bind_returned; cbn [api.events api.outcome_of fst snd]).
  rewrite events_lift. unfold process.run_command.
  destruct (negb _); cbn [bind perform raise ret trace fst map app];
    now rewrite ?app_nil_r, <- ?app_assoc.
Qed.

Section Files.
Variable Obj : Type.
Variable yaml_dump : Obj -> string.
Variable dirname : string -> string.

(** [apply_kubernetes_yaml_obj], once the object is dumped to the temporary
    file, removes that file exactly once and as its last action, whether
    [kubectl apply] succeeds, reports a failure or raises; it returns only
    if [kubectl apply] did not raise and the file could be removed. *)
Theorem apply_kubernetes_yaml_obj_always_unlinks yaml_obj path :
  named_temporary_file C None = inr path ->
  write_fails C path = None ->
  let run := k8s_calls.apply_kubernetes_yaml_obj C Obj yaml_dump yaml_obj in
  let apply := kubectl.apply_kubernetes_yaml (base C) path in
  api.events run
  = [api.NamedTemporaryFile None; api.WriteFile path (yaml_dump yaml_obj)]
    ++ map api.Did (trace apply) ++ [api.Remove path]
  /\ (api.outcome_of run = api.Returned tt
      <-> (exists applied, result apply = Return applied)
          /\ remove_fails C path = None).
Proof.
  intros Htemp Hwrite run apply. subst run apply.
  unfold k8s_calls.apply_kubernetes_yaml_obj, k8s_calls.create_temp,
    k8s_calls.write_file, k8s_calls.os_remove, api.lift.
  rewrite Htemp. cbn [api.bind api.perform api.ret app]. rewrite Hwrite.
  destruct (kubectl.apply_kubernetes_yaml (base C) path) as [t [b | [m | c]]];
    destruct (remove_fails C path) as [msg |]; cbn; rewrite ?app_nil_r;
    (split; [reflexivity |]); split;
    try discriminate; try (intros [[? ?] ?]; discriminate);
    try (intros _; split; [now exists b | reflexivity]); try reflexivity.
Qed.

(** [apply_kubernetes_yaml_obj] leaves the temporary file behind when the
    dump into it fails: the exception of the dump reaches the caller, and
    neither [kubectl apply] nor the removal of the file is attempted. *)
Theorem apply_kubernetes_yaml_obj_keeps_file_of_failed_dump yaml_obj path msg :
  named_temporary_file C None = inr path ->
  write_fails C path = Some msg ->
  let run := k8s_calls.apply_kubernetes_yaml_obj C Obj yaml_dump yaml_obj in
  api.events run
  = [api.NamedTemporaryFile None; api.WriteFile path (yaml_dump yaml_obj)]
  /\ api.outcome_of run = api.Raised (api.Error msg).
Proof.
  intros Htemp Hwrite run. subst run.
  unfold k8s_calls.apply_kubernetes_yaml_obj, k8s_calls.create_temp,
    k8s_calls.write_file.
  rewrite Htemp. cbn [api.bind api.perform api.ret app]. rewrite Hwrite.
  split; reflexivity.
Qed.

(** [write_kubeconfig], when the temporary file cannot be created, does
    not raise the [K8sError] it documents: its handler reads
    [temp_file.name] before [temp_file] is bound, so the caller gets an
    [UnboundLocalError], and nothing is removed. *)
Theorem write_kubeconfig_without_temp_file kube_config kubeconfig_path msg :
  named_temporary_file C (Some (dirname kubeconfig_path)) = inl msg ->
  k8s_calls.write_kubeconfig C Obj yaml_dump dirname kube_config kubeconfig_path
  = ([api.NamedTemporaryFile (Some (dirname kubeconfig_path))],
     api.Raised (api.UnboundLocalError "temp_file")).
Proof.
  intros Htemp. unfold k8s_calls.write_kubeconfig. now rewrite Htemp.
Qed.

(** [write_kubeconfig], with the temporary file [temp] created in the
    directory of the target: the target is replaced only by [temp], and
    only after the dump into [temp] succeeded; the function returns exactly
    when the dump and the replacement succeed; otherwise it removes [temp]
    and raises [K8sError], unless the removal itself fails, whose
    exception then reaches the caller instead. *)
Theorem write_kubeconfig_outcomes kube_config kubeconfig_path temp :
  named_temporary_file C (Some (dirname kubeconfig_path)) = inr temp ->
  let run := k8s_calls.write_kubeconfig C Obj yaml_dump dirname kube_config
               kubeconfig_path in
  (forall src dst, In (api.Replace src dst) (api.events run) ->
                   src = temp /\ dst = kubeconfig_path
                   /\ write_fails C temp = None)
  /\ (api.outcome_of run = api.Returned tt
      <-> write_fails C temp = None
          /\ replace_fails C temp kubeconfig_path = None)
  /\ (api.outcome_of run <> api.Returned tt ->
      last (api.events run) api.ListNamespace = api.Remove temp
      /\ api.outcome_of run
         = match remove_fails C temp with
           | Some msg => api.Raised (api.Error msg)
           | None => api.Raised (api.K8sError ("Error writing kubeconfig: "
                                               +++ kubeconfig_path))
           end).
Proof.
  intros Htemp run. subst run. unfold k8s_calls.write_kubeconfig.
  rewrite Htemp.
  unfold k8s_calls.write_file, k8s_calls.os_replace, k8s_calls.os_remove.
  destruct (write_fails C temp) as [w |];
    destruct (replace_fails C temp kubeconfig_path) as [r |];
    destruct (remove_fails C temp) as [d |]; cbn;
    (split; [| split]);
    try (intros src dst H;
         repeat (destruct H as [H | H]; try discriminate H);
         try (injection H as <- <-; auto); now destruct H);
    try (split; [discriminate | intros [? ?]; discriminate]);
    try (split; auto; fail);
    try (intros _; split; reflexivity);
    try (intros H; now elim H).
Qed.

End Files.
End ClusterCalls.
(** * network.py: _connected, and ln.py: _host *)

Lemma bind_ret_l {A B} (a : A) (k : A -> api.Run B) : api.bind (api.ret a) k = k a.
Proof. unfold api.ret, api.bind. now destruct (k a). Qed.

Lemma no_events_bind {A B} (m : api.Run A) (k : A -> api.Run B) :
  api.events m = [] -> (forall a, api.events (k a) = []) ->
  api.events (api.bind m k) = [].
Proof.
  intros Hm Hk. rewrite events_bind, Hm.
  destruct (api.outcome_of m); [apply Hk | reflexivity].
Qed.

Lemma events_pair {A} t (r : api.outcome A) : api.events (t, r) = t.
Proof. reflexivity. Qed.

Lemma outcome_pair {A} t (r : api.outcome A) : api.outcome_of (t, r) = r.
Proof. reflexivity. Qed.

(** ** Computations that make no RPC call *)

Definition no_rpc {A} (m : api.Run A) : Prop := rpc_calls (api.events m) = [].

Lemma rpc_calls_app t1 t2 : rpc_calls (t1 ++ t2) = rpc_calls t1 ++ rpc_calls t2.
Proof. unfold rpc_calls. apply flat_map_app. Qed.

Lemma no_rpc_bind {A B} (m : api.Run A) (k : A -> api.Run B) :
  no_rpc m -> (forall a, no_rpc (k a)) -> no_rpc (api.bind m k).
Proof.
  unfold no_rpc. intros Hm Hk. rewrite events_bind, rpc_calls_app, Hm.
  destruct (api.outcome_of m); [apply Hk | reflexivity].
Qed.

Lemma no_rpc_try_except {A} catches (body : api.Run A) handler :
  no_rpc body -> (forall e, no_rpc (handler e)) ->
  no_rpc (api.try_except catches body handler).
Proof.
  unfold no_rpc, api.events. intros Hb Hh.
  destruct body as [t [a | e]]; cbn [api.try_except fst] in *; [exact Hb |].
  destruct (catches e); [| exact Hb].
  specialize (Hh e). destruct (handler e) as [t' r]. cbn [fst] in *.
  now rewrite rpc_calls_app, Hb, Hh.
Qed.

Lemma no_rpc_lift {A} (m : M A) : no_rpc (api.lift m).
Proof.
  unfold no_rpc. rewrite events_lift. induction (trace m); [reflexivity | assumption].
Qed.

Lemma no_rpc_ret {A} (a : A) : no_rpc (api.ret a).
Proof. reflexivity. Qed.

Lemma no_rpc_raise {A} e : no_rpc (@api.raise A e).
Proof. reflexivity. Qed.

Lemma no_rpc_of_answer {A} (r : api.answer A) : no_rpc (api.of_answer r).
Proof. now destruct r. Qed.

Section NoRpc.
Variable C : Cluster.
Variable DEFAULT_NAMESPACE : string.
Variable KUBE_INTERNAL_NAMESPACES : list string.

Lemma no_rpc_get_namespaces :
  no_rpc (k8s_calls.get_namespaces C DEFAULT_NAMESPACE KUBE_INTERNAL_NAMESPACES).
Proof.
  unfold k8s_calls.get_namespaces, k8s_calls.get_static_client,
    k8s_calls.get_default_namespace.
  apply no_rpc_bind; [apply no_rpc_lift | intros _].
  apply no_rpc_try_except.
  - apply no_rpc_bind; [reflexivity | intros _].
    apply no_rpc_bind; [apply no_rpc_of_answer | intros items; reflexivity].
  - intros [ | status msg | | | | | | ]; try reflexivity.
    destruct (status =? 403)%Z; [| reflexivity].
    apply no_rpc_bind; [apply no_rpc_lift | intros name].
    apply no_rpc_bind; [reflexivity | intros _].
    apply no_rpc_bind; [apply no_rpc_of_answer | intros ns; reflexivity].
Qed.

Lemma no_rpc_get_pods_loop namespaces : forall pods,
  no_rpc (k8s_calls.get_pods_loop C namespaces pods).
Proof.
  induction namespaces as [| ns rest IH]; intros pods;
    cbn [k8s_calls.get_pods_loop]; [reflexivity |].
  apply no_rpc_bind; [| intros pods'; apply IH].
  apply no_rpc_try_except; [| intros e; reflexivity].
  apply no_rpc_bind; [reflexivity | intros _].
  apply no_rpc_bind; [apply no_rpc_of_answer | intros l; reflexivity].
Qed.

Lemma no_rpc_get_mission mission :
  no_rpc (k8s_calls.get_mission C DEFAULT_NAMESPACE KUBE_INTERNAL_NAMESPACES
            mission).
Proof.
  unfold k8s_calls.get_mission, k8s_calls.get_pods, k8s_calls.get_static_client.
  apply no_rpc_bind.
  - apply no_rpc_bind; [apply no_rpc_lift | intros _].
    apply no_rpc_bind; [apply no_rpc_get_namespaces | intros namespaces].
    apply no_rpc_get_pods_loop.
  - intros pods. generalize (@nil LabelledPod).
    induction pods as [| p pods IH]; intros crew;
      cbn [k8s_calls.get_mission_loop]; [reflexivity |].
    destruct (labels p) as [d |]; [| reflexivity].
    destruct (network.dict_get d "mission") as [v |]; [destruct (v =? mission) |];
      apply IH.
Qed.

End NoRpc.

(** ** _connected *)

Section Connected.
Import network.
Variable C : Cluster.
Variable DEFAULT_NAMESPACE : string.
Variable KUBE_INTERNAL_NAMESPACES : list string.
Variable json_loads : string -> string + json.
Variable int_of_str : string -> option Z.
Variable str_of_int : Z -> string.

(** the loop over the peers either counts them all, or stops at the first
    that is not an object *)
Lemma count_manual_cases items : forall start,
  (exists peers,
      items = map JObject peers
      /\ network_calls.count_manual items start
         = ([], api.Returned (start + manual_peers peers)%Z))
  \/ ((forall peers, items <> map JObject peers)
      /\ exists msg,
           network_calls.count_manual items start = ([], api.Raised (api.Error msg))).
Proof.
  unfold manual_peers.
  induction items as [| item items IH]; intros start.
  - left. exists []. split; [reflexivity |].
    cbn [network_calls.count_manual filter length Z.of_nat].
    now rewrite Z.add_0_r.
  - destruct item as [| b | z | s | l | d];
      try (right; split;
           [intros [| p peers] H; discriminate H | eexists; reflexivity]).
    cbn [network_calls.count_manual].
    destruct (IH (if is_connection_manual d then start + 1 else start)%Z)
      as [(peers & -> & Hrun) | (Hno & msg & Hrun)].
    + left. exists (d :: peers). split; [reflexivity |]. rewrite Hrun.
      f_equal. f_equal. cbn [filter].
      destruct (is_connection_manual d); cbn [length]; lia.
    + right. split; [| now exists msg].
      intros [| p peers] H; [discriminate H |].
      injection H as _ H. now apply (Hno peers).
Qed.

Lemma check_tank_cases tank end_ :
  (tank_passes C json_loads int_of_str tank
   /\ exists line,
        network_calls.check_tank C json_loads int_of_str str_of_int tank end_
        = ([api.BitcoinRpc (network_calls.tank_name tank) "getpeerinfo" ""
              (Some (pod_namespace tank));
            api.Did (PrintNoNewline line)],
           api.Returned None))
  \/ (~ tank_passes C json_loads int_of_str tank
      /\ api.outcome_of (network_calls.check_tank C json_loads int_of_str str_of_int tank end_) = api.Returned (Some false)
      /\ rpc_calls (api.events (network_calls.check_tank C json_loads int_of_str str_of_int tank end_)) = [rpc_call_of tank])
  \/ (~ tank_passes C json_loads int_of_str tank
      /\ exists code,
           bitcoin_rpc C (network_calls.tank_name tank) "getpeerinfo" ""
             (Some (pod_namespace tank)) = api.Raised (api.Exit code)
           /\ network_calls.check_tank C json_loads int_of_str str_of_int tank end_
              = ([api.BitcoinRpc (network_calls.tank_name tank) "getpeerinfo" ""
                    (Some (pod_namespace tank))],
                 api.Raised (api.Exit code))).
Proof.
  unfold network_calls.check_tank, network_calls.bitcoin_rpc_call,
    network_calls.loads, network_calls.iterate, network_calls.init_peers,
    tank_passes.
  destruct (bitcoin_rpc C (network_calls.tank_name tank) "getpeerinfo" ""
              (Some (pod_namespace tank))) as [text | e] eqn:Erpc.
  2: { destruct e;
       try (right; left; split;
            [intros (t & v & p & n & n' & x & H & _); discriminate H
            | split; reflexivity]).
       right. right. split.
       - intros (t & v & p & n & n' & x & H & _). discriminate H.
       - exists code. split; reflexivity. }
  cbn [api.bind api.perform app].
  destruct (json_loads text) as [msg | v] eqn:Ev.
  { right. left. split; [| split; reflexivity].
    intros (t & v & p & n & n' & x & [= <-] & H & _). congruence. }
  cbn [api.bind api.ret app].
  destruct (elements v) as [items |] eqn:Eitems.
  2: { right. left. split; [| split; reflexivity].
       intros (t & v' & p & n & n' & x & [= <-] & H & H' & _). congruence. }
  cbn [api.bind api.ret app].
  destruct (count_manual_cases items 0) as [(peers & -> & Hcount) | (Hno & msg & Hcount)];
    rewrite Hcount.
  2: { right. left. split; [| split; reflexivity].
       intros (t & v' & p & n & n' & x & [= <-] & H & H' & _).
       rewrite Ev in H. injection H as <-. rewrite Eitems in H'.
       injection H' as H'. now apply (Hno p). }
  cbn [api.bind api.ret app Z.add].
  destruct (annotations tank) as [notes |] eqn:Enotes.
  2: { right. left. split; [| split; reflexivity].
       intros (t & v' & p & n & n' & x & _ & _ & _ & H & _). discriminate H. }
  destruct (dict_get notes "init_peers") as [note |] eqn:Enote.
  2: { right. left. split; [| split; reflexivity].
       intros (t & v' & p & n & n' & x & _ & _ & _ & [= <-] & H & _). congruence. }
  destruct (int_of_str note) as [expected |] eqn:Eint.
  2: { right. left. split; [| split; reflexivity].
       intros (t & v' & p & n & n' & x & _ & _ & _ & [= <-] & H & H' & _).
       rewrite Enote in H. injection H as <-. congruence. }
  cbn [api.bind api.ret api.perform app].
  destruct (Z.min 8 expected >? manual_peers peers)%Z eqn:Emin.
  - right. left. split; [| split; reflexivity].
    intros (t & v' & p & n & n' & x & [= <-] & H1 & H2 & [= <-] & H3 & H4 & Hle).
    rewrite Ev in H1. injection H1 as <-. rewrite Eitems in H2.
    injection H2 as H2.
    assert (p = peers).
    { clear - H2. revert p H2. induction peers as [| a peers IH];
        intros [| b p] H; try discriminate; [reflexivity |].
      injection H as -> H. f_equal. now apply IH. }
    subst p. rewrite Enote in H3. injection H3 as <-. rewrite Eint in H4.
    injection H4 as <-. rewrite Z.gtb_ltb in Emin. apply Z.ltb_lt in Emin. lia.
  - left. split.
    + exists text, v, peers, notes, note, expected. repeat split; auto.
      rewrite Z.gtb_ltb in Emin. apply Z.ltb_ge in Emin. lia.
    + eexists. reflexivity.
Qed.


Lemma connected_loop_first_failure before tank after end_ :
  (forall t, In t before -> tank_passes C json_loads int_of_str t) ->
  ~ tank_passes C json_loads int_of_str tank ->
  rpc_calls (api.events (network_calls.connected_loop C json_loads int_of_str
                           str_of_int (before ++ tank :: after) end_))
  = map rpc_call_of (before ++ [tank])
  /\ (api.outcome_of (network_calls.connected_loop C json_loads int_of_str
                        str_of_int (before ++ tank :: after) end_)
      = api.Returned false
      \/ exists code,
           bitcoin_rpc C (network_calls.tank_name tank) "getpeerinfo" ""
             (Some (pod_namespace tank)) = api.Raised (api.Exit code)
           /\ api.outcome_of (network_calls.connected_loop C json_loads int_of_str
                                str_of_int (before ++ tank :: after) end_)
              = api.Raised (api.Exit code)).
Proof.
  intros Hb Hfail. induction before as [| b before IH];
    cbn [app network_calls.connected_loop].
  - rewrite events_bind, outcome_bind, rpc_calls_app.
    destruct (check_tank_cases tank end_)
      as [(Hp & _) | [(_ & Ho & He) | (_ & code & Hrpc & Hrun)]];
      [contradiction | |].
    + rewrite Ho, He. split; [reflexivity | now left].
    + rewrite Hrun. cbn [api.outcome_of api.events fst snd].
      split; [reflexivity | right; now exists code].
  - destruct (check_tank_cases b end_)
      as [(_ & line & Hrun) | [(Hno & _) | (Hno & _)]];
      try (elim Hno; apply Hb; now left).
    destruct (IH (fun t H => Hb t (or_intror H))) as [IHe IHo].
    rewrite Hrun, bind_returned. cbn beta iota.
    rewrite events_pair, !outcome_pair.
    split; [| exact IHo].
    rewrite rpc_calls_app, IHe. reflexivity.
Qed.



(** The check stops at the first tank that does not pass: [_connected]
    returns [False], and the tanks after it are not queried; the calls
    made are those for the tanks up to that one, in order. *)
Theorem connected_stops_at_first_failure before tank after end_ :
  api.outcome_of (k8s_calls.get_mission C DEFAULT_NAMESPACE
                    KUBE_INTERNAL_NAMESPACES "tank")
  = api.Returned (before ++ tank :: after) ->
  (forall t, In t before -> tank_passes C json_loads int_of_str t) ->
  ~ tank_passes C json_loads int_of_str tank ->
  rpc_does_not_exit C tank ->
  let run := network_calls._connected C DEFAULT_NAMESPACE KUBE_INTERNAL_NAMESPACES
               json_loads int_of_str str_of_int end_ in
  api.outcome_of run = api.Returned false
  /\ rpc_calls (api.events run) = map rpc_call_of (before ++ [tank]).
Proof.
  intros Hm Hb Hf Hne run. subst run. unfold network_calls._connected.
  rewrite outcome_bind, events_bind, Hm, rpc_calls_app.
  rewrite (no_rpc_get_mission C DEFAULT_NAMESPACE KUBE_INTERNAL_NAMESPACES "tank").
  destruct (connected_loop_first_failure before tank after end_ Hb Hf)
    as [He [Ho | (code & Hrpc & _)]].
  - split; [exact Ho | exact He].
  - now elim (Hne code).
Qed.

End Connected.

(** ** _host *)

Section Host.
Import network.
Variable C : Cluster.
Variable DEFAULT_NAMESPACE : string.
Variable json_loads : string -> string + json.

Lemma second_field_of_uri pubkey address tail :
  without_char "@" pubkey ->
  without_char "@" address ->
  tail = "" \/ (exists rest, tail = String "@" rest) ->
  exists more,
    PyStr.split (pubkey +++ String "@" (address +++ tail)) "@"
    = pubkey :: address :: more.
Proof.
  intros Hp Ha Ht. rewrite (split_at_first_sep pubkey "@" _ Hp).
  destruct Ht as [-> | (rest & ->)].
  - rewrite append_nil_r, (split_without_sep address "@" Ha). now exists [].
  - rewrite (split_at_first_sep address "@" rest Ha). eauto.
Qed.

(** [_host], once [_rpc] has returned a text that parses to an object:
    it raises [KeyError] when the object has no member [uris] (it does
    not return the empty string then); it returns the empty string when
    [uris] is [null] or an empty list; otherwise it looks at the first URI
    only and returns its second field, the text between the first [@] and
    the next one (or the end); a first URI without [@] makes it raise
    [IndexError].  It makes no call of its own. *)
Theorem host_of_first_uri pod info members :
  api.outcome_of (k8s_calls._rpc C DEFAULT_NAMESPACE pod "getinfo" [] None)
  = api.Returned info ->
  json_loads info = inr (JObject members) ->
  let run := ln_calls._host C DEFAULT_NAMESPACE json_loads pod in
  api.events run
  = api.events (k8s_calls._rpc C DEFAULT_NAMESPACE pod "getinfo" [] None)
  /\ (dict_get members "uris" = None ->
      api.outcome_of run = api.Raised (api.KeyError "uris"))
  /\ (dict_get members "uris" = Some JNull
      \/ dict_get members "uris" = Some (JArray []) ->
      api.outcome_of run = api.Returned "")
  /\ (forall pubkey address tail others,
        dict_get members "uris"
        = Some (JArray (JString (pubkey +++ String "@" (address +++ tail))
                          :: others)) ->
        without_char "@" pubkey ->
        without_char "@" address ->
        tail = "" \/ (exists rest, tail = String "@" rest) ->
        api.outcome_of run = api.Returned address)
  /\ (forall uri others,
        dict_get members "uris" = Some (JArray (JString uri :: others)) ->
        without_char "@" uri ->
        api.outcome_of run = api.Raised (api.IndexError "list index out of range")).
Proof.
  intros Hrpc Hjson run.
  set (rest := fun uris : json =>
                 test <~ (if truthy uris then ln_calls.has_len uris
                          else api.ret false) ;;
                 (if test
                  then first <~ ln_calls.first_item uris ;;
                       ln_calls.second_field first
                  else api.ret "")).
  assert (Hshape :
            run = (api.events (k8s_calls._rpc C DEFAULT_NAMESPACE pod "getinfo"
                                 [] None)
                   ++ api.events (uris <~ ln_calls.subscript (JObject members)
                                            "uris" ;; rest uris),
                   api.outcome_of (uris <~ ln_calls.subscript (JObject members)
                                             "uris" ;; rest uris))).
  { subst run. unfold ln_calls._host.
    destruct (k8s_calls._rpc C DEFAULT_NAMESPACE pod "getinfo" [] None)
      as [t r].
    rewrite outcome_pair in Hrpc. subst r.
    rewrite bind_returned, Hjson, !bind_ret_l. reflexivity. }
  assert (Hquiet : forall uris, api.events (rest uris) = []).
  { intros uris. subst rest. cbn beta.
    apply no_events_bind.
    - destruct (truthy uris); [| reflexivity]. now destruct uris.
    - intros [|]; [| reflexivity].
      apply no_events_bind.
      + destruct uris as [| b | z | [| c s] | [| x l] | d]; reflexivity.
      + intros [| b | z | s | l | d]; try reflexivity.
        cbn [ln_calls.second_field].
        now destruct (PyStr.split s "@") as [| a [| b l']]. }
  rewrite Hshape, events_pair, outcome_pair. clear Hshape.
  cbn [ln_calls.subscript].
  split; [| split; [| split; [| split]]].
  - destruct (dict_get members "uris") as [uris |]; [| now rewrite app_nil_r].
    rewrite bind_ret_l, Hquiet. now rewrite app_nil_r.
  - now intros ->.
  - intros [-> | ->]; reflexivity.
  - intros pubkey address tail others -> Hp Ha Ht.
    destruct (second_field_of_uri pubkey address tail Hp Ha Ht) as (more & Hsplit).
    cbn. now rewrite Hsplit.
  - intros uri others -> Hu. cbn. now rewrite (split_without_sep uri "@" Hu).
Qed.

End Host.

(** * Instances of the second part *)

(** ** image_build.py *)

Lemma build_image_rejects_unsupported_arch_witness :
  PyStr.split "amd64, arm64,riscv64" "," = ["amd64"] ++ " arm64" :: ["riscv64"]
  /\ image_build.build_image docker_up quoted "/img/Dockerfile" "/img"
       "https://github.com/bitcoin/bitcoin" "v27.0" "docker.io" "latest"
       None (Some "amd64, arm64,riscv64") "load"
     = ([Print ("Error: " +++ " arm64" +++ " is not a supported architecture")],
        Return false).
Proof.
  split; [reflexivity |].
  apply (build_image_rejects_unsupported_arch docker_up quoted
           "/img/Dockerfile" "/img" "https://github.com/bitcoin/bitcoin"
           "v27.0" "docker.io" "latest" None "amd64, arm64,riscv64" "load"
           ["amd64"] " arm64" ["riscv64"]).
  - reflexivity.
  - reflexivity.
  - intros a [<- | []]. left. reflexivity.
  - intros [H | [H | [H | []]]]; discriminate H.
Defined.

Lemma build_image_without_builder_witness :
  docker_down "docker buildx create --name bitcoind-builder --use"
  = image_build.Exited 1
  /\ docker_down "docker buildx use --builder bitcoind-builder"
     = image_build.Exited 1
  /\ result (image_build.build_image docker_down quoted "/img/Dockerfile" "/img"
               "https://github.com/bitcoin/bitcoin" "v27.0" "docker.io" "latest"
               None None "load")
     = Return false
  /\ shell_commands
       (trace (image_build.build_image docker_down quoted "/img/Dockerfile" "/img"
                 "https://github.com/bitcoin/bitcoin" "v27.0" "docker.io" "latest"
                 None None "load"))
     = ["docker buildx create --name bitcoind-builder --use";
        "docker buildx use --builder bitcoind-builder"].
Proof.
  split; [reflexivity | split; [reflexivity |]].
  apply (build_image_without_builder docker_down quoted "/img/Dockerfile" "/img"
           "https://github.com/bitcoin/bitcoin" "v27.0" "docker.io" "latest"
           None None "load" 1 1); try reflexivity; discriminate.
Defined.

Lemma build_image_always_removes_builder_witness :
  docker_up "docker buildx create --name bitcoind-builder --use"
  = image_build.Exited 0
  /\ docker_up "docker buildx rm bitcoind-builder" = image_build.Exited 1
  /\ result (image_build.build_image docker_up quoted "/img/Dockerfile" "/img"
               "https://github.com/bitcoin/bitcoin" "v27.0" "docker.io" "latest"
               None (Some "amd64,arm64") "push")
     = Return true
  /\ last (shell_commands
             (trace (image_build.build_image docker_up quoted "/img/Dockerfile"
                       "/img" "https://github.com/bitcoin/bitcoin" "v27.0"
                       "docker.io" "latest" None (Some "amd64,arm64") "push"))) ""
     = "docker buildx rm bitcoind-builder"
  /\ last (printed
             (trace (image_build.build_image docker_up quoted "/img/Dockerfile"
                       "/img" "https://github.com/bitcoin/bitcoin" "v27.0"
                       "docker.io" "latest" None (Some "amd64,arm64") "push"))) ""
     = "Warning: Failed to remove the buildx builder.".
Proof.
  split; [reflexivity | split; [reflexivity |]].
  destruct (build_image_always_removes_builder docker_up quoted
              "/img/Dockerfile" "/img" "https://github.com/bitcoin/bitcoin"
              "v27.0" "docker.io" "latest" None (Some "amd64,arm64") "push" 0 1
              eq_refl eq_refl (or_introl eq_refl) eq_refl)
    as (Hres & Hcmds & Hlast).
  split; [exact Hres | split; [| exact Hlast]].
  rewrite Hcmds. reflexivity.
Defined.

(** ** get_cluster_of_current_context *)

Lemma get_cluster_raises_only_k8s_error_witness :
  kubeconfig.get_cluster_of_current_context string dangling_cluster_config
  = inl (kubeconfig.K8sError "Cluster 'gke' not found in kubeconfig.")
  /\ kubeconfig.get_cluster_of_current_context string null_clusters_config
     = inl (kubeconfig.TypeError "'NoneType' object is not iterable").
Proof.
  split.
  - destruct (proj1 (get_cluster_raises_only_k8s_error string
                       dangling_cluster_config))
      as [(cluster & H) | (msg & H)].
    + intros entries [= <-] e [<- | []]. split; discriminate.
    + intros entries [= <-] c [<- | []]. discriminate.
    + discriminate.
    + discriminate.
    + discriminate H.
    + rewrite H. injection H as <-. reflexivity.
  - destruct (proj2 (proj2 (get_cluster_raises_only_k8s_error string
                              null_clusters_config))
                    "prod" _
                    {| kubeconfig.entry_name := kubeconfig.Value "prod";
                       kubeconfig.entry_context :=
                         kubeconfig.Value
                           {| kubeconfig.context_cluster := Some "gke" |} |}
                    eq_refl ltac:(discriminate) eq_refl) as [_ Hnull].
    + exists [], []. repeat split. intros x [].
    + apply (Hnull {| kubeconfig.context_cluster := Some "gke" |} "gke");
        first [reflexivity | discriminate].
Defined.

Lemma get_cluster_raises_key_error_on_unnamed_context_witness :
  kubeconfig.current_context string unnamed_context_config = Some "prod"
  /\ nth_error (match kubeconfig.contexts string unnamed_context_config with
                | kubeconfig.Value entries => entries
                | _ => []
                end) 1
     = Some {| kubeconfig.entry_name := kubeconfig.Absent;
               kubeconfig.entry_context := kubeconfig.Absent |}
  /\ kubeconfig.get_cluster_of_current_context string unnamed_context_config
     = inl (kubeconfig.KeyError "name").
Proof.
  split; [reflexivity | split; [reflexivity |]].
  apply (get_cluster_raises_key_error_on_unnamed_context string
           unnamed_context_config "prod"
           [ {| kubeconfig.entry_name := kubeconfig.Value "dev";
                kubeconfig.entry_context :=
                  kubeconfig.Value
                    {| kubeconfig.context_cluster := Some "minikube" |} |} ]
           {| kubeconfig.entry_name := kubeconfig.Absent;
              kubeconfig.entry_context := kubeconfig.Absent |}
           [ {| kubeconfig.entry_name := kubeconfig.Value "prod";
                kubeconfig.entry_context :=
                  kubeconfig.Value
                    {| kubeconfig.context_cluster := Some "gke" |} |} ]).
  - reflexivity.
  - discriminate.
  - reflexivity.
  - intros x [<- | []]. right. exists "dev". split; [reflexivity | discriminate].
  - reflexivity.
Defined.

(** ** tanks_from_graph *)


(** ** Calls to the cluster *)

Lemma get_namespaces_outcomes_witness :
  load_kube_config (base healthy) = None
  /\ k8s_calls.get_namespaces healthy "default" ["kube-system"; "kube-public"]
     = ([api.Did LoadKubeConfig; api.ListNamespace],
        api.Returned [ {| namespace_name := "default" |};
                       {| namespace_name := "warnet" |} ]).
Proof.
  split; [reflexivity |].
  destruct (get_namespaces_outcomes healthy "default"
              ["kube-system"; "kube-public"] eq_refl) as (Hlist & _ & _).
  destruct (Hlist _ eq_refl) as [Hrun _]. exact Hrun.
Defined.

Lemma get_pod_exit_status_outcomes_witness :
  result (k8s.get_default_namespace_or (base healthy) "default" (Some "warnet"))
  = Return "warnet"
  /\ api.outcome_of
       (k8s_calls.get_pod_exit_status healthy "default" "tank-0000" (Some "warnet"))
     = api.Returned (Some 3%Z).
Proof.
  split; [reflexivity |].
  destruct (get_pod_exit_status_outcomes healthy "default" "tank-0000"
              (Some "warnet") "warnet" eq_refl eq_refl) as (Hterm & _).
  apply (Hterm [ {| state_terminated := None |} ]
               {| state_terminated := Some {| exit_code := 3 |} |}
               {| exit_code := 3 |} []).
  - reflexivity.
  - intros x [<- | []]. reflexivity.
  - reflexivity.
Defined.

Lemma wait_for_pod_returns_on_phase_or_timeout_witness :
  result (k8s.get_default_namespace_or (base healthy) "default" (Some "warnet"))
  = Return "warnet"
  /\ api.outcome_of
       (k8s_calls.wait_for_pod healthy "default" "tank-0000" 10 (Some "warnet"))
     = api.Returned tt
  /\ status_reads
       (api.events
          (k8s_calls.wait_for_pod healthy "default" "tank-0000" 10 (Some "warnet")))
     = 3
  /\ seconds_slept
       (api.events
          (k8s_calls.wait_for_pod healthy "default" "tank-0000" 10 (Some "warnet")))
     = 2%Z.
Proof.
  split; [reflexivity |].
  destruct (wait_for_pod_returns_on_phase_or_timeout healthy "default"
              "tank-0000" 10 (Some "warnet") "warnet" eq_refl eq_refl)
    as (Hleaves & _).
  apply (Hleaves 2 (Some "Running")).
  - cbn. lia.
  - intros [| [| i]] Hi; [reflexivity | reflexivity | lia].
  - reflexivity.
  - unfold pending. discriminate.
Defined.

Lemma can_delete_pods_outcomes_witness :
  result (k8s.get_default_namespace_or (base healthy) "default" None)
  = Return "warnet"
  /\ access_review healthy "warnet" "delete" "pods" = api.Refused 401 "Unauthorized"
  /\ api.outcome_of (k8s_calls.can_delete_pods healthy "default" None)
     = api.Returned false
  /\ last (api.events (k8s_calls.can_delete_pods healthy "default" None))
          api.ListNamespace
     = api.Did (Print "An error occurred: Unauthorized").
Proof.
  split; [reflexivity | split; [reflexivity |]].
  exact (can_delete_pods_outcomes healthy "default" None "warnet"
           eq_refl eq_refl).
Defined.

Lemma get_ingress_ip_or_host_outcomes_witness :
  load_default_kube_config healthy = None
  /\ read_namespaced_ingress healthy "caddy" "warnet-logging"
     = api.Answer (Some [ {| hostname := Some ""; ip := Some "10.0.0.7" |} ])
  /\ api.outcome_of (k8s_calls.get_ingress_ip_or_host healthy "caddy" "warnet-logging")
     = api.Returned (Some "10.0.0.7").
Proof.
  split; [reflexivity | split; [reflexivity |]].
  destruct (get_ingress_ip_or_host_outcomes healthy "caddy" "warnet-logging"
              eq_refl) as (_ & Hip & _).
  apply (Hip {| hostname := Some ""; ip := Some "10.0.0.7" |} []).
  - reflexivity.
  - right. reflexivity.
Defined.

Lemma get_pods_outcomes_witness :
  api.outcome_of (k8s_calls.get_namespaces healthy "default" ["kube-system"])
  = api.Returned [ {| namespace_name := "default" |};
                   {| namespace_name := "warnet" |} ]
  /\ api.outcome_of (k8s_calls.get_pods healthy "default" ["kube-system"])
     = api.Returned [tank_pod "tank-0000" "regtest"; unlabelled_pod "caddy"].
Proof.
  split; [reflexivity |].
  destruct (get_pods_outcomes healthy "default" ["kube-system"]
              [ {| namespace_name := "default" |};
                {| namespace_name := "warnet" |} ]
              example_pods eq_refl eq_refl) as (Hall & _).
  apply Hall. intros ns _. reflexivity.
Defined.

Lemma get_mission_outcomes_witness :
  api.outcome_of (k8s_calls.get_pods healthy "default" ["kube-system"])
  = api.Returned [tank_pod "tank-0000" "regtest"; unlabelled_pod "caddy"]
  /\ api.outcome_of (k8s_calls.get_mission healthy "default" ["kube-system"] "tank")
     = api.Raised (api.TypeError "argument of type 'NoneType' is not iterable").
Proof.
  split; [reflexivity |].
  destruct (get_mission_outcomes healthy "default" ["kube-system"] "tank"
              [tank_pod "tank-0000" "regtest"; unlabelled_pod "caddy"] eq_refl)
    as (_ & Hraise).
  apply (Hraise (unlabelled_pod "caddy")).
  - right. left. reflexivity.
  - reflexivity.
Defined.

Lemma rpc_reads_the_pod_in_the_default_namespace_witness :
  result (k8s.get_default_namespace (base healthy) "default") = Return "warnet"
  /\ api.events (k8s_calls._rpc healthy "default" "tank-0000" "getinfo" []
                   (Some "other"))
     = [api.Did (SubprocessRun
                   "kubectl config view --minify -o jsonpath='{..namespace}'");
        api.Did LoadKubeConfig;
        api.Did (ReadNamespacedPod "tank-0000" "warnet");
        api.Did (SubprocessRun
                   "kubectl -n other exec tank-0000 -- lncli --network regtest getinfo ")].
Proof.
  split; [reflexivity |].
  exact (rpc_reads_the_pod_in_the_default_namespace healthy "default"
           "tank-0000" "getinfo" [] "other" "warnet"
           (tank_pod "tank-0000" "regtest")
           [("chain", "regtest"); ("mission", "tank")] "regtest"
           eq_refl eq_refl eq_refl eq_refl eq_refl eq_refl).
Defined.

(** ** Temporary files *)

Lemma apply_kubernetes_yaml_obj_always_unlinks_witness :
  named_temporary_file healthy None = inr "/tmp/tmpk3x9"
  /\ api.events (k8s_calls.apply_kubernetes_yaml_obj healthy string
                   (fun text => text) "kind: Namespace")
     = [api.NamedTemporaryFile None;
        api.WriteFile "/tmp/tmpk3x9" "kind: Namespace";
        api.Did (SubprocessPopen "kubectl apply -f /tmp/tmpk3x9");
        api.Did (Print "Kubernetes object applied successfully from /tmp/tmpk3x9");
        api.Remove "/tmp/tmpk3x9"].
Proof.
  split; [reflexivity |].
  exact (proj1 (apply_kubernetes_yaml_obj_always_unlinks healthy string
                  (fun text => text) "kind: Namespace" "/tmp/tmpk3x9"
                  eq_refl eq_refl)).
Defined.

Lemma apply_kubernetes_yaml_obj_keeps_file_of_failed_dump_witness :
  write_fails full_disk "/tmp/tmpk3x9" = Some "No space left on device"
  /\ api.events (k8s_calls.apply_kubernetes_yaml_obj full_disk string
                   (fun text => text) "kind: Namespace")
     = [api.NamedTemporaryFile None;
        api.WriteFile "/tmp/tmpk3x9" "kind: Namespace"]
  /\ api.outcome_of (k8s_calls.apply_kubernetes_yaml_obj full_disk string
                       (fun text => text) "kind: Namespace")
     = api.Raised (api.Error "No space left on device").
Proof.
  split; [reflexivity |].
  exact (apply_kubernetes_yaml_obj_keeps_file_of_failed_dump full_disk string
           (fun text => text) "kind: Namespace" "/tmp/tmpk3x9"
           "No space left on device" eq_refl eq_refl).
Defined.

Lemma write_kubeconfig_without_temp_file_witness :
  named_temporary_file no_directory
    (Some (example_dirname "/home/op/.kube/config"))
  = inl "No such file or directory"
  /\ k8s_calls.write_kubeconfig no_directory string (fun text => text)
       example_dirname "current-context: prod" "/home/op/.kube/config"
     = ([api.NamedTemporaryFile (Some "/home/op/.kube")],
        api.Raised (api.UnboundLocalError "temp_file")).
Proof.
  split; [reflexivity |].
  exact (write_kubeconfig_without_temp_file no_directory string
           (fun text => text) example_dirname "current-context: prod"
           "/home/op/.kube/config" "No such file or directory" eq_refl).
Defined.

Lemma write_kubeconfig_outcomes_witness :
  named_temporary_file full_disk (Some (example_dirname "/home/op/.kube/config"))
  = inr "/home/op/.kube/tmpk3x9"
  /\ api.events (k8s_calls.write_kubeconfig full_disk string (fun text => text)
                   example_dirname "current-context: prod" "/home/op/.kube/config")
     = [api.NamedTemporaryFile (Some "/home/op/.kube");
        api.WriteFile "/home/op/.kube/tmpk3x9" "current-context: prod";
        api.Remove "/home/op/.kube/tmpk3x9"]
  /\ api.outcome_of
       (k8s_calls.write_kubeconfig full_disk string (fun text => text)
          example_dirname "current-context: prod" "/home/op/.kube/config")
     = api.Raised (api.K8sError "Error writing kubeconfig: /home/op/.kube/config").
Proof.
  split; [reflexivity | split; [reflexivity |]].
  destruct (write_kubeconfig_outcomes full_disk string (fun text => text)
              example_dirname "current-context: prod" "/home/op/.kube/config"
              "/home/op/.kube/tmpk3x9" eq_refl) as (_ & _ & Hfail).
  apply Hfail. discriminate.
Defined.

(** ** _connected and _host *)

Lemma connected_stops_at_first_failure_witness :
  api.outcome_of (k8s_calls.get_mission regtest_network "default" ["kube-system"]
                    "tank")
  = api.Returned ([tank_expecting "tank-0000" "1"]
                    ++ tank_expecting "tank-0001" "2"
                    :: [tank_expecting "tank-0002" "1"])
  /\ api.outcome_of
       (network_calls._connected regtest_network "default" ["kube-system"]
          example_loads digit_of_str str_of_digit " ")
     = api.Returned false
  /\ rpc_calls
       (api.events
          (network_calls._connected regtest_network "default" ["kube-system"]
             example_loads digit_of_str str_of_digit " "))
     = [("tank-0000", Some "warnet"); ("tank-0001", Some "warnet")].
Proof.
  split; [reflexivity |].
  apply (connected_stops_at_first_failure regtest_network "default"
           ["kube-system"] example_loads digit_of_str str_of_digit
           [tank_expecting "tank-0000" "1"] (tank_expecting "tank-0001" "2")
           [tank_expecting "tank-0002" "1"] " ").
  - reflexivity.
  - intros t [<- | []].
    eexists peerinfo_reply, _,
      [ [("connection_type", network.JString "manual")];
        [("connection_type", network.JString "inbound");
         ("addnode", network.JBool false)] ],
      _, "1", 1%Z.
    repeat split; try reflexivity. left. vm_compute. discriminate.
  - intros (text & v & peers & notes & note & expected & Hrpc & Hv & Hpeers
            & Hnotes & Hnote & Hint & Hle).
    injection Hrpc as <-. vm_compute in Hv. injection Hv as <-.
    cbn [network.elements] in Hpeers. injection Hpeers as Hpeers.
    destruct peers as [| p1 [| p2 [| p3 peers]]]; try discriminate Hpeers.
    injection Hpeers as <- <-.
    injection Hnotes as <-. vm_compute in Hnote. injection Hnote as <-.
    vm_compute in Hint. injection Hint as <-.
    vm_compute in Hle. destruct Hle as [H | H]; apply H; reflexivity.
  - intros code. discriminate.
Defined.

Lemma host_of_first_uri_witness :
  api.outcome_of (k8s_calls._rpc regtest_network "default" "tank-0000-ln"
                    "getinfo" [] None)
  = api.Returned getinfo_reply
  /\ api.outcome_of (ln_calls._host regtest_network "default" example_loads
                       "tank-0000-ln")
     = api.Returned "10.0.0.5:9735".
Proof.
  split; [reflexivity |].
  destruct (host_of_first_uri regtest_network "default" example_loads
              "tank-0000-ln" getinfo_reply
              [ ("identity_pubkey", network.JString "03ab12");
                ("uris", network.JArray
                           [network.JString "03ab12@10.0.0.5:9735@backup"]) ]
              eq_refl eq_refl) as (_ & _ & _ & Hfield & _).
  apply (Hfield "03ab12" "10.0.0.5:9735" "@backup" []).
  - reflexivity.
  - cbn. repeat split; discriminate.
  - cbn. repeat split; discriminate.
  - right. now exists "backup".
Defined.

(** ** write_file_to_container, for a plain destination *)

Lemma write_file_plain_destination_witness :
  all_plain "/data/cfg.txt" = true
  /\ result (k8s.write_file_to_container calm "default" "tank-0000" "bitcoincore"
               "/data/cfg.txt" "hello" (Some "warnet") false)
     = Return (Some true)
  /\ exists receive rename,
       exec_commands
         (trace (k8s.write_file_to_container calm "default" "tank-0000"
                   "bitcoincore" "/data/cfg.txt" "hello" (Some "warnet") false))
       = [ ["sh"; "-c"; receive]; ["sh"; "-c"; rename] ]
       /\ sh.read receive
          = Some [ {| sh.argv := ["cat"];
                      sh.redirects := ["/data/cfg.txt" +++ ".tmp"] |};
                   {| sh.argv := ["sync"]; sh.redirects := [] |} ]
       /\ sh.read rename
          = Some [ {| sh.argv := ["mv"; "/data/cfg.txt" +++ ".tmp"; "/data/cfg.txt"];
                      sh.redirects := [] |} ].
Proof.
  split; [reflexivity | split; [reflexivity |]].
  apply (write_file_plain_destination calm "default" "tank-0000" "bitcoincore"
           "/data/cfg.txt" "hello" (Some "warnet") false);
    [reflexivity | discriminate | reflexivity].
Defined.
